(** * Reference database pipeline: parser, matcher, builder, auditor, dedup

    A shallow embedding of the Python scripts [build_ref_db.py],
    [audit_refs.py] and [dedup_refs.py], and the statements of their
    specification settled against it.

    Conventions of the embedding.
    - Python [str] is [string]; the characters are read as the ASCII code
      points, on which [unicodedata] normalisation is the identity and the
      classes [\w], [\s], [\d] are the ones defined below.
    - A Python [dict] keeps its insertion order (the matcher iterates over
      [dict.items()] and stops at the first hit), so dicts are association
      lists with Python's update discipline: assignment to a present key
      keeps its position, assignment to a new key appends.
    - Python [int] is [Z].
    - The scores of [difflib.SequenceMatcher] are rationals ([Q]): the
      library returns [2*M/T] for integers [M], [T], and the thresholds
      0.95, 0.65 and 0.55 are compared with it; on rationals of that size
      the comparison of the doubles is the comparison of the rationals.
      [SequenceMatcher.ratio] itself is library code and is a parameter.
    - [html.parser] is library code: the reference entries a document
      parses to are inputs of the matcher, as records, and the handlers
      of [CitationExtractor] are run on the events (start tags, end tags
      and text) that the library hands to them.
    - The three stores are kept as the JSON values that [json.dump] writes
      and [json.load] reads back, objects in their key order.
    - A function that can raise returns an [option]: [None] is the
      exception that ends it ([KeyError], [TypeError], or the [ValueError]
      of [int] on more digits than the interpreter converts).
    - [dedup_refs.py] rewrites the text of a document with regular
      expressions; the embedding applies the same expressions to the
      text.
    - A [while] loop over a text takes the length of the text as fuel;
      Parts II and IV show that this is enough for each of them. *)

From Stdlib Require Import Bool Arith ZArith QArith Lia List Sorted.
From Stdlib Require Import Ascii String DecimalString.
Import ListNotations.

Set Implicit Arguments.

Local Open Scope string_scope.
Local Open Scope bool_scope.

(* ===================================================================== *)
(** * Part I: the embedding                                               *)
(* ===================================================================== *)

(* --------------------------------------------------------------------- *)
(** ** Characters and Python's string methods                              *)
(* --------------------------------------------------------------------- *)

Module Py.

Definition code (c : ascii) : nat := nat_of_ascii c.

Definition in_range (lo hi : nat) (c : ascii) : bool :=
  (lo <=? code c)%nat && (code c <=? hi)%nat.

Definition is_digit (c : ascii) : bool := in_range 48 57 c.
Definition is_upper (c : ascii) : bool := in_range 65 90 c.
Definition is_lower (c : ascii) : bool := in_range 97 122 c.
Definition is_alpha (c : ascii) : bool := is_upper c || is_lower c.
Definition is_alnum (c : ascii) : bool := is_alpha c || is_digit c.

(** [\w]: alphanumeric or underscore. *)
Definition is_word (c : ascii) : bool := is_alnum c || Ascii.eqb c "_".

(** [str.isspace] and [\s]: TAB, LF, VT, FF, CR, FS, GS, RS, US, SPACE. *)
Definition is_space (c : ascii) : bool :=
  in_range 9 13 c || in_range 28 32 c.

Definition is_char (a : ascii) (c : ascii) : bool := Ascii.eqb c a.

(** Membership of a character in a literal string, [c in 'abc']. *)
Fixpoint char_in (set : string) (c : ascii) : bool :=
  match set with
  | EmptyString => false
  | String a set' => Ascii.eqb c a || char_in set' c
  end.

Definition lower_char (c : ascii) : ascii :=
  if is_upper c then ascii_of_nat (code c + 32) else c.

Fixpoint lower (s : string) : string :=
  match s with
  | EmptyString => EmptyString
  | String c s' => String (lower_char c) (lower s')
  end.

(** [not s]: the empty string is the only false string. *)
Definition is_empty (s : string) : bool :=
  match s with EmptyString => true | _ => false end.

Definition nonempty (s : string) : bool := negb (is_empty s).

(** [a or b] on strings. *)
Definition str_or (a b : string) : string := if nonempty a then a else b.

Fixpoint take (n : nat) (s : string) : string :=
  match n, s with
  | S n', String c s' => String c (take n' s')
  | _, _ => EmptyString
  end.

Fixpoint drop (n : nat) (s : string) : string :=
  match n, s with
  | S n', String _ s' => drop n' s'
  | _, _ => s
  end.

Fixpoint lstrip_by (p : ascii -> bool) (s : string) : string :=
  match s with
  | String c s' => if p c then lstrip_by p s' else s
  | EmptyString => EmptyString
  end.

Fixpoint rstrip_by (p : ascii -> bool) (s : string) : string :=
  match s with
  | EmptyString => EmptyString
  | String c s' =>
      match rstrip_by p s' with
      | EmptyString => if p c then EmptyString else String c EmptyString
      | r => String c r
      end
  end.

(** [s.strip()] *)
Definition strip (s : string) : string := rstrip_by is_space (lstrip_by is_space s).

(** [s.rstrip('/')] *)
Definition rstrip_slash (s : string) : string := rstrip_by (is_char "/") s.

Fixpoint starts_with (p s : string) : bool :=
  match p, s with
  | EmptyString, _ => true
  | String a p', String b s' => Ascii.eqb a b && starts_with p' s'
  | String _ _, EmptyString => false
  end.

(** [sub in s] *)
Fixpoint contains (sub s : string) : bool :=
  starts_with sub s ||
  match s with
  | EmptyString => false
  | String _ s' => contains sub s'
  end.

(** [s.find(c)] on a suffix: the text before the first [c] and the text
    after it, [None] for -1. *)
Fixpoint find_char (c : ascii) (s : string) : option (string * string) :=
  match s with
  | EmptyString => None
  | String a s' =>
      if Ascii.eqb a c then Some (EmptyString, s')
      else match find_char c s' with
           | Some (pre, post) => Some (String a pre, post)
           | None => None
           end
  end.

(** [s.split()]: the maximal runs of non-space characters. *)
Fixpoint split_ws_aux (s : string) (cur : string) : list string :=
  match s with
  | EmptyString => if is_empty cur then [] else [cur]
  | String c s' =>
      if is_space c
      then (if is_empty cur then split_ws_aux s' EmptyString else cur :: split_ws_aux s' EmptyString)
      else split_ws_aux s' (cur ++ String c EmptyString)
  end.

Definition split_ws (s : string) : list string := split_ws_aux s EmptyString.

(** [sep.join(l)] *)
Fixpoint join (sep : string) (l : list string) : string :=
  match l with
  | [] => EmptyString
  | [x] => x
  | x :: l' => x ++ sep ++ join sep l'
  end.

(** [str(n)] for an [int]. *)
Definition str_of_Z (z : Z) : string := NilZero.string_of_int (Z.to_int z).

(** The value of a run of ASCII digits. *)
Fixpoint int_of_digits (s : string) (acc : Z) : Z :=
  match s with
  | EmptyString => acc
  | String c s' => int_of_digits s' (10 * acc + Z.of_nat (code c - 48))%Z
  end.

(** The most digits the interpreter converts between [str] and [int],
    [sys.get_int_max_str_digits()] as the interpreter starts. *)
Definition int_max_str_digits : nat := 4300.

(** [int(s)] for a run of ASCII digits; [None] is the ValueError of a run
    with more digits than the limit. *)
Definition int_of_str (s : string) : option Z :=
  if (length s <=? int_max_str_digits)%nat
  then Some (int_of_digits s 0)
  else None.

(** [s.replace(old, new, 1)] for a non-empty [old]. *)
Fixpoint replace_first (old new s : string) : string :=
  if starts_with old s then new ++ drop (length old) s
  else match s with
       | EmptyString => EmptyString
       | String c s' => String c (replace_first old new s')
       end.

End Py.

(* --------------------------------------------------------------------- *)
(** ** The regular expressions of the scripts                              *)
(* --------------------------------------------------------------------- *)

(** A backtracking matcher with Python's priorities: alternatives are
    tried left to right, [*] is greedy and tries one more repetition
    before the rest of the pattern, the lazy star tries the rest of the
    pattern before one more repetition, and a failure of the rest of the
    pattern backtracks into the last choice.  One capturing group is
    enough for every pattern of the scripts. *)
Module Re.

Inductive regex : Type :=
| Eps : regex
| Chr : (ascii -> bool) -> regex
| Cat : regex -> regex -> regex
| Alt : regex -> regex -> regex
| Star : regex -> regex
| Grp : regex -> regex
| Eol : regex
| Lazy : regex -> regex.

Definition Plus (r : regex) : regex := Cat r (Star r).
Definition Opt (r : regex) : regex := Alt r Eps.

(** A literal string. *)
Fixpoint Lit (s : string) : regex :=
  match s with
  | EmptyString => Eps
  | String c s' => Cat (Chr (Py.is_char c)) (Lit s')
  end.

(** A literal matched under [re.IGNORECASE]. *)
Fixpoint LitI (s : string) : regex :=
  match s with
  | EmptyString => Eps
  | String c s' =>
      Cat (Chr (fun x => Ascii.eqb (Py.lower_char x) (Py.lower_char c))) (LitI s')
  end.

Fixpoint Rep (n : nat) (r : regex) : regex :=
  match n with
  | O => Eps
  | S n' => Cat r (Rep n' r)
  end.

(** The result of a match: the text after it and the captured group. *)
Definition result : Type := string * option string.

Definition accept (rest : string) (g : option string) : option result :=
  Some (rest, g).

Fixpoint run (r : regex) (s : string) (g : option string)
    (k : string -> option string -> option result) : option result :=
  match r with
  | Eps => k s g
  | Chr p =>
      match s with
      | String c s' => if p c then k s' g else None
      | EmptyString => None
      end
  | Cat a b => run a s g (fun s' g' => run b s' g' k)
  | Alt a b =>
      match run a s g k with
      | Some x => Some x
      | None => run b s g k
      end
  | Star a =>
      (fix loop (n : nat) (s : string) (g : option string) : option result :=
         match n with
         | O => k s g
         | S n' =>
             match run a s g (fun s' g' =>
                                if (length s' <? length s)%nat
                                then loop n' s' g' else None) with
             | Some x => Some x
             | None => k s g
             end
         end) (length s) s g
  | Grp a =>
      run a s g (fun s' _ => k s' (Some (Py.take (length s - length s') s)))
  | Eol =>
      match s with
      | EmptyString => k s g
      | String c EmptyString => if Py.is_char "010" c then k s g else None
      | _ => None
      end
  | Lazy a =>
      (fix loop (n : nat) (s : string) (g : option string) : option result :=
         match k s g with
         | Some x => Some x
         | None =>
             match n with
             | O => None
             | S n' =>
                 run a s g (fun s' g' =>
                              if (length s' <? length s)%nat
                              then loop n' s' g' else None)
             end
         end) (length s) s g
  end.

(** [re.match(r, s)]: the rest after the match and the group. *)
Definition rmatch (r : regex) (s : string) : option result :=
  run r s None accept.

(** [re.search(r, s)]: the text before the leftmost match, the text after
    it, and the group. *)
Fixpoint search (r : regex) (s : string) : option (string * string * option string) :=
  match rmatch r s with
  | Some (rest, g) => Some (EmptyString, rest, g)
  | None =>
      match s with
      | EmptyString => None
      | String c s' =>
          match search r s' with
          | Some (pre, rest, g) => Some (String c pre, rest, g)
          | None => None
          end
      end
  end.

(** The text a match covers, [m.group(0)], from the input at its start and
    the rest after it. *)
Definition matched (s rest : string) : string :=
  Py.take (length s - length rest) s.

(** [re.sub(r, repl, s)] for a pattern that matches no empty string (all
    patterns the scripts substitute are of that kind); [repl] receives the
    group. *)
Fixpoint sub_loop (fuel : nat) (r : regex) (repl : option string -> string)
    (s : string) : string :=
  match fuel with
  | O => s
  | S fuel' =>
      match rmatch r s with
      | Some (rest, g) =>
          if (length rest <? length s)%nat
          then repl g ++ sub_loop fuel' r repl rest
          else match s with
               | EmptyString => EmptyString
               | String c s' => String c (sub_loop fuel' r repl s')
               end
      | None =>
          match s with
          | EmptyString => EmptyString
          | String c s' => String c (sub_loop fuel' r repl s')
          end
      end
  end.

Definition sub (r : regex) (repl : option string -> string) (s : string) : string :=
  sub_loop (S (length s)) r repl s.

(** [re.sub(r, '', s)] *)
Definition remove (r : regex) (s : string) : string := sub r (fun _ => EmptyString) s.

(** [re.sub(r, f, s)] with a function [f] of the match, for a pattern
    that matches no empty string: [f] receives [m.group(0)] and the
    group, and [None] is an exception it raises. *)
Fixpoint sub_fn_loop (fuel : nat) (r : regex)
    (f : string -> option string -> option string) (s : string)
  : option string :=
  match fuel with
  | O => Some s
  | S fuel' =>
      match match rmatch r s with
            | Some (rest, g) =>
                if (length rest <? length s)%nat then Some (rest, g) else None
            | None => None
            end with
      | Some (rest, g) =>
          match f (matched s rest) g with
          | Some repl =>
              match sub_fn_loop fuel' r f rest with
              | Some t => Some (repl ++ t)
              | None => None
              end
          | None => None
          end
      | None =>
          match s with
          | EmptyString => Some EmptyString
          | String c s' =>
              match sub_fn_loop fuel' r f s' with
              | Some t => Some (String c t)
              | None => None
              end
          end
      end
  end.

Definition sub_fn (r : regex) (f : string -> option string -> option string)
    (s : string) : option string :=
  sub_fn_loop (S (length s)) r f s.

(** [re.sub(r, '', s, count=1)] for a pattern that matches no empty
    string: the leftmost match is taken out. *)
Definition remove_once (r : regex) (s : string) : string :=
  match search r s with
  | Some (pre, rest, _) => pre ++ rest
  | None => s
  end.

(** [re.sub('^' + r, '', s)]: without [re.MULTILINE] the only place [^]
    matches is the start of the text. *)
Definition remove_prefix (r : regex) (s : string) : string :=
  match rmatch r s with
  | Some (rest, _) => rest
  | None => s
  end.

(** [re.split(r, s)] for a pattern that matches no empty string. *)
Fixpoint split_loop (fuel : nat) (r : regex) (s : string) (cur : string)
  : list string :=
  match fuel with
  | O => [cur ++ s]
  | S fuel' =>
      match s with
      | EmptyString => [cur]
      | String c s' =>
          match rmatch r s with
          | Some (rest, _) =>
              if (length rest <? length s)%nat
              then cur :: split_loop fuel' r rest EmptyString
              else split_loop fuel' r s' (cur ++ String c EmptyString)
          | None => split_loop fuel' r s' (cur ++ String c EmptyString)
          end
      end
  end.

Definition split (r : regex) (s : string) : list string :=
  split_loop (S (length s)) r s EmptyString.

Definition word : regex := Chr Py.is_word.
Definition space : regex := Chr Py.is_space.
Definition digit : regex := Chr Py.is_digit.
Definition not_in (set : string) : regex := Chr (fun c => negb (Py.char_in set c)).
Definition any : regex := Chr (fun _ => true).

End Re.

(* --------------------------------------------------------------------- *)
(** ** Python dicts: insertion-ordered finite maps                         *)
(* --------------------------------------------------------------------- *)

Class Key (K : Type) : Type := {
  key_eqb : K -> K -> bool;
  key_eqb_spec : forall a b : K, reflect (a = b) (key_eqb a b)
}.

#[export] Instance string_Key : Key string :=
  {| key_eqb := String.eqb; key_eqb_spec := String.eqb_spec |}.

#[export] Instance Z_Key : Key Z :=
  {| key_eqb := Z.eqb; key_eqb_spec := Z.eqb_spec |}.

Section Dict.
Context {K V : Type} {HK : Key K}.

Definition dict : Type := list (K * V).

(** [d.get(k)] *)
Fixpoint dict_get (k : K) (d : dict) : option V :=
  match d with
  | [] => None
  | (k', v) :: d' => if key_eqb k k' then Some v else dict_get k d'
  end.

(** [d[k] = v]: a present key keeps its place, a new key goes last. *)
Fixpoint dict_set (k : K) (v : V) (d : dict) : dict :=
  match d with
  | [] => [(k, v)]
  | (k', v') :: d' =>
      if key_eqb k k' then (k', v) :: d' else (k', v') :: dict_set k v d'
  end.

(** [k in d] *)
Definition dict_mem (k : K) (d : dict) : bool :=
  match dict_get k d with Some _ => true | None => false end.

Definition dict_keys (d : dict) : list K := map fst d.
Definition dict_values (d : dict) : list V := map snd d.
End Dict.

Arguments dict K V : clear implicits.

(** [d.get(k, '')] on a dict of strings. *)
Definition get_str (k : string) (d : dict string string) : string :=
  match dict_get k d with Some v => v | None => EmptyString end.

(** Membership in a list used as a Python [set]. *)
Definition mem_Z (n : Z) (l : list Z) : bool := existsb (Z.eqb n) l.

(* --------------------------------------------------------------------- *)
(** ** build_ref_db.py: the BibTeX parser                                  *)
(* --------------------------------------------------------------------- *)

(** A BibTeX entry: field name to value, with the entry type under
    ['_type']. *)
Definition bib_entry : Type := dict string string.

(** The brace scan [while i < len(text) and depth > 0]: the number of
    characters it advances over. *)
Fixpoint scan_close (s : string) (depth : nat) : nat :=
  match depth with
  | O => O
  | S d =>
      match s with
      | EmptyString => O
      | String c s' =>
          S (scan_close s' (if Ascii.eqb c "{" then S depth
                            else if Ascii.eqb c "}" then d else depth))
      end
  end.

Definition dquote : ascii := ascii_of_nat 34.
Definition bslash : ascii := ascii_of_nat 92.

(** [(\w+)\s*=\s*] *)
Definition field_re : Re.regex :=
  Re.Cat (Re.Grp (Re.Plus Re.word))
    (Re.Cat (Re.Star Re.space) (Re.Cat (Re.Lit "=") (Re.Star Re.space))).

(** [([^\s,}]+)] *)
Definition bare_re : Re.regex :=
  Re.Grp (Re.Plus (Re.Chr (fun c => negb (Py.is_space c || Py.char_in ",}" c)))).

Definition group1 (g : option string) : string :=
  match g with Some x => x | None => EmptyString end.

(** The separators skipped between fields: [' \t\n\r,']. *)
Definition is_field_sep (c : ascii) : bool :=
  Py.in_range 9 10 c || Py.in_range 13 13 c || Py.in_range 32 32 c
  || Ascii.eqb c ",".

(** [_parse_bib_fields], on the part of the body from index [i] on. *)
Fixpoint parse_fields_loop (fuel : nat) (s : string) (fields : bib_entry)
  : bib_entry :=
  match fuel with
  | O => fields
  | S fuel' =>
      let s1 := Py.lstrip_by is_field_sep s in
      match s1 with
      | EmptyString => fields
      | String _ s1' =>
          match Re.rmatch field_re s1 with
          | None => parse_fields_loop fuel' s1' fields
          | Some (s2, g) =>
              let field_name := Py.lower (group1 g) in
              match s2 with
              | EmptyString => fields
              | String c s3 =>
                  if Ascii.eqb c "{" then
                    let n := scan_close s3 1 in
                    let value := Py.take (n - 1) s3 in
                    parse_fields_loop fuel' (Py.drop n s3)
                      (dict_set field_name (Py.strip value) fields)
                  else if Ascii.eqb c dquote then
                    match Py.find_char dquote s3 with
                    | Some (value, rest) =>
                        parse_fields_loop fuel' rest
                          (dict_set field_name (Py.strip value) fields)
                    | None => dict_set field_name (Py.strip s3) fields
                    end
                  else
                    match Re.rmatch bare_re s2 with
                    | Some (rest, g2) =>
                        parse_fields_loop fuel' rest
                          (dict_set field_name (Py.strip (group1 g2)) fields)
                    | None => parse_fields_loop fuel' s3 fields
                    end
              end
          end
      end
  end.

Definition _parse_bib_fields (body : string) : bib_entry :=
  parse_fields_loop (S (length body)) body [].

(** [@(\w+)\s*\{] *)
Definition entry_re : Re.regex :=
  Re.Cat (Re.Lit "@")
    (Re.Cat (Re.Grp (Re.Plus Re.word)) (Re.Cat (Re.Star Re.space) (Re.Lit "{"))).

(** The main loop of [parse_bibtex], on the text from [pos] on. *)
Fixpoint parse_entries (fuel : nat) (s : string)
    (entries : dict string bib_entry) : dict string bib_entry :=
  match fuel with
  | O => entries
  | S fuel' =>
      if Py.is_empty s then entries else
      match Re.search entry_re s with
      | None => entries
      | Some (_, after, g) =>
          let entry_type := Py.lower (group1 g) in
          match Py.find_char "," after with
          | None => entries
          | Some (key_text, after_comma) =>
              let key := Py.strip key_text in
              let n := scan_close after_comma 1 in
              let body := Py.take (n - 1) after_comma in
              let fields := dict_set "_type" entry_type (_parse_bib_fields body) in
              parse_entries fuel' (Py.drop n after_comma)
                (dict_set key fields entries)
          end
      end
  end.

Definition parse_bibtex (text : string) : dict string bib_entry :=
  parse_entries (S (length text)) text [].

Definition classify_bib_type (entry : bib_entry) : string :=
  let t := get_str "_type" entry in
  if String.eqb t "article" then "journal"
  else if String.eqb t "inproceedings" then "conference"
  else if String.eqb t "conference" then "conference"
  else if String.eqb t "book" then "book"
  else if String.eqb t "incollection" then "book-chapter"
  else if String.eqb t "phdthesis" then "thesis"
  else if String.eqb t "mastersthesis" then "thesis"
  else if String.eqb t "techreport" then "report"
  else if String.eqb t "misc" then "misc"
  else if String.eqb t "unpublished" then "preprint"
  else "misc".

Fixpoint first_present (fields : list string) (entry : bib_entry) : option string :=
  match fields with
  | [] => None
  | f :: fields' =>
      match dict_get f entry with
      | Some v => Some v
      | None => first_present fields' entry
      end
  end.

Definition bib_venue (entry : bib_entry) : option string :=
  first_present ["journal"; "booktitle"; "publisher"; "howpublished"; "school"] entry.

(** An opening parenthesis, the group [[A-Z]{2,}] followed by any run of
    characters other than a closing parenthesis, a closing parenthesis. *)
Definition acronym_re : Re.regex :=
  Re.Cat (Re.Lit "(")
    (Re.Cat (Re.Grp (Re.Cat (Re.Rep 2 (Re.Chr Py.is_upper))
                       (Re.Cat (Re.Star (Re.Chr Py.is_upper))
                               (Re.Star (Re.not_in ")")))))
            (Re.Lit ")")).

Definition bib_venue_short (entry : bib_entry) : option string :=
  match bib_venue entry with
  | None => None
  | Some venue =>
      if Py.is_empty venue then None
      else if Py.contains "arxiv" (Py.lower venue) then Some venue
      else if (40 <? length venue)%nat then
        match Re.search acronym_re venue with
        | Some (_, _, g) => Some (group1 g)
        | None => Some venue
        end
      else Some venue
  end.

(** [\s+and\s+] under [re.IGNORECASE] *)
Definition and_re : Re.regex :=
  Re.Cat (Re.Plus Re.space) (Re.Cat (Re.LitI "and") (Re.Plus Re.space)).

(** One segment of the author field, already stripped and not empty, as
    (first, last). *)
Definition parse_one_author (p : string) : string * string :=
  match Py.find_char "," p with
  | Some (last, first) => (Py.strip (Py.strip first), Py.strip (Py.strip last))
  | None =>
      match rev (Py.split_ws p) with
      | [] => (EmptyString, EmptyString)
      | [w] => (EmptyString, Py.strip w)
      | w :: firsts => (Py.strip (Py.join " " (rev firsts)), Py.strip w)
      end
  end.

Fixpoint parse_author_parts (parts : list string) : list (string * string) :=
  match parts with
  | [] => []
  | p :: parts' =>
      let p' := Py.strip p in
      if Py.is_empty p' then parse_author_parts parts'
      else parse_one_author p' :: parse_author_parts parts'
  end.

Definition parse_bib_authors (raw : string) : list (string * string) :=
  if Py.is_empty raw then []
  else parse_author_parts (Re.split and_re raw).

(** The inner [normalize] of [make_author_key]; accent removal is the
    identity on ASCII text. *)
Definition normalize_name (s : string) : string :=
  let s1 := Re.remove (Re.Chr (fun c => negb (Py.is_lower c || Py.is_digit c
                                              || Ascii.eqb c " ")))
                      (Py.lower s) in
  Re.sub (Re.Plus Re.space) (fun _ => "_") (Py.strip s1).

Definition make_author_key (first last : string) : string :=
  let last_n := normalize_name last in
  let first_n := normalize_name first in
  if Py.nonempty first_n then last_n ++ "_" ++ first_n else last_n.

Definition make_display_name (first last : string) : string :=
  if Py.nonempty first then first ++ " " ++ last else last.

(* --------------------------------------------------------------------- *)
(** ** build_ref_db.py: matching reference entries to BibTeX entries       *)
(* --------------------------------------------------------------------- *)

(** One parsed [<li id="ref-N">] of a document, as [RefListParser] and
    [parse_html_refs] leave it: every field is present, [year] is [None]
    or an [int]. *)
Record html_ref : Type := {
  ref_num : Z;
  ref_authors_raw : string;
  ref_title : string;
  ref_venue : string;
  ref_url : string;
  ref_year : option Z;
  ref_all_text : string
}.

(** [if ref.get('year')]: [None] and [0] are false. *)
Definition year_truthy (y : option Z) : bool :=
  match y with
  | Some z => negb (Z.eqb z 0)
  | None => false
  end.

(** [if key] on a value that is [None] or a string. *)
Definition key_truthy (k : option string) : bool :=
  match k with
  | Some s => Py.nonempty s
  | None => false
  end.

(** [^https?://] *)
Definition scheme_re : Re.regex :=
  Re.Cat (Re.Lit "http") (Re.Cat (Re.Opt (Re.Lit "s")) (Re.Lit "://")).

Definition normalize_url (url : string) : string :=
  if Py.is_empty url then EmptyString
  else
    let u1 := Py.rstrip_slash (Py.strip url) in
    let u2 := Re.remove_prefix scheme_re u1 in
    let u3 := Re.remove_prefix (Re.Lit "www.") u2 in
    Py.lower (Py.rstrip_slash u3).

Definition normalize_title (title : string) : string :=
  if Py.is_empty title then EmptyString
  else
    let t := Re.remove (Re.Chr (fun c => negb (Py.is_word c || Py.is_space c)))
                       (Py.lower title) in
    Py.join " " (Py.split_ws t).

(** [arxiv\.org/abs/(\d+\.\d+)] *)
Definition arxiv_re : Re.regex :=
  Re.Cat (Re.Lit "arxiv.org/abs/")
    (Re.Grp (Re.Cat (Re.Plus Re.digit) (Re.Cat (Re.Lit ".") (Re.Plus Re.digit)))).

Definition extract_arxiv_id (url : string) : option string :=
  if Py.is_empty url then None
  else match Re.search arxiv_re url with
       | Some (_, _, g) => Some (group1 g)
       | None => None
       end.

(** [\\url\{([^}]+)\}] *)
Definition url_macro_re : Re.regex :=
  Re.Cat (Re.Chr (Py.is_char bslash))
    (Re.Cat (Re.Lit "url{") (Re.Cat (Re.Grp (Re.Plus (Re.not_in "}"))) (Re.Lit "}"))).

(** The three lookup indices [match_refs_to_bib] builds. *)
Record indices : Type := {
  url_to_key : dict string string;
  arxiv_to_key : dict string string;
  title_index : list (string * string)
}.

Definition empty_indices : indices :=
  {| url_to_key := []; arxiv_to_key := []; title_index := [] |}.

(** The [url] field of an entry, else the URL inside [howpublished]. *)
Definition bib_url_of (entry : bib_entry) : string :=
  let bib_url := get_str "url" entry in
  if Py.nonempty bib_url then bib_url
  else match Re.search url_macro_re (get_str "howpublished" entry) with
       | Some (_, _, g) => group1 g
       | None => bib_url
       end.

(** One iteration of [for key, entry in bib_entries.items()]. *)
Definition index_entry (idx : indices) (ke : string * bib_entry) : indices :=
  let (key, entry) := ke in
  let bib_url := bib_url_of entry in
  let u1 :=
    if Py.nonempty bib_url
    then dict_set (normalize_url bib_url) key (url_to_key idx)
    else url_to_key idx in
  let a1 :=
    if Py.nonempty bib_url then
      match extract_arxiv_id bib_url with
      | Some aid =>
          if Py.nonempty aid then dict_set aid key (arxiv_to_key idx)
          else arxiv_to_key idx
      | None => arxiv_to_key idx
      end
    else arxiv_to_key idx in
  let doi := get_str "doi" entry in
  let u2 :=
    if Py.nonempty doi then
      let doi_url := "doi.org/" ++ doi in
      dict_set (normalize_url ("http://dx." ++ doi_url)) key
        (dict_set (normalize_url ("https://" ++ doi_url)) key
           (dict_set (normalize_url doi_url) key u1))
    else u1 in
  let title := Py.str_or (get_str "title" entry) (get_str "journal" entry) in
  let t1 :=
    if Py.nonempty title
    then (title_index idx ++ [(normalize_title title, key)])%list
    else title_index idx in
  {| url_to_key := u2; arxiv_to_key := a1; title_index := t1 |}.

Definition build_indices (bib_entries : dict string bib_entry) : indices :=
  fold_left index_entry bib_entries empty_indices.

(** How an entry was matched.  The two heuristic methods carry the score
    that Python formats into the method text. *)
Inductive method : Type :=
| M_url
| M_arxiv
| M_url_partial
| M_title_fuzzy (score : Q)
| M_author_year (score : Q).

(** The partial-URL loop: the first indexed URL that contains the
    reference URL or is contained in it. *)
Fixpoint first_partial (ref_url : string) (items : list (string * string))
  : option string :=
  match items with
  | [] => None
  | (bib_url_norm, bkey) :: items' =>
      if Py.contains ref_url bib_url_norm || Py.contains bib_url_norm ref_url
      then Some bkey
      else first_partial ref_url items'
  end.

(** Stage 1 of the code (the three URL stages of the specification):
    normalized-URL identity, arXiv identifier, partial URL. *)
Definition match_url_stages (idx : indices) (ref : html_ref)
  : option (string * method) :=
  let ref_url_n := normalize_url (ref_url ref) in
  if Py.nonempty ref_url_n then
    match dict_get ref_url_n (url_to_key idx) with
    | Some k => Some (k, M_url)
    | None =>
        let partial :=
          match first_partial ref_url_n (url_to_key idx) with
          | Some k => Some (k, M_url_partial)
          | None => None
          end in
        match extract_arxiv_id (ref_url ref) with
        | Some aid =>
            if Py.nonempty aid then
              match dict_get aid (arxiv_to_key idx) with
              | Some k => Some (k, M_arxiv)
              | None => partial
              end
            else partial
        | None => partial
        end
    end
  else None.

Definition Qltb (a b : Q) : bool := negb (Qle_bool b a).

(** The candidate texts of the fuzzy stage, in the order they are tried. *)
Definition fuzzy_candidates (ref : html_ref) : list string :=
  ([ref_title ref; ref_venue ref]
   ++ (if Py.nonempty (ref_authors_raw ref) then [ref_authors_raw ref] else [])
   ++ (if Py.nonempty (ref_all_text ref) then [ref_all_text ref] else []))%list.

(** [_make_synthetic_key]'s stop words. *)
Definition stop_words : list string :=
  ["the"; "a"; "an"; "of"; "in"; "on"; "for"; "and"; "to"; "from"; "with"].

Definition str_in (s : string) (l : list string) : bool := existsb (String.eqb s) l.

Section Matcher.

(** [SequenceMatcher(None, a, b).ratio()] *)
Variable ratio : string -> string -> Q.

Definition title_similarity (a b : string) : Q :=
  let na := normalize_title a in
  let nb := normalize_title b in
  if Py.is_empty na || Py.is_empty nb then 0 else ratio na nb.

(** The score of one (candidate, record title) pair, both normalized. *)
Definition pair_score (ref_norm bib_norm : string) : Q :=
  if (3 * length bib_norm <? 2 * length ref_norm)%nat
     && (10 <? length bib_norm)%nat
  then (if Py.contains bib_norm ref_norm then 95 # 100
        else ratio ref_norm bib_norm)
  else ratio ref_norm bib_norm.

(** The body of [for bib_norm, bkey in title_index]. *)
Definition fuzzy_step (ref_norm : string) (best : Q * option string)
    (rec : string * string) : Q * option string :=
  let (bib_norm, bkey) := rec in
  let score := pair_score ref_norm bib_norm in
  if Qltb (fst best) score then (score, Some bkey) else best.

(** The body of [for ref_title in candidates]. *)
Definition fuzzy_candidate (tindex : list (string * string))
    (best : Q * option string) (ref_title : string) : Q * option string :=
  let ref_norm := normalize_title ref_title in
  if Py.is_empty ref_norm then best
  else fold_left (fuzzy_step ref_norm) tindex best.

(** The best (score, key) of the fuzzy stage. *)
Definition fuzzy_best (idx : indices) (ref : html_ref) : Q * option string :=
  fold_left (fuzzy_candidate (title_index idx)) (fuzzy_candidates ref) (0, None).

(** Stage 2 of the code: the fuzzy title match. *)
Definition match_fuzzy (idx : indices) (ref : html_ref)
  : option (option string * method) :=
  let best := fuzzy_best idx ref in
  if Qle_bool (65 # 100) (fst best)
  then Some (snd best, M_title_fuzzy (fst best))
  else None.

(** The body of [for key, entry in bib_entries.items()] of stage 3. *)
Definition author_year_step (ref : html_ref) (best : Q * option string)
    (ke : string * bib_entry) : Q * option string :=
  let (key, entry) := ke in
  let ref_authors := Py.lower (ref_authors_raw ref) in
  let ref_all := Py.lower (ref_all_text ref) in
  match dict_get "year" entry, ref_year ref with
  | Some ey, Some ry =>
      if Py.nonempty ey && String.eqb ey (Py.str_of_Z ry) then
        match parse_bib_authors (get_str "author" entry) with
        | [] => best
        | (_, last) :: _ =>
            let main_last := Py.lower last in
            if Py.nonempty main_last
               && (Py.contains main_last ref_authors
                   || Py.contains main_last ref_all)
            then
              let ref_t := Py.str_or (ref_title ref)
                             (Py.str_or (ref_venue ref) (ref_all_text ref)) in
              let tscore := title_similarity ref_t (get_str "title" entry) in
              let score := (1 # 2) + tscore * (1 # 2) in
              if Qltb (fst best) score then (score, Some key) else best
            else best
        end
      else best
  | _, _ => best
  end.

(** Stage 3 of the code: first-author surname and year. *)
Definition match_author_year (bib_entries : dict string bib_entry)
    (ref : html_ref) : option (option string * method) :=
  let best := fold_left (author_year_step ref) bib_entries (0, None) in
  if key_truthy (snd best) && Qle_bool (55 # 100) (fst best)
  then Some (snd best, M_author_year (fst best))
  else None.

(** The body of [for ref in html_refs]: the matched key and the method,
    each [None] when nothing matched. *)
Definition match_ref (bib_entries : dict string bib_entry) (idx : indices)
    (ref : html_ref) : option string * option method :=
  let r1 : option string * option method :=
    match match_url_stages idx ref with
    | Some (k, m) => (Some k, Some m)
    | None => (None, None)
    end in
  let r2 :=
    if negb (key_truthy (fst r1)) then
      match match_fuzzy idx ref with
      | Some (k, m) => (k, Some m)
      | None => r1
      end
    else r1 in
  if negb (key_truthy (fst r2)) && year_truthy (ref_year ref) then
    match match_author_year bib_entries ref with
    | Some (k, m) => (k, Some m)
    | None => r2
    end
  else r2.

Definition match_refs_to_bib (html_refs : list html_ref)
    (bib_entries : dict string bib_entry)
  : list (html_ref * option string * option method) :=
  let idx := build_indices bib_entries in
  map (fun ref => let r := match_ref bib_entries idx ref in (ref, fst r, snd r))
      html_refs.

End Matcher.

(* --------------------------------------------------------------------- *)
(** ** build_ref_db.py: synthetic keys and entries                         *)
(* --------------------------------------------------------------------- *)

(** [([A-Z][a-z]+)] *)
Definition surname_re : Re.regex :=
  Re.Grp (Re.Cat (Re.Chr Py.is_upper) (Re.Plus (Re.Chr Py.is_lower))).

(** The first word of the title that is left non-empty by removing
    [[^\w]] and is no stop word. *)
Fixpoint first_content_word (words : list string) : string :=
  match words with
  | [] => EmptyString
  | w :: words' =>
      let w_clean := Py.lower (Re.remove (Re.Chr (fun c => negb (Py.is_word c))) w) in
      if Py.nonempty w_clean && negb (str_in w_clean stop_words)
      then w_clean
      else first_content_word words'
  end.

(** What an f-string prints for a value that is [None] or an [int]. *)
Definition format_year (y : option Z) : string :=
  match y with
  | Some z => Py.str_of_Z z
  | None => "None"
  end.

Definition synthetic_surname (authors_raw : string) : string :=
  match Re.rmatch surname_re authors_raw with
  | Some (_, g) => Py.lower (group1 g)
  | None => "unknown"
  end.

Definition _make_synthetic_key (ref : html_ref) (chapter_slug : string) : string :=
  let surname := synthetic_surname (ref_authors_raw ref) in
  let title := Py.str_or (ref_title ref) (ref_venue ref) in
  let title_word := first_content_word (Py.split_ws title) in
  surname ++ format_year (ref_year ref) ++ title_word.

(** [\s*\d{4}\s*\.?\s*$] *)
Definition trailing_year_re : Re.regex :=
  Re.Cat (Re.Star Re.space)
    (Re.Cat (Re.Rep 4 Re.digit)
       (Re.Cat (Re.Star Re.space)
          (Re.Cat (Re.Opt (Re.Lit ".")) (Re.Cat (Re.Star Re.space) Re.Eol)))).

Definition _make_synthetic_entry (ref : html_ref) : bib_entry :=
  let authors_clean := Py.strip (Re.remove trailing_year_re (ref_authors_raw ref)) in
  let entry : bib_entry :=
    [("author", authors_clean);
     ("title", ref_title ref);
     ("year", match ref_year ref with
              | Some z => if year_truthy (ref_year ref) then Py.str_of_Z z
                          else EmptyString
              | None => EmptyString
              end);
     ("url", ref_url ref);
     ("_type", "misc")] in
  if Py.nonempty (ref_venue ref)
  then dict_set "journal" (ref_venue ref) entry
  else entry.

(* --------------------------------------------------------------------- *)
(** ** build_ref_db.py: the database builder                               *)
(* --------------------------------------------------------------------- *)

(** The values of the JSON stores. *)
#[local] Set Warnings "-register-all".
Inductive json : Type :=
| JNull
| JBool (b : bool)
| JInt (z : Z)
| JStr (s : string)
| JArr (l : list json)
| JObj (l : list (string * json)).

(** A record of [references.json] or [authors.json]. *)
Definition record : Type := dict string json.

Definition json_of_opt_str (o : option string) : json :=
  match o with Some s => JStr s | None => JNull end.

(** [s or None] *)
Definition json_str_or_null (s : string) : json :=
  if Py.nonempty s then JStr s else JNull.

(** A backslash followed by a command name. *)
Definition command_re (name : string) : Re.regex :=
  Re.Cat (Re.Chr (Py.is_char bslash)) (Re.Cat (Re.Lit name) (Re.Star Re.space)).

(** A backslash, an accent mark, and the accented letter in optional
    braces; the letter is the group. *)
Definition accent_re (mark : ascii) : Re.regex :=
  Re.Cat (Re.Chr (Py.is_char bslash))
    (Re.Cat (Re.Chr (Py.is_char mark))
       (Re.Cat (Re.Opt (Re.Lit "{")) (Re.Cat (Re.Grp Re.word) (Re.Opt (Re.Lit "}"))))).

Definition _clean_latex (s : string) : string :=
  let s1 := Re.remove (Re.Chr (Py.char_in "{}")) s in
  let s2 := Re.remove (command_re "textit") s1 in
  let s3 := Re.remove (command_re "textbf") s2 in
  let s4 := Re.remove (command_re "emph") s3 in
  let s5 := Re.sub (accent_re "'") group1 s4 in
  let s6 := Re.sub (accent_re dquote) group1 s5 in
  let s7 := Re.remove (Re.Cat (Re.Chr (Py.is_char bslash))
                         (Re.Cat (Re.Plus Re.word) (Re.Star Re.space))) s6 in
  Py.strip s7.

(** What the builder collects over the documents. *)
Record collected : Type := {
  chapter_map : dict string (dict string string);
  all_matches : dict string bib_entry;
  html_urls : dict string string
}.

Definition empty_collected : collected :=
  {| chapter_map := []; all_matches := []; html_urls := [] |}.

(** The key a reference entry is filed under: the matched key, or the
    synthetic key when no key (or an empty one) was matched. *)
Definition assigned_key (slug : string) (m : html_ref * option string * option method)
  : string :=
  let '(ref, bib_key, _) := m in
  match bib_key with
  | Some k => if Py.nonempty k then k else _make_synthetic_key ref slug
  | None => _make_synthetic_key ref slug
  end.

(** The body of [for ref, bib_key, method in matches].  The dict of the
    current document, [chapter_map[slug]], is threaded next to the rest of
    the state; [None] is the [KeyError] of [bib_entries[bib_key]]. *)
Definition collect_match (bib_entries : dict string bib_entry) (slug : string)
    (st : option (dict string string * collected))
    (m : html_ref * option string * option method)
  : option (dict string string * collected) :=
  match st with
  | None => None
  | Some (cur, c) =>
      let '(ref, bib_key, _) := m in
      let ref_n := Py.str_of_Z (ref_num ref) in
      if key_truthy bib_key then
        let k := assigned_key slug m in
        match dict_get k bib_entries with
        | None => None
        | Some entry =>
            let urls :=
              if Py.nonempty (ref_url ref) && negb (dict_mem k (html_urls c))
              then dict_set k (ref_url ref) (html_urls c)
              else html_urls c in
            Some (dict_set ref_n k cur,
                  {| chapter_map := chapter_map c;
                     all_matches := dict_set k entry (all_matches c);
                     html_urls := urls |})
        end
      else
        let synth_key := assigned_key slug m in
        Some (dict_set ref_n synth_key cur,
              {| chapter_map := chapter_map c;
                 all_matches := dict_set synth_key (_make_synthetic_entry ref)
                                  (all_matches c);
                 html_urls := html_urls c |})
  end.

(** The [https?://doi\.org/] prefix a DOI may already carry. *)
Definition doi_prefix_re : Re.regex :=
  Re.Cat scheme_re (Re.Lit "doi.org/").

(** The [url] of a record: the entry's own, the one in [howpublished],
    the first one seen in a document, or the one derived from the DOI. *)
Definition record_url (urls : dict string string) (bib_key : string)
    (entry : bib_entry) : string :=
  let u1 := bib_url_of entry in
  let u2 :=
    if Py.is_empty u1 then
      match dict_get bib_key urls with Some u => u | None => u1 end
    else u1 in
  if Py.is_empty u2 && Py.nonempty (get_str "doi" entry) then
    "https://doi.org/"
    ++ Re.remove_prefix doi_prefix_re (Py.strip (get_str "doi" entry))
  else u2.

(** The [year] of a record. *)
Definition record_year (entry : bib_entry) : json :=
  match dict_get "year" entry with
  | None => JNull
  | Some y =>
      if Py.is_empty y then JStr y
      else match Re.search (Re.Grp (Re.Rep 4 Re.digit)) y with
           | Some (_, _, g) => JInt (Py.int_of_digits (group1 g) 0)
           | None => JNull
           end
  end.

Definition author_keys_of (entry : bib_entry) : list string :=
  map (fun fl => make_author_key (fst fl) (snd fl))
      (parse_bib_authors (get_str "author" entry)).

(** The eight fields the builder computes for a record, in the order of
    the dict literal passed to [base.update]. *)
Definition core_fields (urls : dict string string) (bib_key : string)
    (entry : bib_entry) : record :=
  [("title", JStr (_clean_latex (Py.str_or (get_str "title" entry)
                                           (get_str "journal" entry))));
   ("authors", JArr (map JStr (author_keys_of entry)));
   ("year", record_year entry);
   ("venue", json_of_opt_str (bib_venue entry));
   ("venueShort", json_of_opt_str (bib_venue_short entry));
   ("url", json_str_or_null (record_url urls bib_key entry));
   ("doi", json_str_or_null (get_str "doi" entry));
   ("type", JStr (classify_bib_type entry))].

(** [base.update(new)] *)
Definition dict_update {V : Type} (new base : dict string V) : dict string V :=
  fold_left (fun b kv => dict_set (fst kv) (snd kv) b) new base.

(** The merge of freshly computed fields into the record of the prior
    store (or into an empty record). *)
Definition merge_record (fields : record) (base : record) : record :=
  let b := dict_update fields base in
  if dict_mem "screenshot" b then b else dict_set "screenshot" JNull b.

Definition build_references (c : collected) (existing_refs : dict string record)
  : dict string record :=
  fold_left
    (fun references ke =>
       let base := match dict_get (fst ke) existing_refs with
                   | Some r => r
                   | None => []
                   end in
       dict_set (fst ke)
         (merge_record (core_fields (html_urls c) (fst ke) (snd ke)) base)
         references)
    (all_matches c) [].

(** The body of [for first, last in parsed]. *)
Definition add_author (existing_authors : dict string record)
    (authors : dict string record) (fl : string * string) : dict string record :=
  let akey := make_author_key (fst fl) (snd fl) in
  if Py.nonempty akey && negb (dict_mem akey authors) then
    match dict_get akey existing_authors with
    | Some r =>
        dict_set akey
          (dict_set "displayName" (JStr (make_display_name (fst fl) (snd fl))) r)
          authors
    | None =>
        dict_set akey
          [("displayName", JStr (make_display_name (fst fl) (snd fl)));
           ("affiliation", JNull);
           ("headshot", JNull);
           ("links", JObj [])]
          authors
    end
  else authors.

Definition build_authors (c : collected) (existing_authors : dict string record)
  : dict string record :=
  fold_left
    (fun authors ke =>
       fold_left (add_author existing_authors)
                 (parse_bib_authors (get_str "author" (snd ke))) authors)
    (all_matches c) [].

Section Builder.

Variable ratio : string -> string -> Q.

(** The body of [for slug, filename in CHAPTER_FILES], on the parsed
    reference entries of the document. *)
Definition collect_chapter (bib_entries : dict string bib_entry)
    (st : option collected) (ch : string * list html_ref) : option collected :=
  match st with
  | None => None
  | Some c =>
      let (slug, refs) := ch in
      let matches := match_refs_to_bib ratio refs bib_entries in
      match fold_left (collect_match bib_entries slug) matches (Some ([], c)) with
      | None => None
      | Some (cur, c') =>
          Some {| chapter_map := dict_set slug cur (chapter_map c');
                  all_matches := all_matches c';
                  html_urls := html_urls c' |}
      end
  end.

Definition collect (bib_entries : dict string bib_entry)
    (chapters : list (string * list html_ref)) : option collected :=
  fold_left (collect_chapter bib_entries) chapters (Some empty_collected).

(** The three stores [build_databases] writes and returns: the chapter
    map, the references and the authors.  [existing_refs] and
    [existing_authors] are the stores of the previous run, empty when
    the files do not exist. *)
Definition build_databases (bib_text : string)
    (chapters : list (string * list html_ref))
    (existing_refs existing_authors : dict string record)
  : option (dict string (dict string string)
            * dict string record * dict string record) :=
  match collect (parse_bibtex bib_text) chapters with
  | None => None
  | Some c =>
      Some (chapter_map c,
            build_references c existing_refs,
            build_authors c existing_authors)
  end.

End Builder.

(* --------------------------------------------------------------------- *)
(** ** Sorted sets of numbers and of strings                               *)
(* --------------------------------------------------------------------- *)

(** [sorted(set(l))] is computed by inserting every element into an
    ascending list that keeps one copy of each value. *)
Fixpoint insert_uniq (x : Z) (l : list Z) : list Z :=
  match l with
  | [] => [x]
  | y :: l' =>
      if (x <? y)%Z then x :: l
      else if (x =? y)%Z then l
      else y :: insert_uniq x l'
  end.

Definition sorted_set (l : list Z) : list Z := fold_right insert_uniq [] l.

(** [sorted(set(a) - set(b))] *)
Definition sorted_diff (a b : list Z) : list Z :=
  sorted_set (filter (fun n => negb (mem_Z n b)) a).

Fixpoint insert_uniq_str (x : string) (l : list string) : list string :=
  match l with
  | [] => [x]
  | y :: l' =>
      if String.ltb x y then x :: l
      else if String.eqb x y then l
      else y :: insert_uniq_str x l'
  end.

Definition sorted_set_str (l : list string) : list string :=
  fold_right insert_uniq_str [] l.

(** [min(nums)], with the head of the list as the start value. *)
Definition list_min (hd : Z) (l : list Z) : Z := fold_left Z.min l hd.

(** [max(nums)] *)
Definition list_max (hd : Z) (l : list Z) : Z := fold_left Z.max l hd.

(* --------------------------------------------------------------------- *)
(** ** audit_refs.py                                                       *)
(* --------------------------------------------------------------------- *)

(** The keys of a document's chapter map are the decimal strings the
    builder writes with [str(num)]; the auditor and the dedup script read
    them back with [int], and the embedding of these two scripts keeps
    them as the integers they denote. *)
Definition chapter_nums : Type := dict Z string.

(** What [CitationExtractor] collects from one document. *)
Record entry_data : Type := {
  ed_authors : string;
  ed_title : string;
  ed_venue : string;
  ed_url : string
}.

Record parsed_chapter : Type := {
  citations : list (nat * Z);
  ref_entries : list Z;
  ref_entry_data : dict Z entry_data
}.

(** The messages of the audit, by the text they are formatted into. *)
Inductive message : Type :=
| Dangling_citation (slug : string) (num : Z)
| Orphaned_entry (slug : string) (num : Z)
| Numbering_gap (slug : string) (num : Z)
| In_html_not_map (slug : string) (num : Z)
| In_map_not_html (slug : string) (num : Z)
| Missing_record (slug : string) (num : Z) (bib_key : string)
| Url_mismatch (slug : string) (num : Z) (html_url json_url : string)
| No_title (key : string)
| No_year (key : string)
| No_authors (key : string)
| No_url (key : string)
| More_without_url (n : nat)
| Unreferenced_record (key : string)
| No_display_name (key : string)
| Cross_chapter_no_title (bib_key : string) (locations : list (string * Z)).

(** Python's truth value of a JSON value, [None] for an absent field. *)
Definition json_truthy (o : option json) : bool :=
  match o with
  | None => false
  | Some JNull => false
  | Some (JBool b) => b
  | Some (JInt z) => negb (Z.eqb z 0)
  | Some (JStr s) => Py.nonempty s
  | Some (JArr l) => match l with [] => false | _ => true end
  | Some (JObj l) => match l with [] => false | _ => true end
  end.

(** The state of [run_audit]: the two message lists and the two sets of
    referenced keys, as the lists of what was added to them.  The set of
    author keys receives whatever the [authors] field of a record yields,
    so it holds JSON values. *)
Record audit_state : Type := {
  issues : list message;
  warnings : list message;
  referenced_bib_keys : list string;
  referenced_author_keys : list json
}.

Definition error (m : message) (st : audit_state) : audit_state :=
  {| issues := (issues st ++ [m])%list; warnings := warnings st;
     referenced_bib_keys := referenced_bib_keys st;
     referenced_author_keys := referenced_author_keys st |}.

Definition warn (m : message) (st : audit_state) : audit_state :=
  {| issues := issues st; warnings := (warnings st ++ [m])%list;
     referenced_bib_keys := referenced_bib_keys st;
     referenced_author_keys := referenced_author_keys st |}.

Definition add_bib_key (k : string) (st : audit_state) : audit_state :=
  {| issues := issues st; warnings := warnings st;
     referenced_bib_keys := k :: referenced_bib_keys st;
     referenced_author_keys := referenced_author_keys st |}.

Definition add_author_keys (ks : list json) (st : audit_state) : audit_state :=
  {| issues := issues st; warnings := warnings st;
     referenced_bib_keys := referenced_bib_keys st;
     referenced_author_keys := (ks ++ referenced_author_keys st)%list |}.

Definition errors_for (ms : list message) (st : audit_state) : audit_state :=
  fold_left (fun s m => error m s) ms st.

Definition warns_for (ms : list message) (st : audit_state) : audit_state :=
  fold_left (fun s m => warn m s) ms st.

(** [set(range(1, max(entry_nums) + 1)) - entry_nums], ascending. *)
Definition numbering_gaps (entry_nums : list Z) : list Z :=
  match entry_nums with
  | [] => []
  | n :: rest =>
      filter (fun k => negb (mem_Z k entry_nums))
             (map Z.of_nat (seq 1 (Z.to_nat (list_max n rest))))
  end.

(** [re.sub(r'^https?://(www\.)?', '', url).rstrip('/')] *)
Definition audit_url_norm (url : string) : string :=
  Py.rstrip_slash
    (Re.remove_prefix (Re.Cat scheme_re (Re.Opt (Re.Lit "www."))) url).

(** The strings of a list under a field of a record. *)
Definition json_str_list_field (f : string) (r : record) : list string :=
  match dict_get f r with
  | Some (JArr l) =>
      flat_map (fun j => match j with JStr s => [s] | _ => [] end) l
  | _ => []
  end.

(** A loop whose body can raise: the first exception ends it. *)
Fixpoint try_fold {A S : Type} (f : S -> A -> option S) (l : list A) (s : S)
  : option S :=
  match l with
  | [] => Some s
  | a :: l' =>
      match f s a with
      | Some s' => try_fold f l' s'
      | None => None
      end
  end.

(** [ref_json.get('url', '') or '']: the value of the field when it is
    true, the empty string otherwise. *)
Definition url_or_empty (ref_json : record) : json :=
  match dict_get "url" ref_json with
  | Some j => if json_truthy (Some j) then j else JStr EmptyString
  | None => JStr EmptyString
  end.

(** The URL comparison of check 6.  [re.sub] raises TypeError on a value
    that is no string; it is reached only when both URLs are true. *)
Definition check_url (slug : string) (num : Z) (html_url : string)
    (json_url : json) (st : audit_state) : option audit_state :=
  if Py.nonempty html_url && json_truthy (Some json_url) then
    match json_url with
    | JStr json_url =>
        let h := Py.lower (audit_url_norm html_url) in
        let j := Py.lower (audit_url_norm json_url) in
        Some (if negb (String.eqb h j)
                 && negb (Py.contains h j) && negb (Py.contains j h)
              then warn (Url_mismatch slug num (Py.take 60 html_url)
                                      (Py.take 60 json_url)) st
              else st)
    | _ => None
    end
  else Some st.

(** Whether Python can hash a JSON value: a list or a dict cannot be an
    element of a set. *)
Definition hashable (j : json) : bool :=
  match j with
  | JArr _ | JObj _ => false
  | _ => true
  end.

(** [for akey in ref_json.get('authors', []): keys.add(akey)]: the
    elements the loop adds.  It raises TypeError on a value that cannot be
    iterated (null, a boolean, a number) and on an element that cannot be
    hashed; a string is iterated by its characters, a dict by its keys. *)
Definition author_elements (ref_json : record) : option (list json) :=
  match dict_get "authors" ref_json with
  | None => Some []
  | Some (JStr s) =>
      Some (map (fun c => JStr (String c EmptyString)) (list_ascii_of_string s))
  | Some (JArr l) => if forallb hashable l then Some l else None
  | Some (JObj d) => Some (map (fun kv => JStr (fst kv)) d)
  | Some _ => None
  end.

(** Check 6, for one reference entry of the document; [None] when it
    raises TypeError. *)
Definition spot_check (slug : string) (p : parsed_chapter) (cm : chapter_nums)
    (references : dict string record) (st : audit_state) (num : Z)
  : option audit_state :=
  match dict_get num cm with
  | None => Some st
  | Some bib_key =>
      if Py.is_empty bib_key then Some st else
      match dict_get bib_key references with
      | None => Some st
      | Some ref_json =>
          let html_url := match dict_get num (ref_entry_data p) with
                          | Some d => ed_url d
                          | None => EmptyString
                          end in
          match check_url slug num html_url (url_or_empty ref_json) st with
          | None => None
          | Some st1 =>
              match author_elements ref_json with
              | None => None
              | Some akeys => Some (add_author_keys akeys st1)
              end
          end
      end
  end.

(** The body of the per-document loop of [run_audit]; [None] when a spot
    check raises. *)
Definition audit_chapter (chapter_map : dict string chapter_nums)
    (references : dict string record) (st : audit_state)
    (ch : string * parsed_chapter) : option audit_state :=
  let (slug, p) := ch in
  let cited_nums := map snd (citations p) in
  let entry_nums := ref_entries p in
  let cm := match dict_get slug chapter_map with Some m => m | None => [] end in
  let cm_nums := dict_keys cm in
  let st1 := errors_for (map (Dangling_citation slug)
                             (sorted_diff cited_nums entry_nums)) st in
  let st2 := warns_for (map (Orphaned_entry slug)
                            (sorted_diff entry_nums cited_nums)) st1 in
  let st3 := warns_for (map (Numbering_gap slug) (numbering_gaps entry_nums)) st2 in
  let st4 := errors_for (map (In_html_not_map slug)
                             (sorted_diff entry_nums cm_nums)) st3 in
  let st5 := errors_for (map (In_map_not_html slug)
                             (sorted_diff cm_nums entry_nums)) st4 in
  let st6 :=
    fold_left
      (fun s nk =>
         let s' := add_bib_key (snd nk) s in
         if dict_mem (snd nk) references then s'
         else error (Missing_record slug (fst nk) (snd nk)) s')
      cm st5 in
  try_fold (spot_check slug p cm references) (sorted_set entry_nums) st6.

(** Check 7: the quality of the records. *)
Definition audit_references (references : dict string record)
    (st : audit_state) : audit_state :=
  let missing (f : string) :=
    map fst (filter (fun kr => negb (json_truthy (dict_get f (snd kr)))) references) in
  let missing_url := missing "url" in
  let st1 := errors_for (map No_title (missing "title")) st in
  let st2 := warns_for (map No_year (missing "year")) st1 in
  let st3 := warns_for (map No_authors (missing "authors")) st2 in
  let st4 := warns_for (map No_url (firstn 10 missing_url)) st3 in
  if (10 <? List.length missing_url)%nat
  then warn (More_without_url (List.length missing_url - 10)) st4
  else st4.

(** Check 10: the references that occur in more than one place. *)
Definition key_locations (slugs : list string)
    (chapter_map : dict string chapter_nums) : dict string (list (string * Z)) :=
  fold_left
    (fun d slug =>
       let cm := match dict_get slug chapter_map with Some m => m | None => [] end in
       fold_left
         (fun d' nk =>
            let old := match dict_get (snd nk) d' with Some l => l | None => [] end in
            dict_set (snd nk) (old ++ [(slug, fst nk)])%list d')
         cm d)
    slugs [].

Definition audit_cross_chapter (slugs : list string)
    (chapter_map : dict string chapter_nums) (references : dict string record)
    (st : audit_state) : audit_state :=
  fold_left
    (fun s kl =>
       if (1 <? List.length (snd kl))%nat then
         let ref_json := match dict_get (fst kl) references with
                         | Some r => r
                         | None => []
                         end in
         if json_truthy (dict_get "title" ref_json) then s
         else warn (Cross_chapter_no_title (fst kl) (snd kl)) s
       else s)
    (key_locations slugs chapter_map) st.

(** [run_audit], on the parsed documents and the three stores: the state
    it ends with, [None] when it raises. *)
Definition run_audit (chapters : list (string * parsed_chapter))
    (chapter_map : dict string chapter_nums)
    (references authors : dict string record) : option audit_state :=
  let st0 := {| issues := []; warnings := [];
                referenced_bib_keys := []; referenced_author_keys := [] |} in
  match try_fold (audit_chapter chapter_map references) chapters st0 with
  | None => None
  | Some st1 =>
      let st2 := audit_references references st1 in
      let orphaned_refs :=
        sorted_set_str (filter (fun k => negb (str_in k (referenced_bib_keys st2)))
                               (dict_keys references)) in
      let st3 := warns_for (map Unreferenced_record orphaned_refs) st2 in
      let empty_display :=
        map fst (filter (fun kv => negb (json_truthy (dict_get "displayName" (snd kv))))
                        authors) in
      let st4 := errors_for (map No_display_name empty_display) st3 in
      Some (audit_cross_chapter (map fst chapters) chapter_map references st4)
  end.

(** What [run_audit] returns: the two counts. *)
Definition audit_counts (st : audit_state) : nat * nat :=
  (List.length (issues st), List.length (warnings st)).

(** The argument of [sys.exit] in the main block: [1 if errors else 0]. *)
Definition exit_status (counts : nat * nat) : Z :=
  if (fst counts =? 0)%nat then 0%Z else 1%Z.

(** The completion status of the program: the argument of [sys.exit]
    when [run_audit] returns, and 1 when it raises, the status with which
    the interpreter ends on an exception that nothing catches. *)
Definition program_status (run : option audit_state) : Z :=
  match run with
  | Some st => exit_status (audit_counts st)
  | None => 1%Z
  end.



(* --------------------------------------------------------------------- *)
(** ** dedup_refs.py                                                       *)
(* --------------------------------------------------------------------- *)

(** The first loop of [build_redirect_map]: the numbers of each key, in
    the order of the chapter map. *)
Definition key_to_nums (chapter_map_entry : chapter_nums) : dict string (list Z) :=
  fold_left
    (fun d nk =>
       let old := match dict_get (snd nk) d with Some l => l | None => [] end in
       dict_set (snd nk) (old ++ [fst nk])%list d)
    chapter_map_entry [].

(** [entries_to_remove.add(num)] *)
Definition set_add (n : Z) (s : list Z) : list Z :=
  if mem_Z n s then s else (s ++ [n])%list.

(** The body of [for num in nums] for a key that occurs more than once. *)
Definition redirect_num (canonical : Z) (acc : dict Z Z * list Z) (num : Z)
  : dict Z Z * list Z :=
  if negb (Z.eqb num canonical)
  then (dict_set num canonical (fst acc), set_add num (snd acc))
  else acc.

(** The body of [for bib_key, nums in key_to_nums.items()]. *)
Definition redirect_group (acc : dict Z Z * list Z) (kn : string * list Z)
  : dict Z Z * list Z :=
  match snd kn with
  | n0 :: (_ :: _) as rest =>
      fold_left (redirect_num (list_min n0 rest)) (snd kn) acc
  | _ => acc
  end.

(** The redirects and the set of entries to remove. *)
Definition build_redirect_map (chapter_map_entry : chapter_nums)
  : dict Z Z * list Z :=
  fold_left redirect_group (key_to_nums chapter_map_entry) ([], []).

(** [enumerate(l, start)] with the pairs turned round: old to new. *)
Fixpoint number_from (start : Z) (l : list Z) : dict Z Z :=
  match l with
  | [] => []
  | old :: l' => (old, start) :: number_from (start + 1)%Z l'
  end.

Definition build_renumber_map (all_nums entries_to_remove : list Z) : dict Z Z :=
  number_from 1 (sorted_diff all_nums entries_to_remove).

(** The final number of one original number; [None] is the [KeyError] of
    [renumber[...]]. *)
Definition final_number (redirects renumber : dict Z Z) (old_num : Z) : option Z :=
  match dict_get old_num redirects with
  | Some canonical => dict_get canonical renumber
  | None => dict_get old_num renumber
  end.

(** The loop that fills [final_map]. *)
Fixpoint build_final_map (redirects renumber : dict Z Z) (all_nums : list Z)
    (final_map : dict Z Z) : option (dict Z Z) :=
  match all_nums with
  | [] => Some final_map
  | old_num :: rest =>
      match final_number redirects renumber old_num with
      | Some new => build_final_map redirects renumber rest
                      (dict_set old_num new final_map)
      | None => None
      end
  end.

(** [href="#ref-(\d+)"] and [id="ref-(\d+)"] *)
Definition cite_attr_re : Re.regex :=
  Re.Cat (Re.Lit ("href=" ++ String dquote "#ref-"))
         (Re.Cat (Re.Grp (Re.Plus Re.digit)) (Re.Lit (String dquote EmptyString))).

Definition id_attr_re : Re.regex :=
  Re.Cat (Re.Lit ("id=" ++ String dquote "ref-"))
         (Re.Cat (Re.Grp (Re.Plus Re.digit)) (Re.Lit (String dquote EmptyString))).

(** The attributes the two functions write. *)
Definition cite_attr (n : Z) : string :=
  "href=" ++ String dquote ("#ref-" ++ Py.str_of_Z n ++ String dquote EmptyString).

Definition id_attr (n : Z) : string :=
  "id=" ++ String dquote ("ref-" ++ Py.str_of_Z n ++ String dquote EmptyString).

(** [replace_citation], on [m.group(0)] and [m.group(1)]; [None] is the
    [ValueError] of [int]. *)
Definition replace_citation (final_map : dict Z Z) (m0 : string)
    (g : option string) : option string :=
  match Py.int_of_str (group1 g) with
  | None => None
  | Some old_num =>
      match dict_get old_num final_map with
      | Some new => Some (cite_attr new)
      | None => Some m0
      end
  end.

Definition remove_marker : string := "__REMOVE__".

(** [replace_li_id]: the entry of a removed number is marked, that of a
    renumbered one gets its new number. *)
Definition replace_li_id (entries_to_remove : list Z) (renumber : dict Z Z)
    (m0 : string) (g : option string) : option string :=
  match Py.int_of_str (group1 g) with
  | None => None
  | Some old_num =>
      if mem_Z old_num entries_to_remove then Some (remove_marker ++ m0)
      else match dict_get old_num renumber with
           | Some new => Some (id_attr new)
           | None => Some m0
           end
  end.

(** The pattern of a marked entry: white space, the opening tag with the
    marked id first, other attributes, the content up to the first
    closing tag (with [re.DOTALL]); and the fallback pattern, which does
    not ask for the end of the opening tag. *)
Definition marked_tag : string :=
  "<li __REMOVE__id=" ++ String dquote "ref-".

Definition remove_re : Re.regex :=
  Re.Cat (Re.Star Re.space)
    (Re.Cat (Re.Lit marked_tag)
       (Re.Cat (Re.Plus Re.digit)
          (Re.Cat (Re.Lit (String dquote EmptyString))
             (Re.Cat (Re.Star (Re.not_in ">"))
                (Re.Cat (Re.Lit ">")
                   (Re.Cat (Re.Lazy Re.any) (Re.Lit "</li>"))))))).

Definition remove_fallback_re : Re.regex :=
  Re.Cat (Re.Opt (Re.Chr (Py.is_char "010")))
    (Re.Cat (Re.Star Re.space)
       (Re.Cat (Re.Lit marked_tag)
          (Re.Cat (Re.Plus Re.digit)
             (Re.Cat (Re.Lit (String dquote EmptyString))
                (Re.Cat (Re.Lazy Re.any) (Re.Lit "</li>")))))).

(** One round of the loop that removes the marked entries: the first
    pattern, else the fallback, else the first marker is taken out and
    its entry stays. *)
Definition remove_step (html : string) : string :=
  let new_html := Re.remove_once remove_re html in
  let new_html :=
    if String.eqb new_html html
    then Re.remove_once remove_fallback_re html
    else new_html in
  if String.eqb new_html html
  then Py.replace_first remove_marker EmptyString html
  else new_html.

(** [while '__REMOVE__' in html] *)
Fixpoint remove_marked (fuel : nat) (html : string) : string :=
  match fuel with
  | O => html
  | S fuel' =>
      if Py.contains remove_marker html
      then remove_marked fuel' (remove_step html)
      else html
  end.

(** What [process_chapter] computes before it rewrites the markup. *)
Record dedup_plan : Type := {
  plan_redirects : dict Z Z;
  plan_removed : list Z;
  plan_renumber : dict Z Z;
  plan_final : dict Z Z
}.

Definition make_plan (chapter_map_entry : chapter_nums) : option dedup_plan :=
  let (redirects, entries_to_remove) := build_redirect_map chapter_map_entry in
  let all_nums := dict_keys chapter_map_entry in
  let renumber := build_renumber_map all_nums entries_to_remove in
  match build_final_map redirects renumber all_nums [] with
  | Some final_map =>
      Some {| plan_redirects := redirects; plan_removed := entries_to_remove;
              plan_renumber := renumber; plan_final := final_map |}
  | None => None
  end.

(** [any(old != new for old, new in renumber.items())] *)
Definition needs_renumber (renumber : dict Z Z) : bool :=
  existsb (fun on => negb (Z.eqb (fst on) (snd on))) renumber.

(** [process_chapter], on the text of the document: whether the document
    changed, and the text written back; [None] is a [KeyError] or a
    [ValueError]. *)
Definition process_chapter (chapter_map_entry : chapter_nums) (html : string)
  : option (bool * string) :=
  let (redirects, entries_to_remove) := build_redirect_map chapter_map_entry in
  let all_nums := dict_keys chapter_map_entry in
  if match entries_to_remove with [] => true | _ => false end
     && negb (needs_renumber (build_renumber_map all_nums []))
  then Some (false, html)
  else
    match make_plan chapter_map_entry with
    | None => None
    | Some plan =>
        match Re.sub_fn cite_attr_re (replace_citation (plan_final plan)) html with
        | None => None
        | Some html1 =>
            match Re.sub_fn id_attr_re
                    (replace_li_id (plan_removed plan) (plan_renumber plan))
                    html1 with
            | None => None
            | Some html2 =>
                Some (true, remove_marked (String.length html2) html2)
            end
        end
    end.

(* --------------------------------------------------------------------- *)
(** ** Vocabulary of the statements about the loops with fuel              *)
(* --------------------------------------------------------------------- *)

(** A pattern that cannot match the empty string. *)
Fixpoint consumes (r : Re.regex) : bool :=
  match r with
  | Re.Eps => false
  | Re.Chr _ => true
  | Re.Cat a b => consumes a || consumes b
  | Re.Alt a b => consumes a && consumes b
  | Re.Star _ => false
  | Re.Grp a => consumes a
  | Re.Eol => false
  | Re.Lazy _ => false
  end.

(** [s'] is what is left of [s] after some prefix. *)
Definition suffix_of (s' s : string) : Prop := exists p, s = p ++ s'.

(* --------------------------------------------------------------------- *)
(** ** Concrete inputs used in the statements below                        *)
(* --------------------------------------------------------------------- *)

(** A bibliography with one arXiv record, and reference entries that cite
    it by the abstract URL with a version suffix and by the PDF URL. *)
Definition arxiv_bib : dict string bib_entry :=
  parse_bibtex
    "@article{doe2023scaling, title={Scaling laws}, author={Doe, Jane}, year={2023}, url={https://arxiv.org/abs/2301.00001}}".

Definition arxiv_ref (url : string) : html_ref :=
  {| ref_num := 1; ref_authors_raw := EmptyString; ref_title := EmptyString;
     ref_venue := EmptyString; ref_url := url; ref_year := None;
     ref_all_text := EmptyString |}.

(** A reference entry with no URL and no year. *)
Definition yearless_ref : html_ref :=
  {| ref_num := 4; ref_authors_raw := "Smith, J."; ref_title := "The Foo of Bar";
     ref_venue := EmptyString; ref_url := EmptyString; ref_year := None;
     ref_all_text := "Smith, J. The Foo of Bar." |}.

(** The same entry with the year resolved. *)
Definition dated_ref : html_ref :=
  {| ref_num := 4; ref_authors_raw := "Smith, J."; ref_title := "The Foo of Bar";
     ref_venue := EmptyString; ref_url := EmptyString; ref_year := Some 2020%Z;
     ref_all_text := "Smith, J. (2020). The Foo of Bar." |}.

(** A bibliography whose first entry lacks the comma after its key. *)
Definition broken_bib_text : string :=
  "@article{broken title={A}} @book{good2020, title={B}, year=2020}".

(** A bibliography whose last opening is followed by no comma at all. *)
Definition truncated_bib_text : string :=
  "@book{first2019, title={A}} @article{broken title={C}}".

(** Two audited sites that differ in one citation: in the first, entry 2
    of the reference list is never cited. *)
Definition audit_record : record :=
  [("title", JStr "T"); ("authors", JArr [JStr "doe_jane"]);
   ("year", JInt 2020); ("url", JStr "http://example.org/t")].

Definition audit_map : dict string chapter_nums :=
  [("index", [(1%Z, "k1"); (2%Z, "k2")])].


Definition audit_authors_store : dict string record :=
  [("doe_jane", [("displayName", JStr "Jane Doe")])].


Definition clean_site : list (string * parsed_chapter) :=
  [("index", {| citations := [(10%nat, 1%Z); (11%nat, 2%Z)];
                ref_entries := [1%Z; 2%Z]; ref_entry_data := [] |})].

(** A references store in which the authors of a record are null. *)
Definition null_authors_store : dict string record :=
  [("k1", audit_record);
   ("k2", [("title", JStr "T"); ("authors", JNull); ("year", JInt 2020);
           ("url", JStr "http://example.org/t")])].

(* --------------------------------------------------------------------- *)
(** ** Vocabulary of the statements about the fuzzy stage                  *)
(* --------------------------------------------------------------------- *)

(** The (candidate, record title, record key) triples of the fuzzy stage
    in the order the two nested loops visit them: candidates outside,
    records inside; a candidate that normalizes to nothing is skipped. *)
Definition fuzzy_pairs (idx : indices) (ref : html_ref)
  : list (string * string * string) :=
  flat_map
    (fun ref_title =>
       let ref_norm := normalize_title ref_title in
       if Py.is_empty ref_norm then []
       else map (fun rec => (ref_norm, fst rec, snd rec)) (title_index idx))
    (fuzzy_candidates ref).

(** The fields of a reference entry that give the candidates of the
    fuzzy stage, as the specification lists them: the declared title, the
    venue text, the raw author text and the full fallback text, in this
    order; an empty field gives no candidate. *)
Definition candidate_fields (ref : html_ref) : list string :=
  filter Py.nonempty
    [ref_title ref; ref_venue ref; ref_authors_raw ref; ref_all_text ref].

(** The triples these fields give against the title index: every field
    whose normalized text is not empty, against every record in the order
    of the index. *)
Definition candidate_pairs (idx : indices) (ref : html_ref)
  : list (string * string * string) :=
  flat_map
    (fun field =>
       map (fun rec => (normalize_title field, fst rec, snd rec)) (title_index idx))
    (filter (fun field => Py.nonempty (normalize_title field))
            (candidate_fields ref)).

Definition triple_score (ratio : string -> string -> Q)
    (p : string * string * string) : Q :=
  pair_score ratio (fst (fst p)) (snd (fst p)).

Definition triple_key (p : string * string * string) : string := snd p.

(** The running best of a loop that replaces it on a strictly greater
    score only. *)
Definition best_step (best : Q * option string) (sk : Q * string)
  : Q * option string :=
  if Qltb (fst best) (fst sk) then (fst sk, Some (snd sk)) else best.

(* --------------------------------------------------------------------- *)
(** ** Vocabulary of the statements about dedup_refs.py                    *)
(* --------------------------------------------------------------------- *)

(** The local numbers a chapter map sends to a key, in map order. *)
Definition nums_of_key (k : string) (cm : chapter_nums) : list Z :=
  map fst (filter (fun nk => String.eqb (snd nk) k) cm).

(** [len(nums) > 1] *)
Definition multi (nums : list Z) : bool :=
  match nums with _ :: _ :: _ => true | _ => false end.

(** [min(nums)] of a non-empty list. *)
Definition lmin (nums : list Z) : Z :=
  match nums with n0 :: rest => list_min n0 rest | [] => 0%Z end.

(** The number a local number is redirected to, if any: the least number
    of its key, when the key has several numbers and this is not the
    least. *)
Definition canonical_of (cm : chapter_nums) (keys : list string) (n : Z)
  : option Z :=
  match dict_get n cm with
  | Some k =>
      if str_in k keys && multi (nums_of_key k cm)
         && negb (Z.eqb n (lmin (nums_of_key k cm)))
      then Some (lmin (nums_of_key k cm))
      else None
  | None => None
  end.

Definition is_some {A : Type} (o : option A) : bool :=
  match o with Some _ => true | None => false end.

(** A chapter map with gaps in which the numbers 3 and 7 cite the same
    work. *)
Definition dup_map : chapter_nums :=
  [(1%Z, "jones2019bar"); (3%Z, "smith2020foo"); (5%Z, "lee2021baz");
   (7%Z, "smith2020foo"); (9%Z, "kim2022qux")].

(** The line feed. *)
Definition nl : string := String "010" EmptyString.

(** A citation link with its target and its label, and a reference entry
    with its number and its content, as the pages write them. *)
Definition cite_link (target label : Z) : string :=
  "<a " ++ cite_attr target ++ ">[" ++ Py.str_of_Z label ++ "]</a>".

Definition ref_entry (n : Z) (body : string) : string :=
  nl ++ "  <li " ++ id_attr n ++ ">" ++ body ++ "</li>".


(** A document that cites the numbers 7, 3 and 9 of the map above and
    lists its five entries, and the document expected after the
    rewrite. *)
Definition dup_html : string :=
  "<p>See " ++ cite_link 7 7 ++ ", " ++ cite_link 3 3 ++ " and "
  ++ cite_link 9 9 ++ ".</p>" ++ nl ++ "<ol>"
  ++ ref_entry 1 "Jones" ++ ref_entry 3 "Smith" ++ ref_entry 5 "Lee"
  ++ ref_entry 7 "Smith" ++ ref_entry 9 "Kim" ++ nl ++ "</ol>".







(* --------------------------------------------------------------------- *)
(** ** Vocabulary of the statements about the builder                      *)
(* --------------------------------------------------------------------- *)

(** The fields of a record that the builder computes. *)
Definition authoritative_fields : list string :=
  ["title"; "authors"; "year"; "venue"; "venueShort"; "url"; "doi"; "type"].

(** The key under which the builder files a reference entry of a
    document: what the matcher returns for it, or the synthetic key. *)
Definition ref_key (ratio : string -> string -> Q)
    (bib_entries : dict string bib_entry) (slug : string) (ref : html_ref)
  : string :=
  let r := match_ref ratio bib_entries (build_indices bib_entries) ref in
  assigned_key slug (ref, fst r, snd r).

(** All keys an index refers to satisfy [P]. *)
Definition index_keys_in (P : string -> Prop) (idx : indices) : Prop :=
  (forall v, In v (dict_values (url_to_key idx)) -> P v)
  /\ (forall v, In v (dict_values (arxiv_to_key idx)) -> P v)
  /\ (forall tv, In tv (title_index idx) -> P (snd tv)).

(** [prior.get(key, {})] *)
Definition prior_record (k : string) (existing : dict string record) : record :=
  match dict_get k existing with Some r => r | None => [] end.

(** The chapter maps only hold keys of collected entries. *)
Definition maps_total (c : collected) : Prop :=
  forall cmap v,
    In cmap (dict_values (chapter_map c)) -> In v (dict_values cmap) ->
    In v (dict_keys (all_matches c)).

(** The (first, last) pairs of all collected entries, in the order the
    builder visits them. *)
Definition all_authors (c : collected) : list (string * string) :=
  flat_map (fun ke => parse_bib_authors (get_str "author" (snd ke)))
           (all_matches c).

(** The record the builder writes for a collected entry. *)
Definition built_record (c : collected) (existing : dict string record)
    (ke : string * bib_entry) : record :=
  merge_record (core_fields (html_urls c) (fst ke) (snd ke))
               (prior_record (fst ke) existing).

(** The record stored for a new author key. *)
Definition author_record (existing : dict string record) (fl : string * string)
  : record :=
  match dict_get (make_author_key (fst fl) (snd fl)) existing with
  | Some r => dict_set "displayName" (JStr (make_display_name (fst fl) (snd fl))) r
  | None =>
      [("displayName", JStr (make_display_name (fst fl) (snd fl)));
       ("affiliation", JNull); ("headshot", JNull); ("links", JObj [])]
  end.

(** A bibliography whose record has an author name without a letter or
    digit, and a document that cites it by its URL. *)
Definition anon_bib_text : string :=
  "@article{anon2021, title={Field notes}, author={Roe, Ann and ???}, year={2021}, url={https://example.org/notes}}".

Definition anon_ref : html_ref :=
  {| ref_num := 1; ref_authors_raw := EmptyString; ref_title := "Field notes";
     ref_venue := EmptyString; ref_url := "https://example.org/notes";
     ref_year := Some 2021%Z; ref_all_text := "Field notes. 2021." |}.

(** A similarity function for closed examples in which the matcher never
    calls it. *)
Definition no_similarity (a b : string) : Q := 0%Q.

(** A prior references store whose records carry a screenshot, one of
    them a further enrichment field, one of them no longer cited. *)
Definition prior_with_screenshot : dict string record :=
  [("smithNonefoo",
    [("title", JStr "Old title"); ("screenshot", JStr "shots/smith.png");
     ("note", JStr "checked")]);
   ("gone1999", [("title", JStr "No longer cited");
                 ("screenshot", JStr "shots/gone.png")])].

(* --------------------------------------------------------------------- *)
(** ** Vocabulary of the further statements about build_ref_db.py          *)
(* --------------------------------------------------------------------- *)

(** The values [classify_bib_type] can return. *)
Definition type_vocabulary : list string :=
  ["journal"; "conference"; "book"; "book-chapter"; "thesis"; "report";
   "misc"; "preprint"].


(** Whether every character of a text passes a test. *)
Fixpoint all_chars (p : ascii -> bool) (s : string) : bool :=
  match s with
  | EmptyString => true
  | String c s' => p c && all_chars p s'
  end.

(** The characters of a text that pass a test, in their order. *)
Fixpoint keep_chars (p : ascii -> bool) (s : string) : string :=
  match s with
  | EmptyString => EmptyString
  | String c s' => if p c then String c (keep_chars p s') else keep_chars p s'
  end.

(** The last character of a text. *)
Fixpoint last_char (s : string) : option ascii :=
  match s with
  | EmptyString => None
  | String c EmptyString => Some c
  | String _ s' => last_char s'
  end.

(** The characters of an author key: a to z, 0 to 9 and the underscore. *)
Definition is_key_char (c : ascii) : bool :=
  Py.is_lower c || Py.is_digit c || Ascii.eqb c "_".

(** The spellings of one address that [normalize_url] is meant to
    identify: what may stand before the address and after it. *)
Definition url_prefixes : list string :=
  [EmptyString; "www."; "http://"; "https://"; "http://www."; "https://www."].

Definition url_suffixes : list string := [EmptyString; "/"].

(** A word as [str.split] returns it: not empty and without white space. *)
Definition is_token (w : string) : bool :=
  Py.nonempty w && all_chars (fun c => negb (Py.is_space c)) w.

(** The characters of a normalized title: no upper-case letter, and
    nothing but word characters and white space. *)
Definition is_title_char (c : ascii) : bool :=
  negb (Py.is_upper c) && (Py.is_word c || Py.is_space c).


(** Whether the braces of a text are matched, when read inside [d] open
    braces: no closing brace comes without its opening brace, and none
    is left open at the end. *)
Fixpoint balanced (s : string) (d : nat) : bool :=
  match s with
  | EmptyString => Nat.eqb d 0
  | String c s' =>
      if Ascii.eqb c "{" then balanced s' (S d)
      else if Ascii.eqb c "}" then
        match d with
        | O => false
        | S d' => balanced s' d'
        end
      else balanced s' d
  end.

(** A field as the parser stores it: the name has no upper-case letter
    and the value no white space at either end. *)
Definition stored_field (f v : string) : Prop :=
  Py.lower f = f /\ Py.strip v = v.

(** A bibliography of one record whose title has nested braces. *)
Definition nested_bib_text : string :=
  "@Article{smith2020, Title = {The {B}ook of {W}hy}, year = 2020}".

(** The characters of a value written without braces or quotes,
    [[^\s,}]]. *)
Definition is_bare_char (c : ascii) : bool :=
  negb (Py.is_space c || Py.char_in ",}" c).


(* --------------------------------------------------------------------- *)
(** ** Vocabulary of the further statements about audit_refs.py            *)
(* --------------------------------------------------------------------- *)

(** The chapter map of one document, [chapter_map.get(slug, {})]. *)
Definition map_of (chapter_map : dict string chapter_nums) (slug : string)
  : chapter_nums :=
  match dict_get slug chapter_map with Some m => m | None => [] end.

(** The errors of one document, in the order the audit reports them. *)
Definition chapter_errors (chapter_map : dict string chapter_nums)
    (references : dict string record) (ch : string * parsed_chapter)
  : list message :=
  let cm := map_of chapter_map (fst ch) in
  (map (Dangling_citation (fst ch))
       (sorted_diff (map snd (citations (snd ch))) (ref_entries (snd ch)))
   ++ map (In_html_not_map (fst ch))
          (sorted_diff (ref_entries (snd ch)) (dict_keys cm))
   ++ map (In_map_not_html (fst ch))
          (sorted_diff (dict_keys cm) (ref_entries (snd ch)))
   ++ map (fun nk => Missing_record (fst ch) (fst nk) (snd nk))
          (filter (fun nk => negb (dict_mem (snd nk) references)) cm))%list.

(** The record the spot check of an entry reads: the record of the key
    the chapter map gives the number of the entry, when the key is not
    empty and the store has it. *)
Definition checked_record (cm : chapter_nums) (references : dict string record)
    (num : Z) : option record :=
  match dict_get num cm with
  | Some bib_key =>
      if Py.is_empty bib_key then None else dict_get bib_key references
  | None => None
  end.

(** The link the extractor found in an entry, empty when it found none. *)
Definition html_url_of (p : parsed_chapter) (num : Z) : string :=
  match dict_get num (ref_entry_data p) with
  | Some d => ed_url d
  | None => EmptyString
  end.

(** The URL warning of an entry: its link and the URL of its record are
    both non-empty texts that, without scheme, leading [www.] and trailing
    slashes and in lower case, differ and do not contain one another. *)
Definition url_warning (slug : string) (p : parsed_chapter) (cm : chapter_nums)
    (references : dict string record) (num : Z) : list message :=
  match checked_record cm references num with
  | Some r =>
      match dict_get "url" r with
      | Some (JStr json_url) =>
          let h := Py.lower (audit_url_norm (html_url_of p num)) in
          let j := Py.lower (audit_url_norm json_url) in
          if Py.nonempty (html_url_of p num) && Py.nonempty json_url
             && negb (String.eqb h j)
             && negb (Py.contains h j) && negb (Py.contains j h)
          then [Url_mismatch slug num (Py.take 60 (html_url_of p num))
                             (Py.take 60 json_url)]
          else []
      | _ => []
      end
  | None => []
  end.

(** The warnings of one document, in the order the audit reports them:
    the entries never cited, the gaps in the numbering, the URL
    mismatches, each by ascending number. *)
Definition chapter_warnings (chapter_map : dict string chapter_nums)
    (references : dict string record) (ch : string * parsed_chapter)
  : list message :=
  let cm := map_of chapter_map (fst ch) in
  (map (Orphaned_entry (fst ch))
       (sorted_diff (ref_entries (snd ch)) (map snd (citations (snd ch))))
   ++ map (Numbering_gap (fst ch)) (numbering_gaps (ref_entries (snd ch)))
   ++ flat_map (url_warning (fst ch) (snd ch) cm references)
               (sorted_set (ref_entries (snd ch))))%list.

(** The spot check of an entry can be made: when the entry has a link,
    the URL of its record is absent, a string or a false value; and the
    authors of its record are absent, a string, a dict, or a list of
    values that can be hashed. *)
Definition spot_checkable (p : parsed_chapter) (cm : chapter_nums)
    (references : dict string record) (num : Z) : bool :=
  match checked_record cm references num with
  | None => true
  | Some r =>
      (Py.is_empty (html_url_of p num)
       || match dict_get "url" r with
          | None | Some (JStr _) => true
          | Some j => negb (json_truthy (Some j))
          end)
      && match dict_get "authors" r with
         | None | Some (JStr _) | Some (JObj _) => true
         | Some (JArr l) => forallb hashable l
         | Some _ => false
         end
  end.

(** Every spot check of every document can be made. *)
Definition audit_completes (chapters : list (string * parsed_chapter))
    (chapter_map : dict string chapter_nums)
    (references : dict string record) : Prop :=
  forall ch num,
    In ch chapters -> In num (ref_entries (snd ch)) ->
    spot_checkable (snd ch) (map_of chapter_map (fst ch)) references num = true.

(** The keys of the records of a store in which a field is absent or
    false. *)
Definition keys_without (f : string) (store : dict string record) : list string :=
  map fst (filter (fun kr => negb (json_truthy (dict_get f (snd kr)))) store).

(** The referenced keys after the documents: the values of their chapter
    maps. *)
Definition mapped_keys (chapter_map : dict string chapter_nums)
    (chapters : list (string * parsed_chapter)) : list string :=
  flat_map (fun ch => dict_values (map_of chapter_map (fst ch))) chapters.

(** The warnings about the records: no year, no authors, the first ten
    without a URL, and the number of the others without a URL. *)
Definition store_warnings (references : dict string record) : list message :=
  (map No_year (keys_without "year" references)
   ++ map No_authors (keys_without "authors" references)
   ++ map No_url (firstn 10 (keys_without "url" references))
   ++ (if (10 <? List.length (keys_without "url" references))%nat
       then [More_without_url (List.length (keys_without "url" references) - 10)]
       else []))%list.

(** The keys of the references store that no chapter map of an audited
    document has as a value, ascending and without repetition. *)
Definition unreferenced_keys (chapters : list (string * parsed_chapter))
    (chapter_map : dict string chapter_nums)
    (references : dict string record) : list string :=
  sorted_set_str
    (filter
       (fun k =>
          negb (existsb
                  (fun ch => str_in k (dict_values (map_of chapter_map (fst ch))))
                  chapters))
       (dict_keys references)).

(** The warnings about the keys that occur in more than one place and
    whose record has no title, in the order the keys first occur. *)
Definition cross_chapter_warnings (slugs : list string)
    (chapter_map : dict string chapter_nums)
    (references : dict string record) : list message :=
  flat_map
    (fun kl =>
       if (1 <? List.length (snd kl))%nat
          && negb (json_truthy
                     (dict_get "title"
                        (match dict_get (fst kl) references with
                         | Some r => r
                         | None => []
                         end)))
       then [Cross_chapter_no_title (fst kl) (snd kl)]
       else [])
    (key_locations slugs chapter_map).



(* --------------------------------------------------------------------- *)
(** ** Vocabulary of the further statements about dedup_refs.py            *)
(* --------------------------------------------------------------------- *)

(** The entries that survive the deduplication of a chapter map, in
    ascending order. *)
Definition kept_entries (cm : chapter_nums) : list Z :=
  sorted_diff (dict_keys cm) (snd (build_redirect_map cm)).





(** The plan [process_chapter] computes, with a given final map. *)
Definition plan_with (cm : chapter_nums) (final_map : dict Z Z) : dedup_plan :=
  {| plan_redirects := fst (build_redirect_map cm);
     plan_removed := snd (build_redirect_map cm);
     plan_renumber := build_renumber_map (dict_keys cm)
                        (snd (build_redirect_map cm));
     plan_final := final_map |}.


(* --------------------------------------------------------------------- *)
(** ** audit_refs.py: the citation extractor                               *)
(* --------------------------------------------------------------------- *)

(** What [HTMLParser.feed] hands to the handlers of a subclass: start
    tags with the line they stand on and their attributes (an attribute
    without a value has the value [None]), end tags, and text. *)
Inductive html_event : Type :=
| Start_tag (line : nat) (tag : string) (attrs : list (string * option string))
| End_tag (tag : string)
| Text (data : string).

(** The state of a [CitationExtractor]. *)
Record extractor : Type := {
  x_citations : list (nat * Z);
  x_ref_entries : list Z;
  x_ref_entry_data : dict Z entry_data;
  x_in_ref_section : bool;
  x_in_ol : bool;
  x_current_ref : option (Z * entry_data);
  x_current_span : option string;
  x_text_buf : list string;
  x_section_depth : Z
}.

Definition new_extractor : extractor :=
  {| x_citations := []; x_ref_entries := []; x_ref_entry_data := [];
     x_in_ref_section := false; x_in_ol := false; x_current_ref := None;
     x_current_span := None; x_text_buf := []; x_section_depth := 0 |}.

(** [dict(attrs)]: a later attribute of the same name wins. *)
Definition attrs_dict (attrs : list (string * option string))
  : dict string (option string) :=
  fold_left (fun d kv => dict_set (fst kv) (snd kv) d) attrs [].

(** [attrs_dict.get(name, '')]; the result [None] is Python's [None]. *)
Definition attr_get (name : string) (ad : dict string (option string))
  : option string :=
  match dict_get name ad with
  | Some v => v
  | None => Some EmptyString
  end.

(** [#ref-(\d+)] and [ref-(\d+)] *)
Definition cite_re : Re.regex :=
  Re.Cat (Re.Lit "#ref-") (Re.Grp (Re.Plus Re.digit)).

Definition entry_id_re : Re.regex :=
  Re.Cat (Re.Lit "ref-") (Re.Grp (Re.Plus Re.digit)).

(** The citation a start tag adds, if any; the outer [None] is the
    [TypeError] of [re.match] on [None] or the [ValueError] of [int]. *)
Definition citation_of (line : nat) (tag : string)
    (ad : dict string (option string)) : option (list (nat * Z)) :=
  if String.eqb tag "a" then
    match attr_get "href" ad with
    | None => None
    | Some href =>
        match Re.rmatch cite_re href with
        | Some (_, g) =>
            match Py.int_of_str (group1 g) with
            | Some num => Some [(line, num)]
            | None => None
            end
        | None => Some []
        end
    end
  else Some [].

Definition add_citations (cs : list (nat * Z)) (x : extractor) : extractor :=
  {| x_citations := (x_citations x ++ cs)%list;
     x_ref_entries := x_ref_entries x;
     x_ref_entry_data := x_ref_entry_data x;
     x_in_ref_section := x_in_ref_section x; x_in_ol := x_in_ol x;
     x_current_ref := x_current_ref x; x_current_span := x_current_span x;
     x_text_buf := x_text_buf x; x_section_depth := x_section_depth x |}.

Definition set_section (inside ol : bool) (depth : Z) (x : extractor) : extractor :=
  {| x_citations := x_citations x;
     x_ref_entries := x_ref_entries x;
     x_ref_entry_data := x_ref_entry_data x;
     x_in_ref_section := inside; x_in_ol := ol;
     x_current_ref := x_current_ref x; x_current_span := x_current_span x;
     x_text_buf := x_text_buf x; x_section_depth := depth |}.

Definition open_entry (num : Z) (x : extractor) : extractor :=
  {| x_citations := x_citations x;
     x_ref_entries := (x_ref_entries x ++ [num])%list;
     x_ref_entry_data := x_ref_entry_data x;
     x_in_ref_section := x_in_ref_section x; x_in_ol := x_in_ol x;
     x_current_ref :=
       Some (num, {| ed_authors := EmptyString; ed_title := EmptyString;
                     ed_venue := EmptyString; ed_url := EmptyString |});
     x_current_span := x_current_span x;
     x_text_buf := x_text_buf x; x_section_depth := x_section_depth x |}.

Definition set_current (cur : option (Z * entry_data)) (span : option string)
    (buf : list string) (x : extractor) : extractor :=
  {| x_citations := x_citations x;
     x_ref_entries := x_ref_entries x;
     x_ref_entry_data := x_ref_entry_data x;
     x_in_ref_section := x_in_ref_section x; x_in_ol := x_in_ol x;
     x_current_ref := cur; x_current_span := span;
     x_text_buf := buf; x_section_depth := x_section_depth x |}.

Definition close_entry (x : extractor) : extractor :=
  match x_current_ref x with
  | Some (num, d) =>
      {| x_citations := x_citations x;
         x_ref_entries := x_ref_entries x;
         x_ref_entry_data := dict_set num d (x_ref_entry_data x);
         x_in_ref_section := x_in_ref_section x; x_in_ol := x_in_ol x;
         x_current_ref := None; x_current_span := x_current_span x;
         x_text_buf := x_text_buf x; x_section_depth := x_section_depth x |}
  | None => x
  end.

(** The part of [handle_starttag] after the citation: the section, the
    list, the entry, and the spans and the link of the current entry. *)
Definition track_entry (tag : string) (ad : dict string (option string))
    (x : extractor) : option extractor :=
  let x1 := if String.eqb tag "ol" && negb (x_in_ol x)
            then set_section (x_in_ref_section x) true (x_section_depth x) x
            else x in
  let x2 :=
    if String.eqb tag "li" && x_in_ol x1 then
      match attr_get "id" ad with
      | None => None
      | Some ref_id =>
          match Re.rmatch entry_id_re ref_id with
          | Some (_, g) =>
              match Py.int_of_str (group1 g) with
              | Some num => Some (open_entry num x1)
              | None => None
              end
          | None => Some x1
          end
      end
    else Some x1 in
  match x2 with
  | None => None
  | Some x2 =>
      match x_current_ref x2 with
      | None => Some x2
      | Some (num, d) =>
          let x3 :=
            if String.eqb tag "span" then
              match attr_get "class" ad with
              | Some cls =>
                  if str_in cls ["authors"; "title"; "venue"]
                  then set_current (x_current_ref x2) (Some cls) [] x2
                  else x2
              | None => x2
              end
            else x2 in
          if String.eqb tag "a" then
            match attr_get "href" ad with
            | Some href =>
                if Py.nonempty href && Py.starts_with "http" href
                   && Py.is_empty (ed_url d)
                then Some (set_current
                             (Some (num, {| ed_authors := ed_authors d;
                                            ed_title := ed_title d;
                                            ed_venue := ed_venue d;
                                            ed_url := href |}))
                             (x_current_span x3) (x_text_buf x3) x3)
                else Some x3
            | None => Some x3
            end
          else Some x3
      end
  end.

(** [handle_starttag]; [None] is a [TypeError] or a [ValueError]. *)
Definition handle_starttag (line : nat) (tag : string)
    (attrs : list (string * option string)) (x : extractor) : option extractor :=
  let ad := attrs_dict attrs in
  match citation_of line tag ad with
  | None => None
  | Some cs =>
      let x0 := add_citations cs x in
      if String.eqb tag "section" then
        match attr_get "class" ad with
        | None => None
        | Some cls =>
            if Py.contains "references" cls
            then Some (set_section true (x_in_ol x0) 1 x0)
            else
              let x1 := if x_in_ref_section x0
                        then set_section true (x_in_ol x0)
                               (x_section_depth x0 + 1) x0
                        else x0 in
              if negb (x_in_ref_section x1) then Some x1
              else track_entry tag ad x1
        end
      else if negb (x_in_ref_section x0) then Some x0
      else track_entry tag ad x0
  end.

(** [' '.join(''.join(buf).split())] *)
Definition span_text (buf : list string) : string :=
  Py.join " " (Py.split_ws (String.concat EmptyString buf)).

(** [handle_endtag] *)
Definition handle_endtag (tag : string) (x : extractor) : extractor :=
  if negb (x_in_ref_section x) then x else
  let x1 :=
    if String.eqb tag "section" then
      if (x_section_depth x - 1 <=? 0)%Z
      then set_section false false (x_section_depth x - 1) x
      else set_section (x_in_ref_section x) (x_in_ol x) (x_section_depth x - 1) x
    else x in
  let x2 :=
    match x_current_span x1, x_current_ref x1 with
    | Some span, Some (num, d) =>
        if String.eqb tag "span" && Py.nonempty span then
          let text := span_text (x_text_buf x1) in
          let d' :=
            if String.eqb span "authors" then
              {| ed_authors := text; ed_title := ed_title d;
                 ed_venue := ed_venue d; ed_url := ed_url d |}
            else if String.eqb span "title" then
              {| ed_authors := ed_authors d; ed_title := text;
                 ed_venue := ed_venue d; ed_url := ed_url d |}
            else if String.eqb span "venue" then
              {| ed_authors := ed_authors d; ed_title := ed_title d;
                 ed_venue := text; ed_url := ed_url d |}
            else d in
          set_current (Some (num, d')) None [] x1
        else x1
    | _, _ => x1
    end in
  if String.eqb tag "li" then close_entry x2 else x2.

(** [handle_data] *)
Definition handle_data (data : string) (x : extractor) : extractor :=
  match x_current_span x, x_current_ref x with
  | Some span, Some _ =>
      if Py.nonempty span
      then set_current (x_current_ref x) (x_current_span x)
             (x_text_buf x ++ [data])%list x
      else x
  | _, _ => x
  end.

Definition handle_event (st : option extractor) (e : html_event)
  : option extractor :=
  match st with
  | None => None
  | Some x =>
      match e with
      | Start_tag line tag attrs => handle_starttag line tag attrs x
      | End_tag tag => Some (handle_endtag tag x)
      | Text data => Some (handle_data data x)
      end
  end.

(** [parser.feed(text)], on the events of the text. *)
Definition feed (events : list html_event) : option extractor :=
  fold_left handle_event events (Some new_extractor).

(** [parse_chapter]: what [run_audit] reads off the extractor. *)
Definition parse_chapter (events : list html_event) : option parsed_chapter :=
  match feed events with
  | Some x => Some {| citations := x_citations x;
                      ref_entries := x_ref_entries x;
                      ref_entry_data := x_ref_entry_data x |}
  | None => None
  end.

(** The citations of the events of a document, one by one. *)
Definition event_citations (e : html_event) : list (nat * Z) :=
  match e with
  | Start_tag line tag attrs =>
      match citation_of line tag (attrs_dict attrs) with
      | Some cs => cs
      | None => []
      end
  | _ => []
  end.

(** Every attribute of every start tag has a value. *)
Definition attrs_valued (e : html_event) : Prop :=
  match e with
  | Start_tag _ _ attrs => forall n v, In (n, v) attrs -> v <> None
  | _ => True
  end.

(** Every attribute value of every start tag has at most as many
    characters as the interpreter converts to an integer. *)
Definition attrs_short (e : html_event) : Prop :=
  match e with
  | Start_tag _ _ attrs =>
      forall n v, In (n, Some v) attrs ->
                  (String.length v <= Py.int_max_str_digits)%nat
  | _ => True
  end.

(** A start tag that opens a references section. *)
Definition opens_references (e : html_event) : bool :=
  match e with
  | Start_tag _ tag attrs =>
      String.eqb tag "section"
      && match attr_get "class" (attrs_dict attrs) with
         | Some cls => Py.contains "references" cls
         | None => false
         end
  | _ => false
  end.

(** The entry data of an extractor belong to recorded entries: every
    number with data, and the number of the entry being read, is in the
    list of entries. *)
Definition data_of_entries (x : extractor) : Prop :=
  (forall n, In n (dict_keys (x_ref_entry_data x)) -> In n (x_ref_entries x))
  /\ (forall n d, x_current_ref x = Some (n, d) -> In n (x_ref_entries x)).

(** An extractor that has seen no references section. *)
Definition outside_references (x : extractor) : Prop :=
  x_in_ref_section x = false /\ x_current_ref x = None
  /\ x_ref_entries x = [] /\ x_ref_entry_data x = [].


(** A value of a record that is null or a string; null or a non-empty
    string; null, the empty string or a number of at most four digits. *)
Definition null_or_string (o : option json) : Prop :=
  o = Some JNull \/ exists s, o = Some (JStr s).

Definition null_or_text (o : option json) : Prop :=
  o = Some JNull \/ exists s, o = Some (JStr s) /\ s <> EmptyString.

Definition year_value (o : option json) : Prop :=
  o = Some JNull \/ o = Some (JStr EmptyString)
  \/ exists z, o = Some (JInt z) /\ (0 <= z <= 9999)%Z.

(** Neither an opening nor a closing brace. *)
Definition is_no_brace (c : ascii) : bool := negb (Py.char_in "{}" c).

(* ===================================================================== *)
(** * Part II: the statements                                             *)
(* ===================================================================== *)

Unset Implicit Arguments.

Local Open Scope Z_scope.

(* --------------------------------------------------------------------- *)
(** ** Facts about dicts                                                   *)
(* --------------------------------------------------------------------- *)

Section DictFacts.
Context {K V : Type} {HK : Key K}.
Implicit Types (k : K) (v : V) (d : dict K V).

Lemma key_eqb_refl k : key_eqb k k = true.
Proof. destruct (key_eqb_spec k k); congruence. Qed.

Lemma key_eqb_neq k k' : k <> k' -> key_eqb k k' = false.
Proof. intro H. destruct (key_eqb_spec k k'); congruence. Qed.

Lemma dict_get_set_eq k v d : dict_get k (dict_set k v d) = Some v.
Proof.
  induction d as [|[k' v'] d IH]; simpl.
  - now rewrite key_eqb_refl.
  - destruct (key_eqb_spec k k') as [->|Hne]; simpl.
    + now rewrite key_eqb_refl.
    + now rewrite (key_eqb_neq _ _ Hne).
Qed.

Lemma dict_get_set_neq k k' v d :
  k <> k' -> dict_get k' (dict_set k v d) = dict_get k' d.
Proof.
  intro Hne. induction d as [|[k0 v0] d IH]; simpl.
  - rewrite key_eqb_neq; congruence.
  - destruct (key_eqb_spec k k0) as [->|Hne0]; simpl.
    + rewrite key_eqb_neq; congruence.
    + destruct (key_eqb k' k0); auto.
Qed.

Lemma dict_get_set k k' v d :
  dict_get k' (dict_set k v d) = if key_eqb k' k then Some v else dict_get k' d.
Proof.
  destruct (key_eqb_spec k' k) as [->|Hne].
  - apply dict_get_set_eq.
  - apply dict_get_set_neq; congruence.
Qed.

(** Assigning the value a key already has changes nothing. *)
Lemma dict_set_same k v d : dict_get k d = Some v -> dict_set k v d = d.
Proof.
  induction d as [|[k' v'] d IH]; simpl; [discriminate|].
  destruct (key_eqb_spec k k') as [->|Hne]; intro H.
  - congruence.
  - now rewrite IH.
Qed.

Lemma dict_mem_set k k' v d :
  dict_mem k' (dict_set k v d) = key_eqb k' k || dict_mem k' d.
Proof.
  unfold dict_mem. rewrite dict_get_set. now destruct (key_eqb k' k).
Qed.

Lemma dict_get_In k d : dict_get k d <> None <-> In k (dict_keys d).
Proof.
  induction d as [|[k' v'] d IH]; simpl.
  - split; [congruence|tauto].
  - destruct (key_eqb_spec k k') as [->|Hne].
    + split; [auto|congruence].
    + rewrite IH. split; [auto|]. intros [H|H]; congruence.
Qed.

Lemma dict_mem_In k d : dict_mem k d = true <-> In k (dict_keys d).
Proof.
  rewrite <- dict_get_In. unfold dict_mem.
  destruct (dict_get k d); split; congruence.
Qed.

Lemma dict_get_Some_In k v d : dict_get k d = Some v -> In (k, v) d.
Proof.
  induction d as [|[k' v'] d IH]; simpl; [discriminate|].
  destruct (key_eqb_spec k k') as [->|Hne]; intro H.
  - left. congruence.
  - right. auto.
Qed.

(** With distinct keys, the items of a dict are its lookups. *)
Lemma dict_In_get k v d :
  NoDup (dict_keys d) -> In (k, v) d -> dict_get k d = Some v.
Proof.
  induction d as [|[k' v'] d IH]; simpl; [tauto|].
  intros Hnd [Heq|Hin]; inversion Hnd as [|? ? Hnot Hnd']; subst.
  - inversion Heq; subst. now rewrite key_eqb_refl.
  - destruct (key_eqb_spec k k') as [->|Hne].
    + exfalso. apply Hnot. change k' with (fst (k', v)). now apply in_map.
    + auto.
Qed.

Lemma dict_keys_set k v d :
  dict_keys (dict_set k v d)
  = if dict_mem k d then dict_keys d else (dict_keys d ++ [k])%list.
Proof.
  unfold dict_mem. induction d as [|[k' v'] d IH]; simpl; [reflexivity|].
  destruct (key_eqb_spec k k') as [->|Hne]; simpl; [reflexivity|].
  rewrite IH. now destruct (dict_get k d).
Qed.

Lemma dict_keys_set_In k k' v d :
  In k' (dict_keys (dict_set k v d)) <-> k' = k \/ In k' (dict_keys d).
Proof.
  rewrite dict_keys_set. destruct (dict_mem k d) eqn:Hm.
  - apply dict_mem_In in Hm. split; [auto|]. intros [->|H]; auto.
  - rewrite in_app_iff. simpl. intuition congruence.
Qed.

Lemma dict_set_NoDup k v d :
  NoDup (dict_keys d) -> NoDup (dict_keys (dict_set k v d)).
Proof.
  intro Hnd. rewrite dict_keys_set. destruct (dict_mem k d) eqn:Hm; [assumption|].
  apply NoDup_app; [assumption|repeat constructor; simpl; tauto|].
  intros x Hx [<-|[]]. apply dict_mem_In in Hx. congruence.
Qed.

Lemma dict_values_set v' k v d :
  In v' (dict_values (dict_set k v d)) -> v' = v \/ In v' (dict_values d).
Proof.
  induction d as [|[k0 v0] d IH]; simpl.
  - intuition.
  - destruct (key_eqb k k0); simpl; intuition.
Qed.

Lemma dict_get_value k v d : dict_get k d = Some v -> In v (dict_values d).
Proof.
  intro H. apply dict_get_Some_In in H.
  change v with (snd (k, v)). now apply in_map.
Qed.

End DictFacts.

(* --------------------------------------------------------------------- *)
(** ** The loops with fuel have enough of it                               *)
(* --------------------------------------------------------------------- *)

Local Open Scope nat_scope.

(** A match hands the continuation a suffix that is not longer. *)
Lemma run_rest (r : Re.regex) : forall s g k res,
  Re.run r s g k = Some res ->
  exists s' g', String.length s' <= String.length s /\ k s' g' = Some res.
Proof.
  induction r as [|p|a IHa b IHb|a IHa b IHb|a IHa|a IHa| |a IHa]; intros s g k res H;
    cbn [Re.run] in H.
  - exists s, g. auto.
  - destruct s as [|c s0]; [discriminate|].
    destruct (p c); [|discriminate]. exists s0, g. simpl. auto.
  - apply IHa in H as [s1 [g1 [Hl1 H]]].
    apply IHb in H as [s2 [g2 [Hl2 H]]].
    exists s2, g2. split; [lia|assumption].
  - destruct (Re.run a s g k) eqn:Ha.
    + inversion H; subst. eapply IHa; eauto.
    + eapply IHb; eauto.
  - remember (String.length s) as n eqn:Hn in H at 1. clear Hn.
    revert s g H. induction n as [|n IHn]; intros s g H.
    + exists s, g. auto.
    + match type of H with
      | match ?t with _ => _ end = _ => destruct t eqn:Ha
      end.
      * inversion H; subst. apply IHa in Ha as [s1 [g1 [Hl1 Ha]]].
        destruct (String.length s1 <? String.length s) eqn:Hlt; [|discriminate].
        apply IHn in Ha as [s2 [g2 [Hl2 Ha]]].
        exists s2, g2. split; [lia|assumption].
      * exists s, g. auto.
  - apply IHa in H as [s1 [g1 [Hl1 H]]]. eauto.
  - destruct s as [|c [|c' s0]].
    + exists EmptyString, g. auto.
    + destruct (Py.is_char "010" c); [|discriminate]. eauto.
    + discriminate.
  - remember (String.length s) as n eqn:Hn in H at 1. clear Hn.
    revert s g H. induction n as [|n IHn]; intros s g H.
    + destruct (k s g) eqn:Hk; [|discriminate].
      inversion H; subst. exists s, g. auto.
    + destruct (k s g) eqn:Hk.
      * inversion H; subst. exists s, g. auto.
      * apply IHa in H as [s1 [g1 [Hl1 H]]].
        destruct (String.length s1 <? String.length s) eqn:Hlt; [|discriminate].
        apply IHn in H as [s2 [g2 [Hl2 H]]].
        exists s2, g2. split; [lia|assumption].
Qed.

(** A pattern that consumes hands on a strictly shorter suffix. *)
Lemma run_consumes (r : Re.regex) : forall s g k res,
  consumes r = true ->
  Re.run r s g k = Some res ->
  exists s' g', String.length s' < String.length s /\ k s' g' = Some res.
Proof.
  induction r as [|p|a IHa b IHb|a IHa b IHb|a IHa|a IHa| |a IHa];
    intros s g k res Hc H; cbn [Re.run consumes] in *; try discriminate.
  - destruct s as [|c s0]; [discriminate|].
    destruct (p c); [|discriminate]. exists s0, g. simpl. auto.
  - destruct (consumes a) eqn:Ca.
    + apply IHa in H as [s1 [g1 [Hl1 H]]]; [|reflexivity].
      apply run_rest in H as [s2 [g2 [Hl2 H]]].
      exists s2, g2. split; [lia|assumption].
    + simpl in Hc. apply run_rest in H as [s1 [g1 [Hl1 H]]].
      apply IHb in H as [s2 [g2 [Hl2 H]]]; [|assumption].
      exists s2, g2. split; [lia|assumption].
  - apply andb_true_iff in Hc as [Ca Cb].
    destruct (Re.run a s g k) eqn:Ha.
    + inversion H; subst. eapply IHa; eauto.
    + eapply IHb; eauto.
  - apply IHa in H as [s1 [g1 [Hl1 H]]]; eauto.
Qed.

Lemma rmatch_rest r s rest g :
  Re.rmatch r s = Some (rest, g) -> String.length rest <= String.length s.
Proof.
  unfold Re.rmatch. intro H. apply run_rest in H as [s' [g' [Hl H]]].
  unfold Re.accept in H. inversion H; subst. assumption.
Qed.

Lemma rmatch_consumes r s rest g :
  consumes r = true ->
  Re.rmatch r s = Some (rest, g) -> String.length rest < String.length s.
Proof.
  unfold Re.rmatch. intros Hc H.
  apply run_consumes in H as [s' [g' [Hl H]]]; [|assumption].
  unfold Re.accept in H. inversion H; subst. assumption.
Qed.

Lemma search_consumes r : forall s pre rest g,
  consumes r = true ->
  Re.search r s = Some (pre, rest, g) -> String.length rest < String.length s.
Proof.
  induction s as [|c s IH]; intros pre rest g Hc H; simpl in H.
  - destruct (Re.rmatch r EmptyString) as [[rest0 g0]|] eqn:Hm; [|discriminate].
    apply rmatch_consumes in Hm; [simpl in Hm; lia|assumption].
  - destruct (Re.rmatch r (String c s)) as [[rest0 g0]|] eqn:Hm.
    + inversion H; subst. now apply rmatch_consumes in Hm.
    + destruct (Re.search r s) as [[[pre1 rest1] g1]|]; [|discriminate].
      specialize (IH pre1 rest1 g1 Hc eq_refl).
      inversion H; subst. simpl. lia.
Qed.

Lemma lstrip_by_length p s :
  String.length (Py.lstrip_by p s) <= String.length s.
Proof.
  induction s as [|c s IH]; simpl; [lia|].
  destruct (p c); simpl; lia.
Qed.

Lemma drop_length n : forall s,
  String.length (Py.drop n s) <= String.length s.
Proof.
  induction n as [|n IH]; intros [|c s]; simpl; try lia.
  specialize (IH s). lia.
Qed.

Lemma find_char_length c : forall s pre post,
  Py.find_char c s = Some (pre, post) -> String.length post < String.length s.
Proof.
  induction s as [|a s IH]; intros pre post H; simpl in H; [discriminate|].
  destruct (Ascii.eqb a c).
  - inversion H; subst. simpl. lia.
  - destruct (Py.find_char c s) as [[pre1 post1]|] eqn:E; [|discriminate].
    inversion H; subst. specialize (IH _ _ eq_refl). simpl. lia.
Qed.

(** [_parse_bib_fields]: any fuel above the length of the body gives the
    same fields. *)
Lemma parse_fields_loop_fuel : forall n m s fields,
  String.length s < n -> String.length s < m ->
  parse_fields_loop n s fields = parse_fields_loop m s fields.
Proof.
  induction n as [|n IH]; intros m s fields Hn Hm; [lia|].
  destruct m as [|m]; [lia|]. cbn [parse_fields_loop].
  pose proof (lstrip_by_length is_field_sep s) as Hs1.
  destruct (Py.lstrip_by is_field_sep s) as [|c1 s1'] eqn:Es1; [reflexivity|].
  simpl in Hs1.
  destruct (Re.rmatch field_re (String c1 s1')) as [[s2 g]|] eqn:Ef.
  - apply rmatch_consumes in Ef; [|reflexivity]. simpl in Ef.
    destruct s2 as [|c s3]; [reflexivity|]. simpl in Ef.
    destruct (Ascii.eqb c "{").
    + pose proof (drop_length (scan_close s3 1) s3).
      apply IH; lia.
    + destruct (Ascii.eqb c dquote).
      * destruct (Py.find_char dquote s3) as [[value rest]|] eqn:Eq;
          [|reflexivity].
        apply find_char_length in Eq. apply IH; lia.
      * destruct (Re.rmatch bare_re (String c s3)) as [[rest g2]|] eqn:Eb.
        -- apply rmatch_rest in Eb. simpl in Eb. apply IH; lia.
        -- apply IH; lia.
  - apply IH; lia.
Qed.

(** [parse_bibtex]: any fuel above the length of the text gives the same
    entries. *)
Lemma parse_entries_fuel : forall n m s entries,
  String.length s < n -> String.length s < m ->
  parse_entries n s entries = parse_entries m s entries.
Proof.
  induction n as [|n IH]; intros m s entries Hn Hm; [lia|].
  destruct m as [|m]; [lia|]. cbn [parse_entries].
  destruct (Py.is_empty s); [reflexivity|].
  destruct (Re.search entry_re s) as [[[pre after] g]|] eqn:Es; [|reflexivity].
  apply search_consumes in Es; [|reflexivity].
  destruct (Py.find_char "," after) as [[key_text after_comma]|] eqn:Ec;
    [|reflexivity].
  apply find_char_length in Ec.
  pose proof (drop_length (scan_close after_comma 1) after_comma).
  apply IH; lia.
Qed.

(** [re.sub] and [re.split]: any fuel above the length of the text gives
    the same result. *)
Lemma sub_loop_fuel r repl : forall n m s,
  String.length s < n -> String.length s < m ->
  Re.sub_loop n r repl s = Re.sub_loop m r repl s.
Proof.
  induction n as [|n IH]; intros m s Hn Hm; [lia|].
  destruct m as [|m]; [lia|]. cbn [Re.sub_loop].
  destruct (Re.rmatch r s) as [[rest g]|] eqn:Em.
  - destruct (String.length rest <? String.length s) eqn:Hlt.
    + apply Nat.ltb_lt in Hlt. f_equal. apply IH; lia.
    + destruct s as [|c s']; [reflexivity|]. simpl in *. f_equal. apply IH; lia.
  - destruct s as [|c s']; [reflexivity|]. simpl in *. f_equal. apply IH; lia.
Qed.

Lemma split_loop_fuel r : forall n m s cur,
  String.length s < n -> String.length s < m ->
  Re.split_loop n r s cur = Re.split_loop m r s cur.
Proof.
  induction n as [|n IH]; intros m s cur Hn Hm; [lia|].
  destruct m as [|m]; [lia|]. cbn [Re.split_loop].
  destruct s as [|c s']; [reflexivity|].
  destruct (Re.rmatch r (String c s')) as [[rest g]|] eqn:Em.
  - destruct (String.length rest <? String.length (String c s')) eqn:Hlt.
    + apply Nat.ltb_lt in Hlt. f_equal. apply IH; lia.
    + simpl in *. apply IH; lia.
  - simpl in *. apply IH; lia.
Qed.

Local Close Scope nat_scope.

(** A match hands the continuation a suffix of its input. *)
Lemma suffix_of_refl s : suffix_of s s.
Proof. exists EmptyString. reflexivity. Qed.

Lemma suffix_of_trans s1 s2 s3 :
  suffix_of s1 s2 -> suffix_of s2 s3 -> suffix_of s1 s3.
Proof.
  intros [p ->] [q ->]. exists (q ++ p).
  induction q as [|c q IH]; simpl; [reflexivity|]. now rewrite IH.
Qed.

Lemma suffix_of_tail c s : suffix_of s (String c s).
Proof. exists (String c EmptyString). reflexivity. Qed.

Lemma run_suffix (r : Re.regex) : forall s g k res,
  Re.run r s g k = Some res ->
  exists s' g', suffix_of s' s /\ k s' g' = Some res.
Proof.
  induction r as [|p|a IHa b IHb|a IHa b IHb|a IHa|a IHa| |a IHa]; intros s g k res H;
    cbn [Re.run] in H.
  - exists s, g. split; [apply suffix_of_refl|assumption].
  - destruct s as [|c s0]; [discriminate|].
    destruct (p c); [|discriminate]. exists s0, g.
    split; [apply suffix_of_tail|assumption].
  - apply IHa in H as [s1 [g1 [Hl1 H]]].
    apply IHb in H as [s2 [g2 [Hl2 H]]].
    exists s2, g2. split; [eapply suffix_of_trans; eassumption|assumption].
  - destruct (Re.run a s g k) eqn:Ha.
    + inversion H; subst. eapply IHa; eauto.
    + eapply IHb; eauto.
  - remember (String.length s) as n eqn:Hn in H at 1. clear Hn.
    revert s g H. induction n as [|n IHn]; intros s g H.
    + exists s, g. split; [apply suffix_of_refl|assumption].
    + match type of H with
      | match ?t with _ => _ end = _ => destruct t eqn:Ha
      end.
      * inversion H; subst. apply IHa in Ha as [s1 [g1 [Hl1 Ha]]].
        destruct (String.length s1 <? String.length s)%nat; [|discriminate].
        apply IHn in Ha as [s2 [g2 [Hl2 Ha]]].
        exists s2, g2. split; [eapply suffix_of_trans; eassumption|assumption].
      * exists s, g. split; [apply suffix_of_refl|assumption].
  - apply IHa in H as [s1 [g1 [Hl1 H]]]. eauto.
  - destruct s as [|c [|c' s0]].
    + exists EmptyString, g. split; [apply suffix_of_refl|assumption].
    + destruct (Py.is_char "010" c); [|discriminate].
      exists (String c EmptyString), g. split; [apply suffix_of_refl|assumption].
    + discriminate.
  - remember (String.length s) as n eqn:Hn in H at 1. clear Hn.
    revert s g H. induction n as [|n IHn]; intros s g H.
    + destruct (k s g) eqn:Hk; [|discriminate].
      inversion H; subst. exists s, g. split; [apply suffix_of_refl|assumption].
    + destruct (k s g) eqn:Hk.
      * inversion H; subst. exists s, g.
        split; [apply suffix_of_refl|assumption].
      * apply IHa in H as [s1 [g1 [Hl1 H]]].
        destruct (String.length s1 <? String.length s)%nat; [|discriminate].
        apply IHn in H as [s2 [g2 [Hl2 H]]].
        exists s2, g2. split; [eapply suffix_of_trans; eassumption|assumption].
Qed.

Lemma search_suffix r : forall s pre rest g,
  Re.search r s = Some (pre, rest, g) -> suffix_of rest s.
Proof.
  induction s as [|c s IH]; intros pre rest g H; simpl in H.
  - destruct (Re.rmatch r EmptyString) as [[rest0 g0]|] eqn:Hm; [|discriminate].
    inversion H; subst. unfold Re.rmatch in Hm.
    apply run_suffix in Hm as [s' [g' [Hs Hm]]].
    unfold Re.accept in Hm. now inversion Hm; subst.
  - destruct (Re.rmatch r (String c s)) as [[rest0 g0]|] eqn:Hm.
    + inversion H; subst. unfold Re.rmatch in Hm.
      apply run_suffix in Hm as [s' [g' [Hs Hm]]].
      unfold Re.accept in Hm. now inversion Hm; subst.
    + destruct (Re.search r s) as [[[pre1 rest1] g1]|]; [|discriminate].
      specialize (IH pre1 rest1 g1 eq_refl). inversion H; subst.
      eapply suffix_of_trans; [exact IH|apply suffix_of_tail].
Qed.

(** A text without the character has no suffix with it. *)
Lemma find_char_none_suffix c s' s :
  suffix_of s' s -> Py.find_char c s = None -> Py.find_char c s' = None.
Proof.
  intros [p ->]. induction p as [|a p IH]; simpl; [auto|].
  destruct (Ascii.eqb a c); [discriminate|].
  destruct (Py.find_char c (p ++ s')) as [[pre post]|]; [discriminate|].
  intros _. now apply IH.
Qed.

(** In a text without a comma the parser finds no entry. *)
Lemma parse_entries_no_comma s :
  Py.find_char "," s = None ->
  forall fuel entries, parse_entries fuel s entries = entries.
Proof.
  intros Hc [|fuel] entries; [reflexivity|]. cbn [parse_entries].
  destruct (Py.is_empty s); [reflexivity|].
  destruct (Re.search entry_re s) as [[[pre after] g]|] eqn:Es; [|reflexivity].
  apply search_suffix in Es.
  now rewrite (find_char_none_suffix _ _ _ Es Hc).
Qed.

(* --------------------------------------------------------------------- *)
(** ** The BibTeX parser and entries without a comma                       *)
(* --------------------------------------------------------------------- *)

(** The parser never loses a key it has stored. *)
Lemma parse_entries_keeps_keys fuel : forall s entries k,
  In k (dict_keys entries) -> In k (dict_keys (parse_entries fuel s entries)).
Proof.
  induction fuel as [|fuel IH]; intros s entries k Hin; simpl; [assumption|].
  destruct (Py.is_empty s); [assumption|].
  destruct (Re.search entry_re s) as [[[pre after] g]|]; [|assumption].
  destruct (Py.find_char "," after) as [[key_text after_comma]|]; [|assumption].
  apply IH. apply dict_keys_set_In. now right.
Qed.

(** C2, counterexample to the claim as stated.  In a file whose first
    entry lacks the comma after its key, the comma of the following
    well-formed entry is taken as the end of the key: the well-formed
    entry [good2020], which parses on its own, is absent from the output,
    which holds a single entry under a key made of both. *)
Lemma entry_without_comma_absorbs_next_entry :
  dict_mem "good2020"
    (parse_bibtex "@book{good2020, title={B}, year=2020}") = true
  /\ dict_mem "good2020" (parse_bibtex broken_bib_text) = false
  /\ dict_keys (parse_bibtex broken_bib_text)
     = ["broken title={A}} @book{good2020"].
Proof.
  split; [vm_compute; reflexivity|].
  split; vm_compute; reflexivity.
Qed.

(** C2, as amended.  When no comma occurs anywhere after an [@type{]
    opening, the parser stops there and returns the entries parsed so
    far, unchanged; resuming the scan past the opening would find nothing
    more, so nothing that could be parsed is lost; and every key parsed
    before stays in the output. *)
Theorem parse_stops_at_opening_without_comma :
  forall (fuel : nat) (s before after : string) (g : option string)
         (entries : dict string bib_entry),
    Re.search entry_re s = Some (before, after, g) ->
    Py.find_char "," after = None ->
    parse_entries (S fuel) s entries = entries
    /\ (forall fuel', parse_entries fuel' after entries = entries)
    /\ (forall fuel' s' k,
          In k (dict_keys entries) ->
          In k (dict_keys (parse_entries fuel' s' entries))).
Proof.
  intros fuel s before after g entries Hs Hc. split; [|split].
  - simpl. destruct (Py.is_empty s); [reflexivity|].
    rewrite Hs, Hc. reflexivity.
  - intro fuel'. now apply parse_entries_no_comma.
  - intros. now apply parse_entries_keeps_keys.
Qed.

Lemma parse_stops_at_opening_without_comma_witness :
  Re.search entry_re " @article{broken title={C}}"
  = Some (" ", "broken title={C}}", Some "article")
  /\ Py.find_char "," "broken title={C}}" = None
  /\ parse_entries 1 " @article{broken title={C}}"
       (parse_bibtex "@book{first2019, title={A}}")
     = parse_bibtex "@book{first2019, title={A}}"
  /\ parse_bibtex truncated_bib_text
     = parse_bibtex "@book{first2019, title={A}}".
Proof.
  split; [vm_compute; reflexivity|].
  split; [vm_compute; reflexivity|].
  split.
  - apply (parse_stops_at_opening_without_comma 0
             " @article{broken title={C}}" " " "broken title={C}}"
             (Some "article")); vm_compute; reflexivity.
  - vm_compute; reflexivity.
Defined.

(* --------------------------------------------------------------------- *)
(** ** The identifier stage of the matcher                                 *)
(* --------------------------------------------------------------------- *)

(** The URL stages look at nothing but the URL of the reference entry. *)
Lemma match_url_stages_ext idx r1 r2 :
  ref_url r1 = ref_url r2 -> match_url_stages idx r1 = match_url_stages idx r2.
Proof. unfold match_url_stages. now intros ->. Qed.

(** The fuzzy stage never reports one of the URL methods. *)
Lemma match_fuzzy_method ratio idx ref k m :
  match_fuzzy ratio idx ref = Some (k, m) -> exists s, m = M_title_fuzzy s.
Proof.
  unfold match_fuzzy. destruct (Qle_bool _ _); [|discriminate].
  intro H; inversion H; eauto.
Qed.

Lemma match_author_year_method ratio bib ref k m :
  match_author_year ratio bib ref = Some (k, m) -> exists s, m = M_author_year s.
Proof.
  unfold match_author_year. destruct (_ && _); [|discriminate].
  intro H; inversion H; eauto.
Qed.

(** When the URL stages find nothing, the method is none of theirs. *)
Lemma match_ref_not_arxiv ratio bib idx ref :
  match_url_stages idx ref = None ->
  snd (match_ref ratio bib idx ref) <> Some M_arxiv.
Proof.
  intro Hurl. unfold match_ref. rewrite Hurl. cbn [fst key_truthy negb].
  destruct (match_fuzzy ratio idx ref) as [[k m]|] eqn:Hf.
  - apply match_fuzzy_method in Hf as [s ->]. cbn [fst snd].
    destruct (negb (key_truthy k) && year_truthy (ref_year ref)).
    + destruct (match_author_year ratio bib ref) as [[k' m']|] eqn:Ha.
      * apply match_author_year_method in Ha as [s' ->]. cbn. discriminate.
      * cbn. discriminate.
    + cbn. discriminate.
  - cbn [fst key_truthy negb andb].
    destruct (year_truthy (ref_year ref)).
    + destruct (match_author_year ratio bib ref) as [[k' m']|] eqn:Ha.
      * apply match_author_year_method in Ha as [s' ->]. cbn. discriminate.
      * cbn. discriminate.
    + cbn. discriminate.
Qed.

(** C1 (the code departs from the claim).  The identifier stage extracts
    the paper identifier from an [/abs/] path only.  For the canonical
    record with URL https://arxiv.org/abs/2301.00001: an entry citing the
    abstract URL with a version suffix is resolved by the identifier stage,
    but an entry citing https://arxiv.org/pdf/2301.00001 yields no
    identifier, none of the URL stages resolves it, and whatever the
    similarity function, the entry is never matched by the identifier
    method. *)
Theorem arxiv_pdf_url_misses_identifier_stage :
  extract_arxiv_id "https://arxiv.org/abs/2301.00001" = Some "2301.00001"
  /\ extract_arxiv_id "https://arxiv.org/pdf/2301.00001" = None
  /\ match_url_stages (build_indices arxiv_bib)
       (arxiv_ref "https://arxiv.org/abs/2301.00001v2")
     = Some ("doe2023scaling", M_arxiv)
  /\ (forall ref : html_ref,
        ref_url ref = "https://arxiv.org/pdf/2301.00001" ->
        match_url_stages (build_indices arxiv_bib) ref = None)
  /\ (forall (ratio : string -> string -> Q) (ref : html_ref),
        ref_url ref = "https://arxiv.org/pdf/2301.00001" ->
        snd (match_ref ratio arxiv_bib (build_indices arxiv_bib) ref)
        <> Some M_arxiv).
Proof.
  assert (Hpdf : forall ref : html_ref,
             ref_url ref = "https://arxiv.org/pdf/2301.00001" ->
             match_url_stages (build_indices arxiv_bib) ref = None).
  { intros ref Hu.
    rewrite (match_url_stages_ext _ ref
               (arxiv_ref "https://arxiv.org/pdf/2301.00001") Hu).
    vm_compute. reflexivity. }
  split; [vm_compute; reflexivity|].
  split; [vm_compute; reflexivity|].
  split; [vm_compute; reflexivity|].
  split; [exact Hpdf|].
  intros ratio ref Hu. apply match_ref_not_arxiv. auto.
Qed.

(* --------------------------------------------------------------------- *)
(** ** The fuzzy title stage                                               *)
(* --------------------------------------------------------------------- *)

Lemma Qltb_lt a b : Qltb a b = true <-> (a < b)%Q.
Proof.
  unfold Qltb. rewrite negb_true_iff. split.
  - intro H. apply Qnot_le_lt. intro Hle. apply Qle_bool_iff in Hle. congruence.
  - intro H. apply not_true_is_false. intro Hle. apply Qle_bool_iff in Hle.
    apply (Qlt_not_le _ _ H Hle).
Qed.

Lemma Qltb_ge a b : Qltb a b = false <-> (b <= a)%Q.
Proof.
  unfold Qltb. rewrite negb_false_iff. apply Qle_bool_iff.
Qed.

(** A loop that keeps the first best: the result is the start value when
    no score exceeds it, and otherwise the first element whose score is
    the greatest, every earlier score being strictly smaller. *)
Lemma best_step_fold {A : Type} (f : A -> Q * string) (l : list A) :
  forall s0 k0,
    (fold_left (fun b a => best_step b (f a)) l (s0, k0) = (s0, k0)
     /\ forall q, In q l -> (fst (f q) <= s0)%Q)
    \/ exists pre p post,
         l = (pre ++ p :: post)%list
         /\ fold_left (fun b a => best_step b (f a)) l (s0, k0)
            = (fst (f p), Some (snd (f p)))
         /\ (s0 < fst (f p))%Q
         /\ (forall q, In q pre -> (fst (f q) < fst (f p))%Q)
         /\ (forall q, In q post -> (fst (f q) <= fst (f p))%Q).
Proof.
  induction l as [|p l IH]; intros s0 k0.
  - left. split; [reflexivity|]. intros q [].
  - change (fold_left (fun b a => best_step b (f a)) (p :: l) (s0, k0))
      with (fold_left (fun b a => best_step b (f a)) l (best_step (s0, k0) (f p))).
    unfold best_step at 2 4. cbn [fst snd].
    destruct (Qltb s0 (fst (f p))) eqn:Hlt.
    + apply Qltb_lt in Hlt. right.
      destruct (IH (fst (f p)) (Some (snd (f p)))) as [HA|HB].
      * destruct HA as [Hr Hall].
        exists [], p, l. simpl. repeat split; auto. intros ? [].
      * destruct HB as [pre [q [post [Hsk [Hr [Hpq [Hpre Hpost]]]]]]].
        exists (p :: pre), q, post. subst l. simpl.
        repeat split; auto.
        -- eapply Qlt_trans; eassumption.
        -- intros x [<-|Hx]; auto.
    + apply Qltb_ge in Hlt.
      destruct (IH s0 k0) as [HA|HB].
      * destruct HA as [Hr Hall].
        left. split; [assumption|]. intros x [<-|Hx]; auto.
      * destruct HB as [pre [q [post [Hsk [Hr [Hpq [Hpre Hpost]]]]]]]. right.
        exists (p :: pre), q, post. subst l. simpl.
        repeat split; auto.
        intros x [<-|Hx]; auto. eapply Qle_lt_trans; eassumption.
Qed.

Lemma fold_left_flat_map {A B C : Type} (f : A -> C -> A) (g : B -> list C)
    (l : list B) : forall a,
  fold_left f (flat_map g l) a = fold_left (fun a b => fold_left f (g b) a) l a.
Proof.
  induction l as [|b l IH]; intro a; simpl; [reflexivity|].
  now rewrite fold_left_app, IH.
Qed.

Lemma fold_left_map {A B C : Type} (f : A -> C -> A) (g : B -> C) (l : list B) :
  forall a, fold_left f (map g l) a = fold_left (fun a b => f a (g b)) l a.
Proof.
  induction l as [|b l IH]; intro a; simpl; [reflexivity|]. apply IH.
Qed.

Lemma fold_left_ext {A B : Type} (f g : A -> B -> A) (l : list B) :
  (forall a b, f a b = g a b) -> forall a, fold_left f l a = fold_left g l a.
Proof.
  intro H. induction l as [|b l IH]; intro a; simpl; [reflexivity|].
  now rewrite H, IH.
Qed.

(** The two nested loops of the fuzzy stage are one loop over the triples. *)
Lemma fuzzy_best_pairs ratio idx ref :
  fuzzy_best ratio idx ref
  = fold_left (fun b p => best_step b (triple_score ratio p, triple_key p))
      (fuzzy_pairs idx ref) (0%Q, None).
Proof.
  unfold fuzzy_best, fuzzy_pairs.
  rewrite fold_left_flat_map.
  apply fold_left_ext. intros best ref_title.
  unfold fuzzy_candidate.
  destruct (Py.is_empty (normalize_title ref_title)); [reflexivity|].
  rewrite fold_left_map. apply fold_left_ext.
  intros b [bib_norm bkey]. reflexivity.
Qed.

Lemma pair_score_cases ratio ref_norm bib_norm :
  pair_score ratio ref_norm bib_norm
  = if (3 * String.length bib_norm <? 2 * String.length ref_norm)%nat
       && (10 <? String.length bib_norm)%nat
       && Py.contains bib_norm ref_norm
    then 95 # 100 else ratio ref_norm bib_norm.
Proof.
  unfold pair_score.
  destruct ((3 * String.length bib_norm <? 2 * String.length ref_norm)%nat
            && (10 <? String.length bib_norm)%nat);
    destruct (Py.contains bib_norm ref_norm); reflexivity.
Qed.

Lemma normalize_title_empty : normalize_title EmptyString = EmptyString.
Proof. vm_compute. reflexivity. Qed.

Lemma pairs_skip_empty (idx : indices) (l : list string) :
  flat_map
    (fun ref_title =>
       let ref_norm := normalize_title ref_title in
       if Py.is_empty ref_norm then []
       else map (fun rec => (ref_norm, fst rec, snd rec)) (title_index idx)) l
  = flat_map
      (fun field =>
         map (fun rec => (normalize_title field, fst rec, snd rec)) (title_index idx))
      (filter (fun field => Py.nonempty (normalize_title field))
              (filter Py.nonempty l)).
Proof.
  set (F := fun ref_title : string => _).
  induction l as [|t l IH]; [reflexivity|].
  change (flat_map F (t :: l)) with (F t ++ flat_map F l)%list.
  rewrite IH. subst F. cbv beta zeta.
  destruct t as [|c t].
  - rewrite normalize_title_empty. reflexivity.
  - cbn [Py.nonempty Py.is_empty negb filter]. unfold Py.nonempty.
    destruct (Py.is_empty (normalize_title (String c t))); reflexivity.
Qed.

(** The candidates the code collects give the triples of the four fields
    of the specification, in the same order. *)
Lemma fuzzy_pairs_fields (idx : indices) (ref : html_ref) :
  fuzzy_pairs idx ref = candidate_pairs idx ref.
Proof.
  unfold fuzzy_pairs, candidate_pairs, candidate_fields.
  rewrite pairs_skip_empty. f_equal. f_equal.
  unfold fuzzy_candidates.
  destruct (ref_authors_raw ref), (ref_all_text ref), (ref_title ref), (ref_venue ref);
    reflexivity.
Qed.

(** C6.  In the fuzzy title stage, a pair whose normalized candidate is
    longer than 1.5 times the normalized record title, whose record title
    has more than 10 characters and whose candidate contains the title
    scores exactly 0.95, and every other pair scores the general string
    similarity; over the four candidate fields (declared title, venue
    text, raw author text, full fallback text, in this order, the empty
    ones skipped) and all records the stage keeps a single best pair,
    which is the first pair of greatest score (every earlier pair scores
    strictly less, no later pair replaces it on an equal score); and the
    stage accepts exactly when the best score is at least 0.65, with the
    key of that pair. *)
Theorem fuzzy_stage_keeps_first_best :
  forall (ratio : string -> string -> Q) (idx : indices) (ref : html_ref),
    (forall ref_norm bib_norm : string,
        ((3 * String.length bib_norm < 2 * String.length ref_norm)%nat
         /\ (10 < String.length bib_norm)%nat
         /\ Py.contains bib_norm ref_norm = true ->
         pair_score ratio ref_norm bib_norm = 95 # 100)
        /\ (~ ((3 * String.length bib_norm < 2 * String.length ref_norm)%nat
               /\ (10 < String.length bib_norm)%nat
               /\ Py.contains bib_norm ref_norm = true) ->
            pair_score ratio ref_norm bib_norm = ratio ref_norm bib_norm))
    /\ (forall p, In p (candidate_pairs idx ref) ->
          (triple_score ratio p <= fst (fuzzy_best ratio idx ref))%Q)
    /\ ((fuzzy_best ratio idx ref = (0%Q, None)
          /\ forall p, In p (candidate_pairs idx ref) -> (triple_score ratio p <= 0)%Q)
         \/ exists pre p post,
              candidate_pairs idx ref = (pre ++ p :: post)%list
              /\ fuzzy_best ratio idx ref
                 = (triple_score ratio p, Some (triple_key p))
              /\ (0 < triple_score ratio p)%Q
              /\ (forall q, In q pre ->
                    (triple_score ratio q < triple_score ratio p)%Q)
              /\ (forall q, In q post ->
                    (triple_score ratio q <= triple_score ratio p)%Q))
    /\ (forall k m,
          match_fuzzy ratio idx ref = Some (k, m)
          <-> (65 # 100 <= fst (fuzzy_best ratio idx ref))%Q
              /\ k = snd (fuzzy_best ratio idx ref)
              /\ m = M_title_fuzzy (fst (fuzzy_best ratio idx ref)))
    /\ (match_fuzzy ratio idx ref = None
         <-> (fst (fuzzy_best ratio idx ref) < 65 # 100)%Q).
Proof.
  intros ratio idx ref. rewrite <- fuzzy_pairs_fields.
  pose proof (best_step_fold
                (fun p => (triple_score ratio p, triple_key p))
                (fuzzy_pairs idx ref) 0%Q None) as Hbest.
  cbv beta in Hbest. rewrite <- fuzzy_best_pairs in Hbest.
  cbn [fst snd] in Hbest.
  split; [|split; [|split; [|split]]].
  - intros ref_norm bib_norm. rewrite pair_score_cases. split.
    + intros [H1 [H2 H3]].
      apply Nat.ltb_lt in H1. apply Nat.ltb_lt in H2.
      now rewrite H1, H2, H3.
    + intro Hnot.
      destruct ((3 * String.length bib_norm <? 2 * String.length ref_norm)%nat)
        eqn:H1; [|reflexivity].
      destruct ((10 <? String.length bib_norm)%nat) eqn:H2; [|reflexivity].
      destruct (Py.contains bib_norm ref_norm) eqn:H3; [|reflexivity].
      exfalso. apply Hnot.
      apply Nat.ltb_lt in H1. apply Nat.ltb_lt in H2. auto.
  - intros p Hp.
    destruct Hbest as [[Hr Hall]|[pre [q [post [Hl [Hr [H0 [Hpre Hpost]]]]]]]].
    + rewrite Hr. cbn [fst]. auto.
    + rewrite Hr. cbn [fst]. rewrite Hl in Hp.
      apply in_app_or in Hp as [Hp|[<-|Hp]].
      * apply Qlt_le_weak. auto.
      * apply Qle_refl.
      * auto.
  - exact Hbest.
  - intros k m. unfold match_fuzzy.
    destruct (Qle_bool (65 # 100) (fst (fuzzy_best ratio idx ref))) eqn:Hle.
    + apply Qle_bool_iff in Hle. split.
      * intro H; inversion H; subst. auto.
      * intros [_ [-> ->]]. reflexivity.
    + split; [discriminate|]. intros [H _].
      apply Qle_bool_iff in H. congruence.
  - unfold match_fuzzy.
    destruct (Qle_bool (65 # 100) (fst (fuzzy_best ratio idx ref))) eqn:Hle.
    + apply Qle_bool_iff in Hle. split; [discriminate|].
      intro H. exfalso. apply (Qlt_not_le _ _ H Hle).
    + split; [|reflexivity]. intros _. apply Qnot_le_lt. intro H.
      apply Qle_bool_iff in H. congruence.
Qed.

(* --------------------------------------------------------------------- *)
(** ** Synthetic keys and entries                                          *)
(* --------------------------------------------------------------------- *)

(** A synthetic entry always has the type misc, and so has its record. *)
Lemma synthetic_entry_is_misc ref :
  get_str "_type" (_make_synthetic_entry ref) = "misc"
  /\ classify_bib_type (_make_synthetic_entry ref) = "misc".
Proof.
  unfold _make_synthetic_entry, classify_bib_type.
  destruct (Py.nonempty (ref_venue ref)); cbn; split; reflexivity.
Qed.

(** With a resolved year the key is surname, year in decimal, first
    content word. *)
Lemma synthetic_key_with_year ref slug y :
  ref_year ref = Some y ->
  _make_synthetic_key ref slug
  = synthetic_surname (ref_authors_raw ref) ++ Py.str_of_Z y
    ++ first_content_word (Py.split_ws (Py.str_or (ref_title ref) (ref_venue ref))).
Proof. unfold _make_synthetic_key. now intros ->. Qed.

(** C3 (the code departs from the claim).  For an entry with no URL and
    no resolved year, the synthesized key is not surname, year, first
    content word: the year slot holds the text [None].  The synthesized
    entry itself has an empty year and the type misc; with the year
    resolved the key has the stated form. *)
Theorem synthetic_key_of_yearless_entry :
  _make_synthetic_key yearless_ref "index" = "smithNonefoo"
  /\ get_str "year" (_make_synthetic_entry yearless_ref) = EmptyString
  /\ classify_bib_type (_make_synthetic_entry yearless_ref) = "misc"
  /\ _make_synthetic_key dated_ref "index" = "smith2020foo"
  /\ (forall ratio : string -> string -> Q,
        match_ref ratio [] (build_indices []) yearless_ref = (None, None)
        /\ build_databases ratio EmptyString [("index", [yearless_ref])] [] []
           = Some ([("index", [("4", "smithNonefoo")])],
                   [("smithNonefoo",
                     [("title", JStr "The Foo of Bar");
                      ("authors", JArr [JStr "smith_j"]);
                      ("year", JStr EmptyString);
                      ("venue", JNull); ("venueShort", JNull);
                      ("url", JNull); ("doi", JNull);
                      ("type", JStr "misc"); ("screenshot", JNull)])],
                   [("smith_j",
                     [("displayName", JStr "J. Smith");
                      ("affiliation", JNull); ("headshot", JNull);
                      ("links", JObj [])])])).
Proof.
  split; [vm_compute; reflexivity|].
  split; [vm_compute; reflexivity|].
  split; [vm_compute; reflexivity|].
  split; [vm_compute; reflexivity|].
  intro ratio. split; vm_compute; reflexivity.
Qed.

(* --------------------------------------------------------------------- *)
(** ** The matcher only returns keys of the bibliography                   *)
(* --------------------------------------------------------------------- *)

Lemma index_entry_keys_in (P : string -> Prop) idx key entry :
  index_keys_in P idx -> P key -> index_keys_in P (index_entry idx (key, entry)).
Proof.
  intros [Hu [Ha Ht]] Hk. unfold index_entry, index_keys_in.
  cbn [url_to_key arxiv_to_key title_index].
  assert (Hset : forall (d : dict string string) k,
             (forall v, In v (dict_values d) -> P v) ->
             forall v, In v (dict_values (dict_set k key d)) -> P v).
  { intros d k Hd v Hv. apply dict_values_set in Hv as [->|Hv]; auto. }
  split; [|split].
  - destruct (Py.nonempty (get_str "doi" entry));
      destruct (Py.nonempty (bib_url_of entry)); repeat apply Hset; exact Hu.
  - destruct (Py.nonempty (bib_url_of entry)); [|exact Ha].
    destruct (extract_arxiv_id (bib_url_of entry)) as [aid|]; [|exact Ha].
    destruct (Py.nonempty aid); [|exact Ha].
    apply Hset. exact Ha.
  - destruct (Py.nonempty (Py.str_or (get_str "title" entry)
                                     (get_str "journal" entry))); [|exact Ht].
    intros tv Hin. apply in_app_or in Hin as [Hin|[<-|[]]]; [auto|exact Hk].
Qed.

Lemma fold_index_keys_in (P : string -> Prop) (l : list (string * bib_entry)) :
  forall idx,
    index_keys_in P idx -> (forall ke, In ke l -> P (fst ke)) ->
    index_keys_in P (fold_left index_entry l idx).
Proof.
  induction l as [|[k e] l IH]; intros idx Hidx Hl; simpl; [assumption|].
  apply IH.
  - apply index_entry_keys_in; [assumption|]. apply (Hl (k, e)). now left.
  - intros ke Hke. apply Hl. now right.
Qed.

Lemma build_indices_keys_in (bib : dict string bib_entry) :
  index_keys_in (fun k => In k (dict_keys bib)) (build_indices bib).
Proof.
  unfold build_indices. apply fold_index_keys_in.
  - repeat split; intros ? [].
  - intros ke Hke. now apply in_map.
Qed.

Lemma first_partial_value u items k :
  first_partial u items = Some k -> In k (dict_values items).
Proof.
  induction items as [|[b bk] items IH]; simpl; [discriminate|].
  destruct (Py.contains u b || Py.contains b u).
  - intro H; inversion H; subst. now left.
  - intro H. right. now apply IH.
Qed.

Lemma match_url_stages_key (P : string -> Prop) idx ref k m :
  index_keys_in P idx -> match_url_stages idx ref = Some (k, m) -> P k.
Proof.
  intros [Hu [Ha _]]. unfold match_url_stages.
  destruct (Py.nonempty (normalize_url (ref_url ref))); [|discriminate].
  destruct (dict_get (normalize_url (ref_url ref)) (url_to_key idx)) as [k1|] eqn:H1.
  - intro H; inversion H; subst. apply Hu. eapply dict_get_value; eauto.
  - assert (Hpart : match first_partial (normalize_url (ref_url ref)) (url_to_key idx) with
                    | Some k0 => Some (k0, M_url_partial)
                    | None => None
                    end = Some (k, m) -> P k).
    { destruct (first_partial _ _) as [k2|] eqn:H2; [|discriminate].
      intro H; inversion H; subst. apply Hu. eapply first_partial_value; eauto. }
    destruct (extract_arxiv_id (ref_url ref)) as [aid|]; [|exact Hpart].
    destruct (Py.nonempty aid); [|exact Hpart].
    destruct (dict_get aid (arxiv_to_key idx)) as [k3|] eqn:H3; [|exact Hpart].
    intro H; inversion H; subst. apply Ha. eapply dict_get_value; eauto.
Qed.

Lemma fuzzy_pairs_key idx ref p :
  In p (fuzzy_pairs idx ref) ->
  exists tv, In tv (title_index idx) /\ triple_key p = snd tv.
Proof.
  unfold fuzzy_pairs. rewrite in_flat_map. intros [c [_ Hp]].
  destruct (Py.is_empty (normalize_title c)); [contradiction|].
  apply in_map_iff in Hp as [tv [<- Htv]]. exists tv. auto.
Qed.

Lemma fuzzy_best_key (P : string -> Prop) ratio idx ref k :
  index_keys_in P idx -> snd (fuzzy_best ratio idx ref) = Some k -> P k.
Proof.
  intros [_ [_ Ht]] Hk.
  pose proof (best_step_fold
                (fun p => (triple_score ratio p, triple_key p))
                (fuzzy_pairs idx ref) 0%Q None) as Hbest.
  cbv beta in Hbest. rewrite <- fuzzy_best_pairs in Hbest.
  destruct Hbest as [[Hr _]|[pre [p [post [Hl [Hr _]]]]]].
  - rewrite Hr in Hk. discriminate.
  - rewrite Hr in Hk. cbn [fst snd] in Hk. inversion Hk; subst.
    destruct (fuzzy_pairs_key idx ref p) as [tv [Htv ->]].
    + rewrite Hl. apply in_or_app. right. now left.
    + now apply Ht.
Qed.

Lemma author_year_fold_key (P : string -> Prop) ratio ref
    (l : list (string * bib_entry)) :
  forall best,
    (forall k, snd best = Some k -> P k) ->
    (forall ke, In ke l -> P (fst ke)) ->
    forall k, snd (fold_left (author_year_step ratio ref) l best) = Some k -> P k.
Proof.
  induction l as [|[key entry] l IH]; intros best Hb Hl; simpl; [assumption|].
  apply IH; [|intros ke Hke; apply Hl; now right].
  assert (Hkey : P key) by (apply (Hl (key, entry)); now left).
  unfold author_year_step.
  destruct (dict_get "year" entry) as [ey|]; [|assumption].
  destruct (ref_year ref) as [ry|]; [|assumption].
  destruct (Py.nonempty ey && String.eqb ey (Py.str_of_Z ry)); [|assumption].
  destruct (parse_bib_authors (get_str "author" entry)) as [|[f last] rest];
    [assumption|].
  destruct (Py.nonempty (Py.lower last) && _); [|assumption].
  destruct (Qltb (fst best) _); [|assumption].
  cbn [snd]. intros k Hk. inversion Hk; subst. assumption.
Qed.

(** Whatever the similarity function, a matched key is a key of the
    bibliography. *)
Lemma match_ref_key ratio (bib : dict string bib_entry) ref k :
  fst (match_ref ratio bib (build_indices bib) ref) = Some k ->
  In k (dict_keys bib).
Proof.
  pose proof (build_indices_keys_in bib) as Hidx.
  set (P := fun k => In k (dict_keys bib)) in *.
  unfold match_ref.
  set (r1 := match match_url_stages (build_indices bib) ref with
             | Some (k0, m) => (Some k0, Some m)
             | None => (None, None)
             end).
  assert (H1 : forall k0, fst r1 = Some k0 -> P k0).
  { unfold r1. destruct (match_url_stages (build_indices bib) ref) as [[k0 m]|] eqn:Hu.
    - cbn. intros ? H; inversion H; subst.
      eapply match_url_stages_key; eauto.
    - cbn. discriminate. }
  set (r2 := if negb (key_truthy (fst r1))
             then match match_fuzzy ratio (build_indices bib) ref with
                  | Some (k0, m) => (k0, Some m)
                  | None => r1
                  end
             else r1).
  assert (H2 : forall k0, fst r2 = Some k0 -> P k0).
  { unfold r2. destruct (negb (key_truthy (fst r1))); [|exact H1].
    unfold match_fuzzy.
    destruct (Qle_bool _ _); [|exact H1].
    cbn [fst]. intros k0 Hk0. eapply fuzzy_best_key; eauto. }
  destruct (negb (key_truthy (fst r2)) && year_truthy (ref_year ref)); [|apply H2].
  unfold match_author_year.
  destruct (key_truthy _ && Qle_bool _ _); [|apply H2].
  cbn [fst]. intro Hk.
  apply (author_year_fold_key P ratio ref bib (0%Q, None)); auto.
  - cbn. discriminate.
  - intros ke Hke. unfold P. now apply in_map.
Qed.

(* --------------------------------------------------------------------- *)
(** ** What the builder collects                                           *)
(* --------------------------------------------------------------------- *)

(** One reference entry: the [KeyError] cannot happen when the matched
    key is a key of the bibliography. *)
Lemma collect_match_step (bib : dict string bib_entry) slug cur c ref bk meth :
  (forall k, bk = Some k -> In k (dict_keys bib)) ->
  exists entry urls,
    collect_match bib slug (Some (cur, c)) (ref, bk, meth)
    = Some (dict_set (Py.str_of_Z (ref_num ref))
                     (assigned_key slug (ref, bk, meth)) cur,
            {| chapter_map := chapter_map c;
               all_matches := dict_set (assigned_key slug (ref, bk, meth)) entry
                                       (all_matches c);
               html_urls := urls |}).
Proof.
  intro Hbib. unfold collect_match.
  destruct (key_truthy bk) eqn:Ht.
  - destruct bk as [k|]; [|discriminate]. simpl in Ht.
    cbn [assigned_key]. rewrite Ht.
    assert (Hin : In k (dict_keys bib)) by (now apply Hbib).
    apply dict_get_In in Hin.
    destruct (dict_get k bib) as [entry|]; [|congruence].
    eexists _, _. reflexivity.
  - eexists _, _. reflexivity.
Qed.

(** The loop over the reference entries of one document. *)
Lemma collect_refs_fold ratio (bib : dict string bib_entry) slug refs :
  forall cur c,
  exists cur' c',
    fold_left (collect_match bib slug) (match_refs_to_bib ratio refs bib)
              (Some (cur, c)) = Some (cur', c')
    /\ chapter_map c' = chapter_map c
    /\ (NoDup (dict_keys (all_matches c)) -> NoDup (dict_keys (all_matches c')))
    /\ (forall k, In k (dict_keys (all_matches c'))
                  <-> In k (dict_keys (all_matches c))
                      \/ exists ref, In ref refs /\ ref_key ratio bib slug ref = k)
    /\ (forall v, In v (dict_values cur') ->
                  In v (dict_values cur)
                  \/ exists ref, In ref refs /\ ref_key ratio bib slug ref = v).
Proof.
  unfold match_refs_to_bib.
  induction refs as [|ref refs IH]; intros cur c; cbn [map fold_left].
  - exists cur, c. split; [reflexivity|]. split; [reflexivity|].
    split; [auto|]. split; [|auto].
    intro k. split; [auto|]. intros [H|[ref [[] _]]]. exact H.
  - set (r := match_ref ratio bib (build_indices bib) ref).
    destruct (collect_match_step bib slug cur c ref (fst r) (snd r))
      as [entry [urls Hstep]].
    { intros k Hk. eapply match_ref_key. exact Hk. }
    rewrite Hstep.
    change (assigned_key slug (ref, fst r, snd r))
      with (ref_key ratio bib slug ref) in *.
    destruct (IH (dict_set (Py.str_of_Z (ref_num ref))
                           (ref_key ratio bib slug ref) cur)
                 {| chapter_map := chapter_map c;
                    all_matches := dict_set (ref_key ratio bib slug ref) entry
                                            (all_matches c);
                    html_urls := urls |})
      as [cur' [c' [Hfold [Hcm [Hnd [Hkeys Hvals]]]]]].
    cbn [chapter_map all_matches] in *.
    exists cur', c'. split; [exact Hfold|]. split; [exact Hcm|].
    split; [|split].
    + intro H. apply Hnd. now apply dict_set_NoDup.
    + intro k. rewrite Hkeys, dict_keys_set_In. split.
      * intros [[->|H]|[ref' [Hin Hk]]].
        -- right. exists ref. split; [now left|reflexivity].
        -- now left.
        -- right. exists ref'. split; [now right|assumption].
      * intros [H|[ref' [[->|Hin] Hk]]].
        -- left. now right.
        -- left. left. now symmetry.
        -- right. exists ref'. split; assumption.
    + intros v Hv. apply Hvals in Hv as [Hv|[ref' [Hin Hk]]].
      * apply dict_values_set in Hv as [->|Hv].
        -- right. exists ref. split; [now left|reflexivity].
        -- now left.
      * right. exists ref'. split; [now right|assumption].
Qed.

Lemma collect_chapter_eq ratio (bib : dict string bib_entry) c0 slug refs :
  collect_chapter ratio bib (Some c0) (slug, refs)
  = match fold_left (collect_match bib slug) (match_refs_to_bib ratio refs bib)
            (Some (([] : dict string string), c0)) with
    | None => None
    | Some (cur, c') =>
        Some {| chapter_map := dict_set slug cur (chapter_map c');
                all_matches := all_matches c';
                html_urls := html_urls c' |}
    end.
Proof. reflexivity. Qed.

(** The loop over the documents. *)
Lemma collect_fold ratio (bib : dict string bib_entry) chapters :
  forall c0,
    NoDup (dict_keys (all_matches c0)) -> maps_total c0 ->
    exists c,
      fold_left (collect_chapter ratio bib) chapters (Some c0) = Some c
      /\ NoDup (dict_keys (all_matches c))
      /\ maps_total c
      /\ (forall k, In k (dict_keys (all_matches c))
                    <-> In k (dict_keys (all_matches c0))
                        \/ exists slug refs ref,
                             In (slug, refs) chapters /\ In ref refs
                             /\ ref_key ratio bib slug ref = k).
Proof.
  induction chapters as [|[slug refs] chapters IH]; intros c0 Hnd Htot;
    cbn [fold_left].
  - exists c0. repeat split; auto.
    intros [H|[slug [refs [ref [[] _]]]]]. exact H.
  - destruct (collect_refs_fold ratio bib slug refs [] c0)
      as [cur' [c' [Hfold [Hcm [Hnd' [Hkeys Hvals]]]]]].
    rewrite collect_chapter_eq, Hfold.
    set (c1 := {| chapter_map := dict_set slug cur' (chapter_map c');
                  all_matches := all_matches c';
                  html_urls := html_urls c' |}).
    destruct (IH c1) as [c [Hc [Hndc [Htotc Hkeysc]]]].
    + cbn. auto.
    + intros cmap v Hcmap Hv. cbn in Hcmap |- *.
      apply dict_values_set in Hcmap as [->|Hcmap].
      * apply Hkeys. apply Hvals in Hv as [[]|Hv]. now right.
      * apply Hkeys. left. rewrite Hcm in Hcmap. eapply Htot; eauto.
    + exists c. split; [exact Hc|]. split; [exact Hndc|]. split; [exact Htotc|].
      intro k. rewrite Hkeysc. cbn [all_matches c1]. rewrite Hkeys. split.
      * intros [[H|[ref [Hin Hk]]]|[s [rs [ref [Hch [Hin Hk]]]]]].
        -- now left.
        -- right. exists slug, refs, ref.
           split; [now left|split; assumption].
        -- right. exists s, rs, ref.
           split; [now right|split; assumption].
      * intros [H|[s [rs [ref [[Heq|Hch] [Hin Hk]]]]]].
        -- left. now left.
        -- injection Heq as <- <-. left. right. exists ref. split; assumption.
        -- right. exists s, rs, ref. split; [assumption|split; assumption].
Qed.

(** The builder always completes, and what it collects is described by
    the reference entries of the documents. *)
Lemma collect_total ratio (bib : dict string bib_entry) chapters :
  exists c,
    collect ratio bib chapters = Some c
    /\ NoDup (dict_keys (all_matches c))
    /\ maps_total c
    /\ (forall k, In k (dict_keys (all_matches c))
                  <-> exists slug refs ref,
                        In (slug, refs) chapters /\ In ref refs
                        /\ ref_key ratio bib slug ref = k).
Proof.
  destruct (collect_fold ratio bib chapters empty_collected)
    as [c [Hc [Hnd [Htot Hkeys]]]].
  - constructor.
  - intros cmap v [].
  - exists c. repeat split; auto.
    + intro H. apply Hkeys in H as [[]|H]. exact H.
    + intro H. apply Hkeys. now right.
Qed.

(* --------------------------------------------------------------------- *)
(** ** Merging into the prior stores                                       *)
(* --------------------------------------------------------------------- *)

Lemma dict_set_new {V : Type} (k : string) (v : V) (d : dict string V) :
  ~ In k (dict_keys d) -> dict_set k v d = (d ++ [(k, v)])%list.
Proof.
  induction d as [|[k' v'] d IH]; simpl; intro Hnot; [reflexivity|].
  destruct (String.eqb_spec k k') as [->|Hne]; [tauto|].
  rewrite IH; tauto.
Qed.

(** A loop of assignments to pairwise distinct new keys appends. *)
Lemma fold_set_map {A V : Type} (g : string * A -> V) (l : list (string * A)) :
  forall acc : dict string V,
    NoDup (dict_keys acc ++ dict_keys l) ->
    fold_left (fun r ke => dict_set (fst ke) (g ke) r) l acc
    = (acc ++ map (fun ke => (fst ke, g ke)) l)%list.
Proof.
  induction l as [|[k a] l IH]; intros acc Hnd; simpl.
  - now rewrite app_nil_r.
  - simpl in Hnd. rewrite dict_set_new.
    + rewrite IH.
      * now rewrite <- app_assoc.
      * unfold dict_keys in *. rewrite map_app. simpl.
        rewrite <- app_assoc. exact Hnd.
    + apply NoDup_remove_2 in Hnd. intro H. apply Hnd.
      apply in_or_app. now left.
Qed.

Lemma dict_get_map {A V : Type} (g : string * A -> V) (l : list (string * A)) k :
  dict_get k (map (fun ke => (fst ke, g ke)) l)
  = match dict_get k l with
    | Some a => Some (g (k, a))
    | None => None
    end.
Proof.
  induction l as [|[k' a] l IH]; simpl; [reflexivity|].
  destruct (String.eqb_spec k k') as [->|Hne]; [reflexivity|exact IH].
Qed.

Lemma dict_keys_map {A V : Type} (g : string * A -> V) (l : list (string * A)) :
  dict_keys (map (fun ke => (fst ke, g ke)) l) = dict_keys l.
Proof.
  unfold dict_keys. rewrite map_map. reflexivity.
Qed.

(** The references store, record by record. *)
Lemma build_references_map c existing :
  NoDup (dict_keys (all_matches c)) ->
  build_references c existing
  = map (fun ke => (fst ke, built_record c existing ke)) (all_matches c).
Proof.
  intro Hnd. unfold build_references.
  exact (fold_set_map (built_record c existing) (all_matches c) [] Hnd).
Qed.

Lemma dict_update_get_other {V : Type} (new : dict string V) : forall base f,
  ~ In f (dict_keys new) ->
  dict_get f (dict_update new base) = dict_get f base.
Proof.
  unfold dict_update.
  induction new as [|[f0 v0] new IH]; intros base f Hnot; simpl; [reflexivity|].
  simpl in Hnot. rewrite IH by tauto.
  apply dict_get_set_neq. intro; subst; tauto.
Qed.

Lemma dict_update_get_in {V : Type} (new : dict string V) : forall base f v,
  NoDup (dict_keys new) -> In (f, v) new ->
  dict_get f (dict_update new base) = Some v.
Proof.
  induction new as [|[f0 v0] new IH]; intros base f v Hnd Hin; [contradiction|].
  simpl in Hnd. inversion Hnd as [|? ? Hnot Hnd']; subst.
  change (dict_update ((f0, v0) :: new) base)
    with (dict_update new (dict_set f0 v0 base)).
  destruct Hin as [Heq|Hin].
  - inversion Heq; subst.
    rewrite dict_update_get_other by assumption. apply dict_get_set_eq.
  - now apply IH.
Qed.

(** Updating with the values a dict already has changes nothing. *)
Lemma dict_update_id {V : Type} (new : dict string V) : forall base,
  (forall f v, In (f, v) new -> dict_get f base = Some v) ->
  dict_update new base = base.
Proof.
  induction new as [|[f0 v0] new IH]; intros base H; [reflexivity|].
  change (dict_update ((f0, v0) :: new) base)
    with (dict_update new (dict_set f0 v0 base)).
  rewrite dict_set_same by (apply H; now left).
  apply IH. intros f v Hin. apply H. now right.
Qed.

Section Merge.
Variables (fields base : record).
Hypothesis fields_distinct : NoDup (dict_keys fields).
Hypothesis no_screenshot : ~ In "screenshot" (dict_keys fields).

Lemma merge_get_core f v :
  In (f, v) fields -> dict_get f (merge_record fields base) = Some v.
Proof.
  intro Hin. unfold merge_record.
  assert (Hne : "screenshot" <> f).
  { intros <-. apply no_screenshot.
    change "screenshot" with (fst ("screenshot", v)). now apply in_map. }
  destruct (dict_mem "screenshot" (dict_update fields base)).
  - now apply dict_update_get_in.
  - rewrite dict_get_set_neq by assumption. now apply dict_update_get_in.
Qed.

Lemma merge_get_other f :
  ~ In f (dict_keys fields) -> f <> "screenshot" ->
  dict_get f (merge_record fields base) = dict_get f base.
Proof.
  intros Hnot Hne. unfold merge_record.
  destruct (dict_mem "screenshot" (dict_update fields base)).
  - now apply dict_update_get_other.
  - rewrite dict_get_set_neq by congruence. now apply dict_update_get_other.
Qed.

Lemma merge_get_screenshot :
  dict_get "screenshot" (merge_record fields base)
  = match dict_get "screenshot" base with
    | Some v => Some v
    | None => Some JNull
    end.
Proof.
  unfold merge_record, dict_mem.
  pose proof (dict_update_get_other fields base "screenshot" no_screenshot) as H.
  destruct (dict_get "screenshot" (dict_update fields base)) as [v|] eqn:E.
  - rewrite E, <- H. reflexivity.
  - rewrite dict_get_set_eq, <- H. reflexivity.
Qed.

(** When the prior record has a screenshot field, the merge is the plain
    update. *)
Lemma merge_with_screenshot v :
  dict_get "screenshot" base = Some v ->
  merge_record fields base = dict_update fields base.
Proof.
  intro Hs. unfold merge_record, dict_mem.
  rewrite (dict_update_get_other fields base "screenshot" no_screenshot), Hs.
  reflexivity.
Qed.

(** Merging the same fields a second time changes nothing. *)
Lemma merge_idem :
  merge_record fields (merge_record fields base) = merge_record fields base.
Proof.
  set (m := merge_record fields base).
  assert (Hupd : dict_update fields m = m).
  { apply dict_update_id. intros f v Hin. now apply merge_get_core. }
  unfold merge_record at 1. rewrite Hupd. unfold dict_mem, m.
  rewrite merge_get_screenshot.
  destruct (dict_get "screenshot" base); reflexivity.
Qed.

End Merge.

Lemma core_fields_keys urls k entry :
  dict_keys (core_fields urls k entry) = authoritative_fields.
Proof. reflexivity. Qed.

Lemma authoritative_fields_distinct : NoDup authoritative_fields.
Proof.
  unfold authoritative_fields.
  repeat constructor; simpl; intuition discriminate.
Qed.

Lemma screenshot_not_authoritative : ~ In "screenshot" authoritative_fields.
Proof. unfold authoritative_fields. simpl. intuition discriminate. Qed.

(** The record of a collected key in the output store. *)
Lemma build_references_get c existing k entry :
  NoDup (dict_keys (all_matches c)) ->
  dict_get k (all_matches c) = Some entry ->
  dict_get k (build_references c existing)
  = Some (built_record c existing (k, entry)).
Proof.
  intros Hnd Hk. rewrite build_references_map by assumption.
  rewrite (dict_get_map (built_record c existing)), Hk. reflexivity.
Qed.

Lemma build_references_keys c existing :
  NoDup (dict_keys (all_matches c)) ->
  dict_keys (build_references c existing) = dict_keys (all_matches c).
Proof.
  intro Hnd. rewrite build_references_map by assumption.
  apply (dict_keys_map (built_record c existing)).
Qed.

(** A second build over the output of the first gives the same
    references. *)
Lemma build_references_idem c existing :
  NoDup (dict_keys (all_matches c)) ->
  build_references c (build_references c existing) = build_references c existing.
Proof.
  intro Hnd.
  rewrite (build_references_map c (build_references c existing) Hnd).
  etransitivity; [|symmetry; apply (build_references_map c existing Hnd)].
  apply map_ext_in. intros [k entry] Hin. cbn [fst]. f_equal.
  unfold built_record, prior_record. cbn [fst snd].
  rewrite (build_references_get c existing k entry Hnd)
    by (now apply dict_In_get).
  unfold built_record, prior_record. cbn [fst snd].
  apply merge_idem.
  - rewrite core_fields_keys. apply authoritative_fields_distinct.
  - rewrite core_fields_keys. apply screenshot_not_authoritative.
Qed.

(* --------------------------------------------------------------------- *)
(** ** The authors store                                                   *)
(* --------------------------------------------------------------------- *)

Lemma build_authors_flat c existing :
  build_authors c existing
  = fold_left (add_author existing) (all_authors c) [].
Proof.
  unfold build_authors, all_authors. symmetry.
  apply (fold_left_flat_map (add_author existing)
           (fun ke => parse_bib_authors (get_str "author" (snd ke)))).
Qed.

Lemma add_author_eq existing authors fl :
  add_author existing authors fl
  = if Py.nonempty (make_author_key (fst fl) (snd fl))
       && negb (dict_mem (make_author_key (fst fl) (snd fl)) authors)
    then dict_set (make_author_key (fst fl) (snd fl))
                  (author_record existing fl) authors
    else authors.
Proof.
  unfold add_author, author_record.
  destruct (_ && _); [|reflexivity].
  destruct (dict_get _ existing); reflexivity.
Qed.

Lemma author_record_display existing fl :
  dict_get "displayName" (author_record existing fl)
  = Some (JStr (make_display_name (fst fl) (snd fl))).
Proof.
  unfold author_record. destruct (dict_get _ existing).
  - apply dict_get_set_eq.
  - reflexivity.
Qed.

(** The store only grows: a stored record is never touched again. *)
Lemma add_author_keeps existing authors fl k v :
  dict_get k authors = Some v ->
  dict_get k (add_author existing authors fl) = Some v.
Proof.
  intro Hk. rewrite add_author_eq.
  destruct (Py.nonempty _ && negb (dict_mem _ authors)) eqn:Hg; [|assumption].
  apply andb_true_iff in Hg as [_ Hnew]. apply negb_true_iff in Hnew.
  rewrite dict_get_set_neq; [assumption|].
  intros <-. unfold dict_mem in Hnew. now rewrite Hk in Hnew.
Qed.

Lemma authors_fold_keeps existing pairs : forall authors k v,
  dict_get k authors = Some v ->
  dict_get k (fold_left (add_author existing) pairs authors) = Some v.
Proof.
  induction pairs as [|fl pairs IH]; intros authors k v Hk; simpl; [assumption|].
  apply IH. now apply add_author_keeps.
Qed.

Lemma add_author_mem existing authors fl :
  Py.nonempty (make_author_key (fst fl) (snd fl)) = true ->
  dict_mem (make_author_key (fst fl) (snd fl)) (add_author existing authors fl)
  = true.
Proof.
  intro Hne. rewrite add_author_eq, Hne. simpl.
  destruct (dict_mem _ authors) eqn:Hm; simpl; [assumption|].
  unfold dict_mem. now rewrite dict_get_set_eq.
Qed.

Lemma dict_mem_get {V : Type} (k : string) (d : dict string V) :
  dict_mem k d = true <-> exists v, dict_get k d = Some v.
Proof.
  unfold dict_mem. destruct (dict_get k d) as [v|].
  - split; eauto.
  - split; [discriminate|]. intros [v H]. discriminate.
Qed.

(** Every author with a non-empty key ends up in the store. *)
Lemma authors_fold_mem existing pairs : forall authors fl,
  In fl pairs ->
  Py.nonempty (make_author_key (fst fl) (snd fl)) = true ->
  dict_mem (make_author_key (fst fl) (snd fl))
           (fold_left (add_author existing) pairs authors) = true.
Proof.
  induction pairs as [|fl0 pairs IH]; intros authors fl Hin Hne; [contradiction|].
  simpl. destruct Hin as [->|Hin].
  - pose proof (add_author_mem existing authors fl Hne) as Hm.
    apply dict_mem_get in Hm as [v Hv]. apply dict_mem_get. exists v.
    now apply authors_fold_keeps.
  - now apply IH.
Qed.

(** A step of the second run repeats the step of the first, when the
    prior store of the second run extends what the first run stores. *)
Lemma add_author_again existing0 prior authors fl :
  (forall k v, dict_get k (add_author existing0 authors fl) = Some v ->
               dict_get k prior = Some v) ->
  add_author prior authors fl = add_author existing0 authors fl.
Proof.
  intro Hext. rewrite !add_author_eq.
  destruct (Py.nonempty _ && negb (dict_mem _ authors)) eqn:Hg; [|reflexivity].
  f_equal.
  assert (Hprior : dict_get (make_author_key (fst fl) (snd fl)) prior
                   = Some (author_record existing0 fl)).
  { apply Hext. rewrite add_author_eq, Hg. apply dict_get_set_eq. }
  unfold author_record at 1. rewrite Hprior.
  apply dict_set_same. apply author_record_display.
Qed.

Lemma authors_fold_again existing0 pairs : forall authors prior,
  (forall k v,
      dict_get k (fold_left (add_author existing0) pairs authors) = Some v ->
      dict_get k prior = Some v) ->
  fold_left (add_author prior) pairs authors
  = fold_left (add_author existing0) pairs authors.
Proof.
  induction pairs as [|fl pairs IH]; intros authors prior Hext; [reflexivity|].
  simpl in *. rewrite (add_author_again existing0 prior authors fl).
  - now apply IH.
  - intros k v Hk. apply Hext. now apply authors_fold_keeps.
Qed.

(** A second build over the output of the first gives the same authors. *)
Lemma build_authors_idem c existing :
  build_authors c (build_authors c existing) = build_authors c existing.
Proof.
  rewrite (build_authors_flat c (build_authors c existing)).
  rewrite (build_authors_flat c existing) at 2.
  apply authors_fold_again. intros k v Hk.
  now rewrite build_authors_flat.
Qed.

Lemma flat_map_JStr l :
  flat_map (fun j => match j with JStr s => [s] | _ => [] end) (map JStr l) = l.
Proof.
  induction l as [|s l IH]; simpl; [reflexivity|]. now rewrite IH.
Qed.

(** The author keys listed in the record of a collected entry. *)
Lemma built_record_authors c existing k entry :
  json_str_list_field "authors" (built_record c existing (k, entry))
  = author_keys_of entry.
Proof.
  unfold json_str_list_field, built_record. cbn [fst snd].
  rewrite (merge_get_core _ _ ) with (v := JArr (map JStr (author_keys_of entry))).
  - apply flat_map_JStr.
  - rewrite core_fields_keys. apply authoritative_fields_distinct.
  - rewrite core_fields_keys. apply screenshot_not_authoritative.
  - unfold core_fields. simpl. auto.
Qed.

(* --------------------------------------------------------------------- *)
(** ** The builder: key set, totality, merge and idempotence               *)
(* --------------------------------------------------------------------- *)

Lemma build_databases_eq ratio bib_text chapters existing_refs existing_authors c :
  collect ratio (parse_bibtex bib_text) chapters = Some c ->
  build_databases ratio bib_text chapters existing_refs existing_authors
  = Some (chapter_map c, build_references c existing_refs,
          build_authors c existing_authors).
Proof. unfold build_databases. now intros ->. Qed.

(** C10.  The builder completes, and the keys of the references store it
    writes are exactly the keys matched or synthesized for the reference
    entries of the current documents: a record of the prior store whose
    key no current entry is filed under is absent from the output,
    enrichment included. *)
Theorem references_keys_are_current_keys :
  forall (ratio : string -> string -> Q) (bib_text : string)
         (chapters : list (string * list html_ref))
         (existing_refs existing_authors : dict string record),
  exists cm refs authors,
    build_databases ratio bib_text chapters existing_refs existing_authors
    = Some (cm, refs, authors)
    /\ (forall k,
          In k (dict_keys refs)
          <-> exists slug rs ref,
                In (slug, rs) chapters /\ In ref rs
                /\ ref_key ratio (parse_bibtex bib_text) slug ref = k)
    /\ (forall k prior,
          dict_get k existing_refs = Some prior ->
          ~ (exists slug rs ref,
               In (slug, rs) chapters /\ In ref rs
               /\ ref_key ratio (parse_bibtex bib_text) slug ref = k) ->
          dict_get k refs = None).
Proof.
  intros ratio bib_text chapters existing_refs existing_authors.
  destruct (collect_total ratio (parse_bibtex bib_text) chapters)
    as [c [Hc [Hnd [Htot Hkeys]]]].
  exists (chapter_map c), (build_references c existing_refs),
         (build_authors c existing_authors).
  split; [now apply build_databases_eq|].
  assert (Hk : forall k,
             In k (dict_keys (build_references c existing_refs))
             <-> exists slug rs ref,
                   In (slug, rs) chapters /\ In ref rs
                   /\ ref_key ratio (parse_bibtex bib_text) slug ref = k).
  { intro k. rewrite build_references_keys by assumption. apply Hkeys. }
  split; [exact Hk|].
  intros k prior _ Hnot.
  destruct (dict_get k (build_references c existing_refs)) as [r|] eqn:E;
    [|reflexivity].
  exfalso. apply Hnot, Hk, dict_get_In. congruence.
Qed.

(** C8, counterexample to the claim as stated.  A record whose author
    field holds a name without a letter or digit lists the empty author
    key, and the authors store has no such key. *)
Lemma empty_author_key_is_not_stored :
  build_databases no_similarity anon_bib_text [("index", [anon_ref])] [] []
  = Some ([("index", [("1", "anon2021")])],
          [("anon2021",
            [("title", JStr "Field notes");
             ("authors", JArr [JStr "roe_ann"; JStr EmptyString]);
             ("year", JInt 2021); ("venue", JNull); ("venueShort", JNull);
             ("url", JStr "https://example.org/notes");
             ("doi", JNull); ("type", JStr "journal");
             ("screenshot", JNull)])],
          [("roe_ann",
            [("displayName", JStr "Ann Roe"); ("affiliation", JNull);
             ("headshot", JNull); ("links", JObj [])])])
  /\ dict_mem EmptyString
       [("roe_ann",
         [("displayName", JStr "Ann Roe"); ("affiliation", JNull);
          ("headshot", JNull); ("links", JObj [])])] = false.
Proof. split; vm_compute; reflexivity. Qed.

(** C8, as amended.  The builder completes and its stores are total:
    every value of every chapter map is a key of the references store,
    and every non-empty author key listed in a record of the references
    store is a key of the authors store. *)
Theorem stores_referentially_total :
  forall (ratio : string -> string -> Q) (bib_text : string)
         (chapters : list (string * list html_ref))
         (existing_refs existing_authors : dict string record),
  exists cm refs authors,
    build_databases ratio bib_text chapters existing_refs existing_authors
    = Some (cm, refs, authors)
    /\ (forall slug cmap num key,
          dict_get slug cm = Some cmap -> dict_get num cmap = Some key ->
          dict_mem key refs = true)
    /\ (forall k rec a,
          dict_get k refs = Some rec ->
          In a (json_str_list_field "authors" rec) ->
          a <> EmptyString ->
          dict_mem a authors = true).
Proof.
  intros ratio bib_text chapters existing_refs existing_authors.
  destruct (collect_total ratio (parse_bibtex bib_text) chapters)
    as [c [Hc [Hnd [Htot Hkeys]]]].
  exists (chapter_map c), (build_references c existing_refs),
         (build_authors c existing_authors).
  split; [now apply build_databases_eq|]. split.
  - intros slug cmap num key Hslug Hnum.
    apply dict_mem_In. rewrite build_references_keys by assumption.
    apply (Htot cmap key); eapply dict_get_value; eauto.
  - intros k rec a Hk Ha Hne.
    rewrite build_references_map in Hk by assumption.
    rewrite (dict_get_map (built_record c existing_refs)) in Hk.
    destruct (dict_get k (all_matches c)) as [entry|] eqn:Hentry; [|discriminate].
    inversion Hk; subst rec. rewrite built_record_authors in Ha.
    unfold author_keys_of in Ha. apply in_map_iff in Ha as [fl [Hfl Hin]].
    subst a. rewrite build_authors_flat. apply authors_fold_mem.
    + unfold all_authors. apply in_flat_map. exists (k, entry).
      split; [now apply dict_get_Some_In|exact Hin].
    + destruct (make_author_key (fst fl) (snd fl)); [congruence|reflexivity].
Qed.

(** A key the prior store does not have gets the eight computed fields
    and a null screenshot. *)
Lemma core_fields_fresh urls k entry :
  merge_record (core_fields urls k entry) []
  = (core_fields urls k entry ++ [("screenshot", JNull)])%list.
Proof. reflexivity. Qed.

(** A prior record with a screenshot field is only updated. *)
Lemma merge_keeps_screenshot fields base :
  ~ In "screenshot" (dict_keys fields) ->
  dict_mem "screenshot" base = true ->
  merge_record fields base = dict_update fields base.
Proof.
  intros Hs Hm. unfold merge_record, dict_mem in *.
  rewrite (dict_update_get_other _ _ "screenshot" Hs).
  destruct (dict_get "screenshot" base); [reflexivity|discriminate].
Qed.

(** C5.  Let every record of the prior references store have a
    screenshot field, as the data model of the stores requires.  Then for
    every key of the output references store the eight fields the builder
    computes hold the freshly computed values, and: when the prior store
    has the key, the output record is the prior record updated with these
    eight fields, so that every other field of the prior record, the
    screenshot and any unknown enrichment field, is carried over with its
    value unchanged; when the prior store does not have the key, the
    record is created with the eight fields and a null screenshot, the
    only field that is initialized to null. *)
Theorem merge_preserves_other_fields :
  forall (ratio : string -> string -> Q) (bib_text : string)
         (chapters : list (string * list html_ref))
         (existing_refs existing_authors : dict string record)
         (cm : dict string (dict string string)) (refs authors : dict string record)
         (k : string) (merged : record),
    (forall key prior,
        dict_get key existing_refs = Some prior ->
        dict_mem "screenshot" prior = true) ->
    build_databases ratio bib_text chapters existing_refs existing_authors
    = Some (cm, refs, authors) ->
    dict_get k refs = Some merged ->
    exists c entry,
      collect ratio (parse_bibtex bib_text) chapters = Some c
      /\ dict_get k (all_matches c) = Some entry
      /\ (forall f v, In (f, v) (core_fields (html_urls c) k entry) ->
                      dict_get f merged = Some v)
      /\ match dict_get k existing_refs with
         | Some prior =>
             merged = dict_update (core_fields (html_urls c) k entry) prior
             /\ (forall f, ~ In f authoritative_fields ->
                           dict_get f merged = dict_get f prior)
         | None =>
             merged
             = (core_fields (html_urls c) k entry ++ [("screenshot", JNull)])%list
         end.
Proof.
  intros ratio bib_text chapters existing_refs existing_authors cm refs authors
         k merged Hmodel Hbuild Hk.
  destruct (collect_total ratio (parse_bibtex bib_text) chapters)
    as [c [Hc [Hnd [Htot Hkeys]]]].
  rewrite (build_databases_eq _ _ _ _ _ _ Hc) in Hbuild.
  inversion Hbuild; subst cm refs authors. clear Hbuild.
  rewrite build_references_map in Hk by assumption.
  rewrite (dict_get_map (built_record c existing_refs)) in Hk.
  destruct (dict_get k (all_matches c)) as [entry|] eqn:Hentry; [|discriminate].
  inversion Hk; subst merged. clear Hk.
  exists c, entry. split; [assumption|]. split; [exact Hentry|].
  unfold built_record, prior_record. cbn [fst snd].
  assert (Hd : NoDup (dict_keys (core_fields (html_urls c) k entry)))
    by (rewrite core_fields_keys; apply authoritative_fields_distinct).
  assert (Hs : ~ In "screenshot" (dict_keys (core_fields (html_urls c) k entry)))
    by (rewrite core_fields_keys; apply screenshot_not_authoritative).
  split.
  - intros f v Hin. now apply merge_get_core.
  - destruct (dict_get k existing_refs) as [prior|] eqn:Hprior.
    + rewrite (merge_keeps_screenshot _ _ Hs (Hmodel _ _ Hprior)). split; [reflexivity|].
      intros f Hf. apply dict_update_get_other. now rewrite core_fields_keys.
    + apply core_fields_fresh.
Qed.

(** Every record of the example prior store has a screenshot field. *)
Lemma prior_with_screenshot_model :
  forall key prior,
    dict_get key prior_with_screenshot = Some prior ->
    dict_mem "screenshot" prior = true.
Proof.
  intros key prior H. unfold prior_with_screenshot in H. cbn [dict_get] in H.
  destruct (key_eqb key "smithNonefoo"); [now inversion H|].
  destruct (key_eqb key "gone1999"); [now inversion H|discriminate].
Qed.

Lemma merge_preserves_other_fields_witness :
  exists c entry,
    collect no_similarity (parse_bibtex EmptyString) [("index", [yearless_ref])]
    = Some c
    /\ dict_get "smithNonefoo" (all_matches c) = Some entry
    /\ (forall f v,
          In (f, v) (core_fields (html_urls c) "smithNonefoo" entry) ->
          dict_get f
            [("title", JStr "The Foo of Bar");
             ("screenshot", JStr "shots/smith.png"); ("note", JStr "checked");
             ("authors", JArr [JStr "smith_j"]); ("year", JStr EmptyString);
             ("venue", JNull); ("venueShort", JNull); ("url", JNull);
             ("doi", JNull); ("type", JStr "misc")] = Some v)
    /\ match dict_get "smithNonefoo" prior_with_screenshot with
       | Some prior =>
           [("title", JStr "The Foo of Bar");
            ("screenshot", JStr "shots/smith.png"); ("note", JStr "checked");
            ("authors", JArr [JStr "smith_j"]); ("year", JStr EmptyString);
            ("venue", JNull); ("venueShort", JNull); ("url", JNull);
            ("doi", JNull); ("type", JStr "misc")]
           = dict_update (core_fields (html_urls c) "smithNonefoo" entry) prior
           /\ (forall f, ~ In f authoritative_fields ->
                 dict_get f
                   [("title", JStr "The Foo of Bar");
                    ("screenshot", JStr "shots/smith.png");
                    ("note", JStr "checked");
                    ("authors", JArr [JStr "smith_j"]);
                    ("year", JStr EmptyString);
                    ("venue", JNull); ("venueShort", JNull); ("url", JNull);
                    ("doi", JNull); ("type", JStr "misc")]
                 = dict_get f prior)
       | None =>
           [("title", JStr "The Foo of Bar");
            ("screenshot", JStr "shots/smith.png"); ("note", JStr "checked");
            ("authors", JArr [JStr "smith_j"]); ("year", JStr EmptyString);
            ("venue", JNull); ("venueShort", JNull); ("url", JNull);
            ("doi", JNull); ("type", JStr "misc")]
           = (core_fields (html_urls c) "smithNonefoo" entry
              ++ [("screenshot", JNull)])%list
       end.
Proof.
  apply (merge_preserves_other_fields no_similarity EmptyString
           [("index", [yearless_ref])] prior_with_screenshot []
           [("index", [("4", "smithNonefoo")])]
           [("smithNonefoo",
             [("title", JStr "The Foo of Bar");
              ("screenshot", JStr "shots/smith.png"); ("note", JStr "checked");
              ("authors", JArr [JStr "smith_j"]); ("year", JStr EmptyString);
              ("venue", JNull); ("venueShort", JNull); ("url", JNull);
              ("doi", JNull); ("type", JStr "misc")])]
           [("smith_j",
             [("displayName", JStr "J. Smith"); ("affiliation", JNull);
              ("headshot", JNull); ("links", JObj [])])]
           "smithNonefoo").
  - exact prior_with_screenshot_model.
  - vm_compute. reflexivity.
  - vm_compute. reflexivity.
Defined.

(** C4.  The builder completes, and a second run over the same sources
    that takes the stores written by the first run as its prior stores
    writes the same three stores again. *)
Theorem build_databases_idempotent :
  forall (ratio : string -> string -> Q) (bib_text : string)
         (chapters : list (string * list html_ref))
         (existing_refs existing_authors : dict string record),
  exists cm refs authors,
    build_databases ratio bib_text chapters existing_refs existing_authors
    = Some (cm, refs, authors)
    /\ build_databases ratio bib_text chapters refs authors
       = Some (cm, refs, authors).
Proof.
  intros ratio bib_text chapters existing_refs existing_authors.
  destruct (collect_total ratio (parse_bibtex bib_text) chapters)
    as [c [Hc [Hnd _]]].
  exists (chapter_map c), (build_references c existing_refs),
         (build_authors c existing_authors).
  split; [now apply build_databases_eq|].
  rewrite (build_databases_eq _ _ _ _ _ _ Hc).
  now rewrite build_references_idem, build_authors_idem.
Qed.

(* --------------------------------------------------------------------- *)
(** ** Sorted sets and numbering                                           *)
(* --------------------------------------------------------------------- *)

Lemma mem_Z_In n l : mem_Z n l = true <-> In n l.
Proof.
  unfold mem_Z. rewrite existsb_exists. split.
  - intros [x [Hin Heq]]. apply Z.eqb_eq in Heq. now subst.
  - intro Hin. exists n. split; [assumption|apply Z.eqb_refl].
Qed.

Lemma mem_Z_false n l : mem_Z n l = false <-> ~ In n l.
Proof.
  rewrite <- mem_Z_In. destruct (mem_Z n l); split; congruence.
Qed.

Lemma insert_uniq_In x y l : In x (insert_uniq y l) <-> x = y \/ In x l.
Proof.
  induction l as [|z l IH]; simpl.
  - intuition.
  - destruct (Z.ltb_spec y z); simpl; [intuition|].
    destruct (Z.eqb_spec y z); simpl.
    + subst. intuition.
    + rewrite IH. intuition.
Qed.

Lemma insert_uniq_sorted x l :
  StronglySorted Z.lt l -> StronglySorted Z.lt (insert_uniq x l).
Proof.
  induction 1 as [|z l Hs IH Hall]; simpl.
  - repeat constructor.
  - destruct (Z.ltb_spec x z).
    + constructor; [now constructor|].
      constructor; [assumption|].
      eapply Forall_impl; [|exact Hall]. intros; simpl in *; lia.
    + destruct (Z.eqb_spec x z); [now constructor|].
      constructor; [assumption|].
      apply Forall_forall. intros w Hw. apply insert_uniq_In in Hw as [->|Hw].
      * lia.
      * rewrite Forall_forall in Hall. auto.
Qed.

Lemma sorted_set_In x l : In x (sorted_set l) <-> In x l.
Proof.
  induction l as [|y l IH]; simpl; [tauto|].
  rewrite insert_uniq_In, IH. intuition.
Qed.

Lemma sorted_set_sorted l : StronglySorted Z.lt (sorted_set l).
Proof.
  induction l; simpl; [constructor|now apply insert_uniq_sorted].
Qed.

Lemma sorted_diff_In x a b :
  In x (sorted_diff a b) <-> In x a /\ mem_Z x b = false.
Proof.
  unfold sorted_diff. rewrite sorted_set_In, filter_In.
  now rewrite negb_true_iff.
Qed.

Lemma strictly_sorted_NoDup l : StronglySorted Z.lt l -> NoDup l.
Proof.
  induction 1 as [|z l Hs IH Hall]; constructor; [|assumption].
  intro Hin. rewrite Forall_forall in Hall. specialize (Hall _ Hin). lia.
Qed.

(** [number_from] gives the i-th element (from 0) the number start + i. *)
Lemma number_from_nth l : forall start i,
  NoDup l -> (i < List.length l)%nat ->
  dict_get (nth i l 0) (number_from start l) = Some (start + Z.of_nat i).
Proof.
  induction l as [|x l IH]; intros start i Hnd Hi; simpl in *; [lia|].
  inversion Hnd as [|? ? Hnot Hnd']; subst.
  destruct i as [|i].
  - rewrite Z.eqb_refl. f_equal. lia.
  - destruct (Z.eqb_spec (nth i l 0) x) as [Heq|Hne].
    + exfalso. apply Hnot. rewrite <- Heq. apply nth_In. lia.
    + rewrite IH by (auto; lia). f_equal. lia.
Qed.

Lemma number_from_get l : forall start n v,
  dict_get n (number_from start l) = Some v ->
  In n l /\ start <= v < start + Z.of_nat (List.length l).
Proof.
  induction l as [|x l IH]; intros start n v; simpl; [discriminate|].
  destruct (Z.eqb_spec n x) as [->|Hne].
  - intro H; inversion H; subst. split; [auto|lia].
  - intro H. apply IH in H as [Hin Hr]. split; [auto|lia].
Qed.

Lemma number_from_In l : forall start n,
  In n l -> exists v, dict_get n (number_from start l) = Some v.
Proof.
  induction l as [|x l IH]; intros start n; simpl; [tauto|].
  intros [->|Hin].
  - rewrite Z.eqb_refl. eauto.
  - destruct (n =? x); eauto.
Qed.

Lemma number_from_keys l : forall start, dict_keys (number_from start l) = l.
Proof.
  induction l as [|x l IH]; intro start; simpl; [reflexivity|].
  f_equal. apply IH.
Qed.

(** The least element, as [min] computes it. *)
Lemma list_min_spec l : forall hd,
  In (list_min hd l) (hd :: l) /\ forall m, In m (hd :: l) -> list_min hd l <= m.
Proof.
  unfold list_min. induction l as [|x l IH]; intro hd; simpl.
  - split; [auto|]. intros m [->|[]]. lia.
  - destruct (IH (Z.min hd x)) as [Hin Hle]. split.
    + destruct Hin as [Heq|Hin]; [|auto].
      rewrite <- Heq. destruct (Z.min_spec hd x) as [[_ ->]|[_ ->]]; auto.
    + intros m [->|[->|Hm]].
      * specialize (Hle (Z.min m x) (or_introl eq_refl)). lia.
      * specialize (Hle (Z.min hd m) (or_introl eq_refl)). lia.
      * apply Hle. now right.
Qed.

(* --------------------------------------------------------------------- *)
(** ** The messages and the completion status of the auditor               *)
(* --------------------------------------------------------------------- *)

(** The messages of the steps of a run. *)
Lemma issues_errors_for ms : forall st,
  issues (errors_for ms st) = (issues st ++ ms)%list.
Proof.
  unfold errors_for. induction ms as [|m ms IH]; intro st; simpl.
  - now rewrite app_nil_r.
  - rewrite IH. simpl. now rewrite <- app_assoc.
Qed.

Lemma issues_warns_for ms : forall st, issues (warns_for ms st) = issues st.
Proof.
  unfold warns_for. induction ms as [|m ms IH]; intro st; simpl;
    [reflexivity|]. now rewrite IH.
Qed.

Lemma warnings_errors_for ms : forall st,
  warnings (errors_for ms st) = warnings st.
Proof.
  unfold errors_for. induction ms as [|m ms IH]; intro st; simpl;
    [reflexivity|]. now rewrite IH.
Qed.

Lemma warnings_warns_for ms : forall st,
  warnings (warns_for ms st) = (warnings st ++ ms)%list.
Proof.
  unfold warns_for. induction ms as [|m ms IH]; intro st; simpl.
  - now rewrite app_nil_r.
  - rewrite IH. simpl. now rewrite <- app_assoc.
Qed.

Lemma bib_keys_errors_for ms : forall st,
  referenced_bib_keys (errors_for ms st) = referenced_bib_keys st.
Proof.
  unfold errors_for. induction ms as [|m ms IH]; intro st; simpl;
    [reflexivity|]. now rewrite IH.
Qed.

Lemma bib_keys_warns_for ms : forall st,
  referenced_bib_keys (warns_for ms st) = referenced_bib_keys st.
Proof.
  unfold warns_for. induction ms as [|m ms IH]; intro st; simpl;
    [reflexivity|]. now rewrite IH.
Qed.

(** The outcome of the URL comparison, by the URL field of the record. *)
Lemma check_url_cases slug num html_url r st :
  check_url slug num html_url (url_or_empty r) st
  = if Py.is_empty html_url
       || match dict_get "url" r with
          | None | Some (JStr _) => true
          | Some j => negb (json_truthy (Some j))
          end
    then Some (warns_for
                 match dict_get "url" r with
                 | Some (JStr json_url) =>
                     if Py.nonempty html_url && Py.nonempty json_url
                        && negb (String.eqb (Py.lower (audit_url_norm html_url))
                                            (Py.lower (audit_url_norm json_url)))
                        && negb (Py.contains (Py.lower (audit_url_norm html_url))
                                             (Py.lower (audit_url_norm json_url)))
                        && negb (Py.contains (Py.lower (audit_url_norm json_url))
                                             (Py.lower (audit_url_norm html_url)))
                     then [Url_mismatch slug num (Py.take 60 html_url)
                                        (Py.take 60 json_url)]
                     else []
                 | _ => []
                 end st)
    else None.
Proof.
  unfold check_url, url_or_empty, Py.nonempty.
  destruct (Py.is_empty html_url) eqn:Eh; cbn [negb andb orb].
  - destruct (dict_get "url" r) as [[]|]; reflexivity.
  - destruct (dict_get "url" r) as [j|]; [|reflexivity].
    destruct j as [|b|z|u|l|d]; cbn [json_truthy negb];
      try reflexivity.
    + destruct b; reflexivity.
    + destruct (Z.eqb z 0) eqn:Ez; cbn [negb]; rewrite ?Ez; reflexivity.
    + unfold Py.nonempty. destruct (Py.is_empty u) eqn:Eu; cbn [negb andb].
      * reflexivity.
      * rewrite Eu. cbn [negb].
        match goal with
        | |- context [if ?c then _ else _] => destruct c
        end; reflexivity.
    + destruct l; reflexivity.
    + destruct d; reflexivity.
Qed.

(** A spot check that can be made adds the URL warning of its entry and
    nothing else to the messages; one that cannot be made raises. *)
Lemma spot_check_some slug p cm references st num :
  spot_checkable p cm references num = true ->
  exists st',
    spot_check slug p cm references st num = Some st'
    /\ issues st' = issues st
    /\ warnings st' = (warnings st ++ url_warning slug p cm references num)%list
    /\ referenced_bib_keys st' = referenced_bib_keys st.
Proof.
  unfold spot_checkable, spot_check, url_warning, checked_record.
  fold (html_url_of p num).
  destruct (dict_get num cm) as [bib_key|];
    [|intros _; exists st; now rewrite app_nil_r].
  destruct (Py.is_empty bib_key);
    [intros _; exists st; now rewrite app_nil_r|].
  destruct (dict_get bib_key references) as [r|];
    [|intros _; exists st; now rewrite app_nil_r].
  rewrite check_url_cases. intro H. apply andb_true_iff in H as [Hu Ha].
  rewrite Hu.
  assert (Hel : exists akeys, author_elements r = Some akeys).
  { unfold author_elements.
    destruct (dict_get "authors" r) as [[| | | |l|]|]; try discriminate;
      try (eexists; reflexivity).
    rewrite Ha. eexists; reflexivity. }
  destruct Hel as [akeys ->]. eexists. split; [reflexivity|].
  cbn [add_author_keys issues warnings referenced_bib_keys].
  rewrite issues_warns_for, warnings_warns_for, bib_keys_warns_for.
  split; [reflexivity|]. split; [|reflexivity].
  destruct (dict_get "url" r) as [[]|]; reflexivity.
Qed.


(** The spot checks of a document. *)
Lemma spot_checks_some slug p cm references : forall l st,
  (forall num, In num l -> spot_checkable p cm references num = true) ->
  exists st',
    try_fold (spot_check slug p cm references) l st = Some st'
    /\ issues st' = issues st
    /\ warnings st'
       = (warnings st ++ flat_map (url_warning slug p cm references) l)%list
    /\ referenced_bib_keys st' = referenced_bib_keys st.
Proof.
  induction l as [|num l IH]; intros st H.
  - exists st. cbn. now rewrite app_nil_r.
  - destruct (spot_check_some slug p cm references st num (H num (or_introl eq_refl)))
      as [st1 [E1 [I1 [W1 B1]]]].
    destruct (IH st1 (fun n Hn => H n (or_intror Hn))) as [st' [E [I [W B]]]].
    exists st'. cbn [try_fold flat_map]. rewrite E1.
    split; [exact E|]. split; [congruence|]. split; [|congruence].
    rewrite W, W1. now rewrite <- app_assoc.
Qed.


(** Check 5 of a document: the records its chapter map misses. *)
Lemma missing_records_fold slug (references : dict string record)
    (cm : chapter_nums) : forall st,
  let st' :=
    fold_left
      (fun s nk =>
         let s' := add_bib_key (snd nk) s in
         if dict_mem (snd nk) references then s'
         else error (Missing_record slug (fst nk) (snd nk)) s')
      cm st in
  issues st'
  = (issues st
     ++ map (fun nk => Missing_record slug (fst nk) (snd nk))
            (filter (fun nk => negb (dict_mem (snd nk) references)) cm))%list
  /\ warnings st' = warnings st
  /\ referenced_bib_keys st'
     = (rev (dict_values cm) ++ referenced_bib_keys st)%list.
Proof.
  induction cm as [|nk cm IH]; intro st; cbn zeta.
  - cbn. now rewrite app_nil_r.
  - cbn [fold_left filter dict_values map rev].
    destruct (IH (let s' := add_bib_key (snd nk) st in
                  if dict_mem (snd nk) references then s'
                  else error (Missing_record slug (fst nk) (snd nk)) s'))
      as [I [W B]].
    cbv zeta in *. rewrite I, W, B. unfold dict_values.
    destruct (dict_mem (snd nk) references); cbn;
      rewrite <- ?app_assoc; auto.
Qed.

(** The checks of one document, when its spot checks can be made. *)
Lemma audit_chapter_some chapter_map references st ch :
  (forall num, In num (ref_entries (snd ch)) ->
     spot_checkable (snd ch) (map_of chapter_map (fst ch)) references num = true) ->
  exists st',
    audit_chapter chapter_map references st ch = Some st'
    /\ issues st' = (issues st ++ chapter_errors chapter_map references ch)%list
    /\ warnings st'
       = (warnings st ++ chapter_warnings chapter_map references ch)%list
    /\ referenced_bib_keys st'
       = (rev (dict_values (map_of chapter_map (fst ch)))
          ++ referenced_bib_keys st)%list.
Proof.
  destruct ch as [slug p]. cbn [fst snd]. intro H.
  unfold audit_chapter, chapter_errors, chapter_warnings. cbn [fst snd].
  fold (map_of chapter_map slug).
  match goal with
  | |- context [try_fold _ _ ?s] =>
      destruct (spot_checks_some slug p (map_of chapter_map slug) references
                  (sorted_set (ref_entries p)) s) as [st' [E [I [W B]]]]
  end.
  { intros num Hin. apply H. now apply sorted_set_In. }
  exists st'. split; [exact E|].
  match type of I with
  | _ = issues (fold_left ?f ?cm ?s) =>
      destruct (missing_records_fold slug references cm s) as [I6 [W6 B6]]
  end.
  cbv zeta in I6, W6, B6.
  rewrite I, W, B, I6, W6, B6.
  rewrite !issues_errors_for, !issues_warns_for, issues_errors_for.
  rewrite !warnings_errors_for, !warnings_warns_for, warnings_errors_for.
  rewrite !bib_keys_errors_for, !bib_keys_warns_for, bib_keys_errors_for.
  now rewrite <- !app_assoc.
Qed.


Lemma audit_chapters_some chapter_map references : forall chapters st,
  audit_completes chapters chapter_map references ->
  exists st',
    try_fold (audit_chapter chapter_map references) chapters st = Some st'
    /\ issues st'
       = (issues st
          ++ flat_map (chapter_errors chapter_map references) chapters)%list
    /\ warnings st'
       = (warnings st
          ++ flat_map (chapter_warnings chapter_map references) chapters)%list
    /\ referenced_bib_keys st'
       = (rev (mapped_keys chapter_map chapters) ++ referenced_bib_keys st)%list.
Proof.
  unfold audit_completes.
  induction chapters as [|ch chapters IH]; intros st H.
  - exists st. cbn. now rewrite !app_nil_r.
  - destruct (audit_chapter_some chapter_map references st ch)
      as [st1 [E1 [I1 [W1 B1]]]].
    { intros num Hn. apply H; [now left|assumption]. }
    destruct (IH st1) as [st' [E [I [W B]]]].
    { intros c n Hc Hn. apply H; [now right|assumption]. }
    exists st'. cbn [try_fold flat_map]. rewrite E1.
    split; [exact E|]. rewrite I, W, B, I1, W1, B1.
    unfold mapped_keys. cbn [flat_map]. rewrite rev_app_distr.
    now rewrite <- !app_assoc.
Qed.


Lemma str_in_app k a b : str_in k (a ++ b) = str_in k a || str_in k b.
Proof. apply existsb_app. Qed.

Lemma str_in_rev k l : str_in k (rev l) = str_in k l.
Proof.
  induction l as [|x l IH]; [reflexivity|].
  cbn [rev]. rewrite str_in_app, IH. cbn. rewrite orb_false_r. apply orb_comm.
Qed.

Lemma str_in_mapped_keys k chapter_map chapters :
  str_in k (mapped_keys chapter_map chapters)
  = existsb (fun ch => str_in k (dict_values (map_of chapter_map (fst ch))))
            chapters.
Proof.
  unfold mapped_keys. induction chapters as [|ch chapters IH]; [reflexivity|].
  cbn [flat_map existsb]. now rewrite str_in_app, IH.
Qed.

Lemma audit_references_messages references st :
  issues (audit_references references st)
  = (issues st ++ map No_title (keys_without "title" references))%list
  /\ warnings (audit_references references st)
     = (warnings st ++ store_warnings references)%list
  /\ referenced_bib_keys (audit_references references st)
     = referenced_bib_keys st.
Proof.
  unfold audit_references, store_warnings.
  fold (keys_without "url" references). fold (keys_without "title" references).
  fold (keys_without "year" references). fold (keys_without "authors" references).
  destruct (10 <? List.length (keys_without "url" references))%nat;
    cbn [warn issues warnings referenced_bib_keys];
    rewrite !issues_warns_for, issues_errors_for, !warnings_warns_for,
      warnings_errors_for, !bib_keys_warns_for, bib_keys_errors_for;
    rewrite <- ?app_assoc, ?app_nil_r; auto.
Qed.

Lemma audit_cross_chapter_messages slugs chapter_map references st :
  issues (audit_cross_chapter slugs chapter_map references st) = issues st
  /\ warnings (audit_cross_chapter slugs chapter_map references st)
     = (warnings st ++ cross_chapter_warnings slugs chapter_map references)%list.
Proof.
  unfold audit_cross_chapter, cross_chapter_warnings.
  generalize (key_locations slugs chapter_map) as l. intro l. revert st.
  induction l as [|kl l IH]; intro st.
  - cbn. now rewrite app_nil_r.
  - cbn [fold_left flat_map].
    match goal with
    | |- context [fold_left ?f l ?s] => destruct (IH s) as [I W]
    end.
    rewrite I, W.
    destruct (1 <? List.length (snd kl))%nat; cbn [andb];
      [|now rewrite ?app_nil_l].
    destruct (json_truthy _); cbn [negb warn issues warnings app];
      [auto|]. now rewrite <- app_assoc.
Qed.

(** The two message lists of a run that completes, in the order the
    checks are made: the documents in turn, then the stores. *)
Lemma run_audit_some chapters chapter_map references authors :
  audit_completes chapters chapter_map references ->
  exists st,
    run_audit chapters chapter_map references authors = Some st
    /\ issues st
       = (flat_map (chapter_errors chapter_map references) chapters
          ++ map No_title (keys_without "title" references)
          ++ map No_display_name (keys_without "displayName" authors))%list
    /\ warnings st
       = (flat_map (chapter_warnings chapter_map references) chapters
          ++ store_warnings references
          ++ map Unreferenced_record
                 (unreferenced_keys chapters chapter_map references)
          ++ cross_chapter_warnings (map fst chapters) chapter_map references)%list.
Proof.
  intro H. unfold run_audit.
  destruct (audit_chapters_some chapter_map references chapters
              {| issues := []; warnings := []; referenced_bib_keys := [];
                 referenced_author_keys := [] |} H) as [st1 [E [I [W B]]]].
  rewrite E. eexists. split; [reflexivity|].
  destruct (audit_references_messages references st1) as [I2 [W2 B2]].
  cbv zeta.
  match goal with
  | |- context [audit_cross_chapter ?s ?cm ?r ?x] =>
      destruct (audit_cross_chapter_messages s cm r x) as [I4 W4]
  end.
  rewrite I4, W4.
  rewrite issues_errors_for, issues_warns_for, warnings_errors_for,
    warnings_warns_for, I2, W2, B2, I, W, B.
  cbn [issues warnings referenced_bib_keys app]. rewrite app_nil_r.
  split; [now rewrite <- !app_assoc|].
  rewrite <- !app_assoc. do 3 f_equal. unfold unreferenced_keys.
  do 2 f_equal. apply filter_ext. intro k.
  now rewrite str_in_rev, str_in_mapped_keys.
Qed.




(** A run over a store in which the authors of a referenced record are
    null stops in the spot check of that record: it lists no message and
    ends with status 1. *)
Lemma null_authors_stop_the_audit :
  run_audit clean_site audit_map null_authors_store audit_authors_store = None
  /\ program_status (run_audit clean_site audit_map null_authors_store
                       audit_authors_store) = 1.
Proof. split; vm_compute; reflexivity. Qed.



(* --------------------------------------------------------------------- *)
(** ** The redirect map of dedup_refs.py                                   *)
(* --------------------------------------------------------------------- *)

Lemma nums_of_key_In n k cm : In n (nums_of_key k cm) <-> In (n, k) cm.
Proof.
  unfold nums_of_key. rewrite in_map_iff. split.
  - intros [[n' k'] [Heq Hin]]. simpl in Heq. subst n'.
    apply filter_In in Hin as [Hin Hk]. simpl in Hk.
    apply String.eqb_eq in Hk. now subst.
  - intro Hin. exists (n, k). split; [reflexivity|].
    apply filter_In. split; [assumption|]. simpl. apply String.eqb_refl.
Qed.

Lemma nums_of_key_get n k (cm : chapter_nums) :
  NoDup (dict_keys cm) ->
  (In n (nums_of_key k cm) <-> dict_get n cm = Some k).
Proof.
  intro Hnd. rewrite nums_of_key_In. split.
  - now apply dict_In_get.
  - apply dict_get_Some_In.
Qed.

Lemma key_to_nums_fold cm : forall (d : dict string (list Z)) k,
  dict_get k
    (fold_left
       (fun d nk =>
          let old := match dict_get (snd nk) d with Some l => l | None => [] end in
          dict_set (snd nk) (old ++ [fst nk])%list d) cm d)
  = match dict_get k d with
    | Some l => Some (l ++ nums_of_key k cm)%list
    | None => match nums_of_key k cm with [] => None | g => Some g end
    end.
Proof.
  induction cm as [|[n k0] cm IH]; intros d k; simpl.
  - destruct (dict_get k d); [rewrite app_nil_r|]; reflexivity.
  - rewrite IH, dict_get_set. unfold nums_of_key. simpl.
    change (key_eqb k k0) with (String.eqb k k0).
    rewrite (String.eqb_sym k0 k).
    destruct (String.eqb k k0) eqn:E; simpl.
    + apply String.eqb_eq in E. subst k0.
      destruct (dict_get k d); simpl; [rewrite <- app_assoc|]; reflexivity.
    + destruct (dict_get k d); reflexivity.
Qed.

Lemma key_to_nums_get cm k :
  dict_get k (key_to_nums cm)
  = match nums_of_key k cm with [] => None | g => Some g end.
Proof. unfold key_to_nums. now rewrite key_to_nums_fold. Qed.

Lemma key_to_nums_NoDup cm : NoDup (dict_keys (key_to_nums cm)).
Proof.
  unfold key_to_nums.
  assert (H : forall d : dict string (list Z), NoDup (dict_keys d) ->
            NoDup (dict_keys
              (fold_left
                 (fun d nk =>
                    let old := match dict_get (snd nk) d with
                               | Some l => l | None => [] end in
                    dict_set (snd nk) (old ++ [fst nk])%list d) cm d))).
  { induction cm as [|nk cm IH]; intros d Hd; simpl; [assumption|].
    apply IH. now apply dict_set_NoDup. }
  apply H. constructor.
Qed.

Lemma key_to_nums_items cm k nums :
  In (k, nums) (key_to_nums cm) -> nums = nums_of_key k cm.
Proof.
  intro Hin. apply dict_In_get in Hin; [|apply key_to_nums_NoDup].
  rewrite key_to_nums_get in Hin.
  destruct (nums_of_key k cm); congruence.
Qed.

Lemma mem_Z_cons n x l : mem_Z n (x :: l) = (n =? x) || mem_Z n l.
Proof. reflexivity. Qed.

Lemma mem_Z_set_add n x s : mem_Z n (set_add x s) = mem_Z n s || (n =? x).
Proof.
  unfold set_add. destruct (mem_Z x s) eqn:E.
  - destruct (Z.eqb_spec n x) as [->|]; [now rewrite E|now rewrite orb_false_r].
  - unfold mem_Z. rewrite existsb_app. simpl. now rewrite orb_false_r.
Qed.

(** The loop over the numbers of one key. *)
Lemma redirect_nums_spec can nums : forall red rem n,
  dict_get n (fst (fold_left (redirect_num can) nums (red, rem)))
  = (if mem_Z n nums && negb (n =? can) then Some can else dict_get n red)
  /\ mem_Z n (snd (fold_left (redirect_num can) nums (red, rem)))
     = mem_Z n rem || (mem_Z n nums && negb (n =? can)).
Proof.
  induction nums as [|x nums IH]; intros red rem n; simpl fold_left.
  - simpl. now rewrite orb_false_r.
  - unfold redirect_num at 2 4. simpl fst. simpl snd.
    rewrite mem_Z_cons.
    destruct (Z.eqb_spec x can) as [->|Hx]; simpl negb; cbv iota.
    + destruct (IH red rem n) as [-> ->].
      destruct (Z.eqb_spec n can) as [->|Hn]; simpl;
        rewrite ?andb_false_r, ?andb_true_r; auto.
    + destruct (IH (dict_set x can red) (set_add x rem) n) as [-> ->].
      rewrite dict_get_set, mem_Z_set_add.
      change (key_eqb n x) with (n =? x).
      destruct (Z.eqb_spec n x) as [->|Hn]; simpl.
      * destruct (Z.eqb_spec x can); [contradiction|]. simpl.
        rewrite ?andb_true_r, ?orb_true_r.
        destruct (mem_Z x nums); simpl; auto.
      * rewrite orb_false_r. auto.
Qed.

Lemma redirect_group_eq acc k nums :
  redirect_group acc (k, nums)
  = if multi nums then fold_left (redirect_num (lmin nums)) nums acc else acc.
Proof.
  unfold redirect_group, multi, lmin. simpl.
  destruct nums as [|n0 [|n1 rest]]; reflexivity.
Qed.

Lemma str_in_In s l : str_in s l = true <-> In s l.
Proof.
  unfold str_in. rewrite existsb_exists. split.
  - intros [x [Hin Heq]]. apply String.eqb_eq in Heq. now subst.
  - intro Hin. exists s. split; [assumption|apply String.eqb_refl].
Qed.

(** The loop over the keys: every number ends up redirected to the least
    number of its key, when its key was among the processed ones. *)
Lemma redirect_groups_spec (cm : chapter_nums) :
  NoDup (dict_keys cm) ->
  forall items : list (string * list Z),
    (forall k nums, In (k, nums) items -> nums = nums_of_key k cm) ->
    forall red rem n,
      dict_get n (fst (fold_left redirect_group items (red, rem)))
      = match canonical_of cm (map fst items) n with
        | Some c => Some c
        | None => dict_get n red
        end
      /\ mem_Z n (snd (fold_left redirect_group items (red, rem)))
         = mem_Z n rem || is_some (canonical_of cm (map fst items) n).
Proof.
  intros Hnd items. induction items as [|[k0 nums0] items IH];
    intros Hitems red rem n.
  - simpl. unfold canonical_of. destruct (dict_get n cm); simpl;
      now rewrite orb_false_r.
  - simpl fold_left. rewrite redirect_group_eq.
    assert (Hn0 : nums0 = nums_of_key k0 cm) by (apply Hitems; now left).
    assert (Hrest : forall k nums, In (k, nums) items -> nums = nums_of_key k cm)
      by (intros; apply Hitems; now right).
    destruct (fold_left (redirect_num (lmin nums0)) nums0 (red, rem))
      as [red1 rem1] eqn:Hstep.
    pose proof (redirect_nums_spec (lmin nums0) nums0 red rem n) as [Hr Hm].
    rewrite Hstep in Hr, Hm. simpl in Hr, Hm.
    assert (Hmem : mem_Z n nums0 = true <-> dict_get n cm = Some k0).
    { rewrite mem_Z_In, Hn0. now apply nums_of_key_get. }
    assert (Hacc : (if multi nums0 then (red1, rem1) else (red, rem))
                   = ((if multi nums0 then red1 else red),
                      (if multi nums0 then rem1 else rem)))
      by (destruct (multi nums0); reflexivity).
    rewrite Hacc. destruct (IH Hrest (if multi nums0 then red1 else red)
                                (if multi nums0 then rem1 else rem) n) as [-> ->].
    unfold canonical_of. simpl map. 
    destruct (dict_get n cm) as [k|] eqn:Hk.
    + change (str_in k (k0 :: map fst items))
        with (String.eqb k k0 || str_in k (map fst items)).
      destruct (String.eqb_spec k k0) as [->|Hne].
      * rewrite <- Hn0.
        assert (Hin : mem_Z n nums0 = true) by (now apply Hmem).
        rewrite Hin in Hr, Hm. simpl in Hr, Hm. simpl orb.
        destruct (multi nums0) eqn:Hmu; simpl.
        -- rewrite Hr, Hm.
           destruct (n =? lmin nums0); simpl;
             destruct (str_in k0 (map fst items)); simpl;
             rewrite ?orb_false_r, ?orb_true_r; auto.
        -- rewrite andb_false_r. simpl. now rewrite orb_false_r.
      * assert (Hin : mem_Z n nums0 = false).
        { apply not_true_is_false. intro E. apply Hmem in E. congruence. }
        rewrite Hin in Hr, Hm. simpl in Hr, Hm. rewrite orb_false_r in Hm.
        simpl orb.
        destruct (multi nums0); rewrite ?Hr, ?Hm; auto.
    + assert (Hin : mem_Z n nums0 = false).
      { apply not_true_is_false. intro E. apply Hmem in E. congruence. }
      rewrite Hin in Hr, Hm. simpl in Hr, Hm. rewrite orb_false_r in Hm.
      destruct (multi nums0); rewrite ?Hr, ?Hm; simpl; auto.
Qed.

(** [build_redirect_map], for a chapter map with distinct numbers. *)
Lemma build_redirect_map_spec (cm : chapter_nums) :
  NoDup (dict_keys cm) ->
  forall n,
    dict_get n (fst (build_redirect_map cm))
    = canonical_of cm (map fst (key_to_nums cm)) n
    /\ mem_Z n (snd (build_redirect_map cm))
       = is_some (canonical_of cm (map fst (key_to_nums cm)) n).
Proof.
  intros Hnd n. unfold build_redirect_map.
  pose proof (redirect_groups_spec cm Hnd (key_to_nums cm)
                (key_to_nums_items cm) [] [] n) as [H1 H2].
  split.
  - etransitivity; [exact H1|].
    destruct (canonical_of _ _ n); reflexivity.
  - etransitivity; [exact H2|]. reflexivity.
Qed.

Lemma key_of_num_processed (cm : chapter_nums) n k :
  dict_get n cm = Some k -> str_in k (map fst (key_to_nums cm)) = true.
Proof.
  intro Hk. apply str_in_In. apply dict_get_In.
  rewrite key_to_nums_get.
  assert (Hin : In n (nums_of_key k cm))
    by (apply nums_of_key_In; now apply dict_get_Some_In).
  destruct (nums_of_key k cm); [contradiction|discriminate].
Qed.

(* --------------------------------------------------------------------- *)
(** ** The renumbering plan of dedup_refs.py                               *)
(* --------------------------------------------------------------------- *)

(** The numbers of a key: the least one is among them and below all. *)
Lemma lmin_spec g n :
  In n g -> In (lmin g) g /\ forall m, In m g -> lmin g <= m.
Proof.
  destruct g as [|n0 rest]; [contradiction|]. intros _.
  apply (list_min_spec rest n0).
Qed.

Lemma multi_two g n m : In n g -> In m g -> n <> m -> multi g = true.
Proof.
  destruct g as [|x [|y g]]; simpl; intros Hn Hm Hne; auto.
  destruct Hn as [<-|[]], Hm as [<-|[]]. congruence.
Qed.

(** Redirect and removal of one number of the map. *)
Lemma redirect_lookup (cm : chapter_nums) n k :
  NoDup (dict_keys cm) -> dict_get n cm = Some k ->
  dict_get n (fst (build_redirect_map cm))
  = (if multi (nums_of_key k cm) && negb (n =? lmin (nums_of_key k cm))
     then Some (lmin (nums_of_key k cm)) else None)
  /\ mem_Z n (snd (build_redirect_map cm))
     = multi (nums_of_key k cm) && negb (n =? lmin (nums_of_key k cm)).
Proof.
  intros Hnd Hk.
  destruct (build_redirect_map_spec cm Hnd n) as [-> ->].
  unfold canonical_of. rewrite Hk, (key_of_num_processed cm n k Hk). simpl.
  destruct (multi (nums_of_key k cm) && negb (n =? lmin (nums_of_key k cm)));
    auto.
Qed.

Lemma not_in_map_not_removed (cm : chapter_nums) n :
  NoDup (dict_keys cm) -> dict_get n cm = None ->
  dict_get n (fst (build_redirect_map cm)) = None
  /\ mem_Z n (snd (build_redirect_map cm)) = false.
Proof.
  intros Hnd Hk.
  destruct (build_redirect_map_spec cm Hnd n) as [-> ->].
  unfold canonical_of. now rewrite Hk.
Qed.

(** A number is removed exactly when a smaller number has its key. *)
Lemma removed_iff_smaller (cm : chapter_nums) n k :
  NoDup (dict_keys cm) -> dict_get n cm = Some k ->
  (mem_Z n (snd (build_redirect_map cm)) = true
   <-> exists m, dict_get m cm = Some k /\ m < n).
Proof.
  intros Hnd Hk.
  destruct (redirect_lookup cm n k Hnd Hk) as [_ ->].
  assert (Hn : In n (nums_of_key k cm)) by (now apply nums_of_key_get).
  destruct (lmin_spec _ _ Hn) as [Hin Hle].
  rewrite andb_true_iff, negb_true_iff, Z.eqb_neq. split.
  - intros [_ Hne]. exists (lmin (nums_of_key k cm)). split.
    + now apply nums_of_key_get.
    + specialize (Hle n Hn). lia.
  - intros [m [Hm Hlt]].
    assert (Hm' : In m (nums_of_key k cm)) by (now apply nums_of_key_get).
    split.
    + apply (multi_two _ n m); auto. lia.
    + specialize (Hle m Hm'). lia.
Qed.

(** The number every number of a key ends at: the least of the key. *)
Lemma redirect_target (cm : chapter_nums) n k :
  NoDup (dict_keys cm) -> dict_get n cm = Some k ->
  match dict_get n (fst (build_redirect_map cm)) with
  | Some c => c
  | None => n
  end = lmin (nums_of_key k cm).
Proof.
  intros Hnd Hk. destruct (redirect_lookup cm n k Hnd Hk) as [-> _].
  assert (Hn : In n (nums_of_key k cm)) by (now apply nums_of_key_get).
  destruct (multi (nums_of_key k cm)) eqn:Hmu; simpl.
  - destruct (Z.eqb_spec n (lmin (nums_of_key k cm))); simpl; auto.
  - destruct (nums_of_key k cm) as [|x [|y g]]; simpl in *.
    + contradiction.
    + destruct Hn as [<-|[]]. reflexivity.
    + discriminate.
Qed.

(** The least number of a key is kept. *)
Lemma lmin_kept (cm : chapter_nums) n k :
  NoDup (dict_keys cm) -> dict_get n cm = Some k ->
  dict_get (lmin (nums_of_key k cm)) cm = Some k
  /\ In (lmin (nums_of_key k cm))
        (sorted_diff (dict_keys cm) (snd (build_redirect_map cm))).
Proof.
  intros Hnd Hk.
  assert (Hn : In n (nums_of_key k cm)) by (now apply nums_of_key_get).
  destruct (lmin_spec _ _ Hn) as [Hin Hle].
  assert (Hc : dict_get (lmin (nums_of_key k cm)) cm = Some k)
    by (now apply nums_of_key_get).
  split; [assumption|].
  apply sorted_diff_In. split.
  - apply dict_get_In. congruence.
  - destruct (redirect_lookup cm _ k Hnd Hc) as [_ ->].
    rewrite Z.eqb_refl. simpl. apply andb_false_r.
Qed.

(** The loop that fills the final map succeeds when every number has a
    final number, and then the map holds exactly these. *)
Lemma build_final_map_spec red rn nums : forall acc,
  (forall n, In n nums -> final_number red rn n <> None) ->
  exists fm,
    build_final_map red rn nums acc = Some fm
    /\ forall n, dict_get n fm
                 = if mem_Z n nums then final_number red rn n else dict_get n acc.
Proof.
  induction nums as [|x nums IH]; intros acc Hdef; simpl.
  - exists acc. split; reflexivity.
  - destruct (final_number red rn x) as [new|] eqn:Hx.
    + assert (Hdef' : forall n, In n nums -> final_number red rn n <> None)
        by (intros n Hn; apply Hdef; now right).
      destruct (IH (dict_set x new acc) Hdef') as [fm [Hfm Hget]].
      exists fm. split; [assumption|]. intro n. rewrite Hget.
      rewrite dict_get_set. change (key_eqb n x) with (n =? x).
      destruct (Z.eqb_spec n x) as [->|Hne]; simpl.
      * destruct (mem_Z x nums); congruence.
      * reflexivity.
    + exfalso. apply (Hdef x); [now left|assumption].
Qed.

(** Every number of the map has a final number between 1 and the number
    of kept entries. *)
Lemma final_number_defined (cm : chapter_nums) n :
  NoDup (dict_keys cm) -> In n (dict_keys cm) ->
  exists v,
    final_number (fst (build_redirect_map cm))
      (build_renumber_map (dict_keys cm) (snd (build_redirect_map cm))) n
    = Some v
    /\ 1 <= v <= Z.of_nat (List.length
                   (sorted_diff (dict_keys cm) (snd (build_redirect_map cm)))).
Proof.
  intros Hnd Hin. apply dict_get_In in Hin.
  destruct (dict_get n cm) as [k|] eqn:Hk; [|congruence].
  unfold final_number.
  pose proof (redirect_target cm n k Hnd Hk) as Ht.
  destruct (lmin_kept cm n k Hnd Hk) as [_ Hkept].
  unfold build_renumber_map.
  destruct (number_from_In _ 1 _ Hkept) as [v Hv].
  exists v.
  assert (Hr : 1 <= v <= Z.of_nat (List.length
                 (sorted_diff (dict_keys cm) (snd (build_redirect_map cm))))).
  { apply number_from_get in Hv. lia. }
  destruct (dict_get n (fst (build_redirect_map cm))) as [c|];
    subst; split; assumption.
Qed.

Lemma needs_renumber_false rn n v :
  needs_renumber rn = false -> dict_get n rn = Some v -> v = n.
Proof.
  unfold needs_renumber. intros Hno Hget.
  apply dict_get_Some_In in Hget.
  destruct (Z.eqb_spec n v) as [->|Hne]; [reflexivity|].
  assert (H : existsb (fun on => negb (fst on =? snd on)) rn = true).
  { apply existsb_exists. exists (n, v). split; [assumption|]. simpl.
    now apply negb_true_iff, Z.eqb_neq. }
  congruence.
Qed.

Lemma flat_map_singleton {A : Type} (f : A -> list A) l :
  (forall x, In x l -> f x = [x]) -> flat_map f l = l.
Proof.
  induction l as [|x l IH]; intro H; simpl; [reflexivity|].
  rewrite H by now left. simpl. f_equal. apply IH. intros; apply H; now right.
Qed.

Lemma map_id_on {A : Type} (f : A -> A) l :
  (forall x, In x l -> f x = x) -> map f l = l.
Proof.
  induction l as [|x l IH]; intro H; simpl; [reflexivity|].
  rewrite H by now left. f_equal. apply IH. intros; apply H; now right.
Qed.

Lemma no_members_nil (l : list Z) : (forall n, mem_Z n l = false) -> l = [].
Proof.
  destruct l as [|x l]; [reflexivity|]. intro H. specialize (H x).
  rewrite mem_Z_cons, Z.eqb_refl in H. discriminate.
Qed.

Lemma filter_all {A : Type} (f : A -> bool) l :
  (forall x, In x l -> f x = true) -> filter f l = l.
Proof.
  induction l as [|x l IH]; intro H; simpl; [reflexivity|].
  rewrite H by now left. f_equal. apply IH. intros; apply H; now right.
Qed.

Lemma make_plan_eq (cm : chapter_nums) :
  make_plan cm
  = match build_final_map (fst (build_redirect_map cm))
            (build_renumber_map (dict_keys cm) (snd (build_redirect_map cm)))
            (dict_keys cm) [] with
    | Some fm =>
        Some {| plan_redirects := fst (build_redirect_map cm);
                plan_removed := snd (build_redirect_map cm);
                plan_renumber := build_renumber_map (dict_keys cm)
                                   (snd (build_redirect_map cm));
                plan_final := fm |}
    | None => None
    end.
Proof. unfold make_plan. destruct (build_redirect_map cm); reflexivity. Qed.

Lemma process_chapter_eq (cm : chapter_nums) html :
  process_chapter cm html
  = if match snd (build_redirect_map cm) with [] => true | _ => false end
       && negb (needs_renumber (build_renumber_map (dict_keys cm) []))
    then Some (false, html)
    else match make_plan cm with
         | None => None
         | Some plan =>
             match Re.sub_fn cite_attr_re (replace_citation (plan_final plan))
                     html with
             | None => None
             | Some html1 =>
                 match Re.sub_fn id_attr_re
                         (replace_li_id (plan_removed plan) (plan_renumber plan))
                         html1 with
                 | None => None
                 | Some html2 =>
                     Some (true, remove_marked (String.length html2) html2)
                 end
             end
         end.
Proof. unfold process_chapter. destruct (build_redirect_map cm); reflexivity. Qed.

(** A number that is not removed is not redirected. *)
Lemma kept_not_redirected (cm : chapter_nums) n :
  NoDup (dict_keys cm) ->
  mem_Z n (snd (build_redirect_map cm)) = false ->
  dict_get n (fst (build_redirect_map cm)) = None.
Proof.
  intros Hnd Hrem. destruct (dict_get n cm) as [k|] eqn:Hk.
  - destruct (redirect_lookup cm n k Hnd Hk) as [Hr Hm].
    rewrite Hm in Hrem. rewrite Hr, Hrem. reflexivity.
  - now apply not_in_map_not_removed.
Qed.


(* ===================================================================== *)
(** * Part III: further properties of the code                            *)
(* ===================================================================== *)

(* --------------------------------------------------------------------- *)
(** ** Classification, stop words and the stages of the matcher            *)
(* --------------------------------------------------------------------- *)

(** X1.  Whatever the entry, [classify_bib_type] returns one of the eight
    types of the fixed vocabulary; an entry without a type tag, or with
    a tag that is none of the ten known BibTeX types, is classified as
    misc. *)
Theorem classify_bib_type_in_vocabulary :
  forall entry : bib_entry,
    In (classify_bib_type entry) type_vocabulary
    /\ (~ In (get_str "_type" entry)
          ["article"; "inproceedings"; "conference"; "book"; "incollection";
           "phdthesis"; "mastersthesis"; "techreport"; "misc"; "unpublished"] ->
        classify_bib_type entry = "misc").
Proof.
  intro entry. unfold classify_bib_type, type_vocabulary. split.
  - repeat match goal with
           | |- context [String.eqb ?a ?b] => destruct (String.eqb a b)
           end; simpl; auto 10.
  - intro Hnot.
    repeat match goal with
           | |- context [String.eqb ?a ?b] =>
               destruct (String.eqb_spec a b) as [Heq|_];
               [exfalso; apply Hnot; rewrite Heq; simpl; auto 12|]
           end.
    reflexivity.
Qed.

(** X2.  The title word of a synthetic key is empty or a lower-case word
    that is none of the stop words, whatever the title. *)
Theorem first_content_word_is_no_stop_word :
  forall words : list string,
    first_content_word words = EmptyString
    \/ (str_in (first_content_word words) stop_words = false
        /\ exists w, In w words
             /\ first_content_word words
                = Py.lower (Re.remove (Re.Chr (fun c => negb (Py.is_word c))) w)).
Proof.
  induction words as [|w words IH]; simpl; [now left|].
  match goal with
  | |- context [if ?c then _ else _] => destruct c eqn:Hc
  end.
  - right. apply andb_true_iff in Hc as [_ Hs]. apply negb_true_iff in Hs.
    split; [exact Hs|]. exists w. split; [now left|reflexivity].
  - destruct IH as [IH|[Hs [w' [Hin Heq]]]]; [now left|right].
    split; [exact Hs|]. exists w'. split; [now right|exact Heq].
Qed.

Lemma fold_left_fixed {A B : Type} (f : A -> B -> A) (l : list B) (a : A) :
  (forall x, f a x = a) -> fold_left f l a = a.
Proof.
  intro H. induction l as [|x l IH]; simpl; [reflexivity|]. now rewrite H.
Qed.

(** With an empty bibliography no stage of the matcher finds a key. *)
Lemma match_ref_empty_bibliography ratio ref :
  match_ref ratio [] (build_indices []) ref = (None, None).
Proof.
  change (build_indices []) with empty_indices.
  assert (Hurl : match_url_stages empty_indices ref = None).
  { unfold match_url_stages. cbn [url_to_key arxiv_to_key empty_indices].
    destruct (Py.nonempty (normalize_url (ref_url ref))); [|reflexivity].
    cbn [dict_get first_partial].
    destruct (extract_arxiv_id (ref_url ref)) as [aid|]; [|reflexivity].
    destruct (Py.nonempty aid); reflexivity. }
  assert (Hfuzzy : match_fuzzy ratio empty_indices ref = None).
  { unfold match_fuzzy, fuzzy_best. cbn [title_index empty_indices].
    rewrite fold_left_fixed; [reflexivity|].
    intro t. unfold fuzzy_candidate.
    destruct (Py.is_empty (normalize_title t)); reflexivity. }
  unfold match_ref. rewrite Hurl. cbn [fst key_truthy negb].
  rewrite Hfuzzy. cbn [fst key_truthy negb andb].
  destruct (year_truthy (ref_year ref)); reflexivity.
Qed.

(** X3.  When the bibliography holds no entry, the builder completes and
    every key of the references store is the synthetic key of a
    reference entry of a document: nothing is matched, nothing is
    dropped. *)
Theorem empty_bibliography_gives_synthetic_keys :
  forall (ratio : string -> string -> Q) (bib_text : string)
         (chapters : list (string * list html_ref))
         (existing_refs existing_authors : dict string record),
    parse_bibtex bib_text = [] ->
    exists cm refs authors,
      build_databases ratio bib_text chapters existing_refs existing_authors
      = Some (cm, refs, authors)
      /\ (forall k, In k (dict_keys refs)
                    <-> exists slug rs ref,
                          In (slug, rs) chapters /\ In ref rs
                          /\ k = _make_synthetic_key ref slug).
Proof.
  intros ratio bib_text chapters existing_refs existing_authors Hbib.
  destruct (collect_total ratio (parse_bibtex bib_text) chapters)
    as [c [Hc [Hnd [_ Hkeys]]]].
  exists (chapter_map c), (build_references c existing_refs),
         (build_authors c existing_authors).
  split; [now apply build_databases_eq|].
  intro k. rewrite build_references_keys by assumption. rewrite Hkeys.
  assert (Hkey : forall slug ref,
             ref_key ratio (parse_bibtex bib_text) slug ref
             = _make_synthetic_key ref slug).
  { intros slug ref. unfold ref_key. rewrite Hbib.
    now rewrite match_ref_empty_bibliography. }
  split; intros [slug [rs [ref [H1 [H2 H3]]]]]; exists slug, rs, ref;
    (split; [exact H1|split; [exact H2|]]).
  - now rewrite <- H3, Hkey.
  - now rewrite Hkey.
Qed.

Lemma empty_bibliography_gives_synthetic_keys_witness :
  exists cm refs authors,
    build_databases no_similarity "% no entries yet"
      [("index", [yearless_ref])] [] []
    = Some (cm, refs, authors)
    /\ (forall k, In k (dict_keys refs)
                  <-> exists slug rs ref,
                        In (slug, rs) [("index", [yearless_ref])] /\ In ref rs
                        /\ k = _make_synthetic_key ref slug).
Proof.
  apply (empty_bibliography_gives_synthetic_keys no_similarity
           "% no entries yet" [("index", [yearless_ref])] [] []).
  vm_compute. reflexivity.
Defined.

(** X4.  Whatever the similarity function, a key returned by the matcher
    is a key of the bibliography, so the lookup [bib_entries[bib_key]] of
    the builder finds its entry. *)
Theorem matched_key_has_bibliography_entry :
  forall (ratio : string -> string -> Q) (bib : dict string bib_entry)
         (ref : html_ref) (k : string),
    fst (match_ref ratio bib (build_indices bib) ref) = Some k ->
    exists entry, dict_get k bib = Some entry.
Proof.
  intros ratio bib ref k Hk. apply match_ref_key in Hk.
  apply dict_get_In in Hk. destruct (dict_get k bib) as [entry|]; [|congruence].
  now exists entry.
Qed.

Lemma matched_key_has_bibliography_entry_witness :
  exists entry, dict_get "doe2023scaling" arxiv_bib = Some entry.
Proof.
  apply (matched_key_has_bibliography_entry no_similarity arxiv_bib
           (arxiv_ref "https://arxiv.org/abs/2301.00001v2")).
  vm_compute. reflexivity.
Defined.

(** Indexing an entry never removes a URL from the index. *)
Lemma index_entry_url_mono idx ke u :
  dict_mem u (url_to_key idx) = true ->
  dict_mem u (url_to_key (index_entry idx ke)) = true.
Proof.
  intro Hm. destruct ke as [key entry]. unfold index_entry.
  cbn [url_to_key].
  destruct (Py.nonempty (get_str "doi" entry));
    destruct (Py.nonempty (bib_url_of entry));
    rewrite ?dict_mem_set, ?Hm, ?orb_true_r; reflexivity.
Qed.

Lemma index_entry_url_added idx key entry :
  Py.nonempty (bib_url_of entry) = true ->
  dict_mem (normalize_url (bib_url_of entry))
           (url_to_key (index_entry idx (key, entry))) = true.
Proof.
  intro Hu. unfold index_entry. cbn [url_to_key]. rewrite Hu.
  destruct (Py.nonempty (get_str "doi" entry));
    rewrite ?dict_mem_set; cbn [key_eqb string_Key];
    rewrite (String.eqb_refl (normalize_url (bib_url_of entry)));
    rewrite ?orb_true_r; reflexivity.
Qed.

Lemma fold_index_url_mono (l : list (string * bib_entry)) : forall idx u,
  dict_mem u (url_to_key idx) = true ->
  dict_mem u (url_to_key (fold_left index_entry l idx)) = true.
Proof.
  induction l as [|ke l IH]; intros idx u Hm; simpl; [assumption|].
  apply IH. now apply index_entry_url_mono.
Qed.

Lemma build_indices_has_url (bib : dict string bib_entry) key entry :
  In (key, entry) bib ->
  Py.nonempty (bib_url_of entry) = true ->
  dict_mem (normalize_url (bib_url_of entry)) (url_to_key (build_indices bib))
  = true.
Proof.
  unfold build_indices. generalize empty_indices.
  induction bib as [|ke bib IH]; intros idx Hin Hu; [contradiction|].
  simpl. destruct Hin as [->|Hin].
  - apply fold_index_url_mono. now apply index_entry_url_added.
  - now apply IH.
Qed.

(** X5.  In a bibliography without an empty key, a reference entry
    whose URL normalizes to the same non-empty text as the URL of some
    record is matched by URL identity, to a key of the bibliography, and
    the heuristic stages are not consulted: the result does not depend on
    the similarity function. *)
Theorem url_identity_match_is_final :
  forall (ratio : string -> string -> Q) (bib : dict string bib_entry)
         (key : string) (entry : bib_entry) (ref : html_ref),
    In (key, entry) bib ->
    ~ In EmptyString (dict_keys bib) ->
    Py.nonempty (bib_url_of entry) = true ->
    Py.nonempty (normalize_url (ref_url ref)) = true ->
    normalize_url (ref_url ref) = normalize_url (bib_url_of entry) ->
    exists k,
      match_ref ratio bib (build_indices bib) ref = (Some k, Some M_url)
      /\ dict_get (normalize_url (ref_url ref)) (url_to_key (build_indices bib))
         = Some k
      /\ In k (dict_keys bib).
Proof.
  intros ratio bib key entry ref Hin Hne Hu Hrn Heq.
  pose proof (build_indices_has_url bib key entry Hin Hu) as Hm.
  rewrite <- Heq in Hm. unfold dict_mem in Hm.
  destruct (dict_get (normalize_url (ref_url ref))
                     (url_to_key (build_indices bib))) as [k|] eqn:Hk;
    [|discriminate].
  assert (Hurl : match_url_stages (build_indices bib) ref = Some (k, M_url)).
  { unfold match_url_stages. now rewrite Hrn, Hk. }
  assert (Hkin : In k (dict_keys bib)).
  { exact (match_url_stages_key (fun k => In k (dict_keys bib)) _ ref k M_url
             (build_indices_keys_in bib) Hurl). }
  exists k. split; [|split; [reflexivity|exact Hkin]].
  assert (Ht : Py.nonempty k = true).
  { destruct k; [contradiction|reflexivity]. }
  unfold match_ref. rewrite Hurl. cbn [fst key_truthy]. rewrite Ht.
  cbn [negb fst key_truthy]. rewrite Ht. reflexivity.
Qed.

Lemma url_identity_match_is_final_witness :
  exists k,
    match_ref no_similarity arxiv_bib (build_indices arxiv_bib)
      (arxiv_ref "http://www.arxiv.org/abs/2301.00001/")
    = (Some k, Some M_url)
    /\ dict_get (normalize_url "http://www.arxiv.org/abs/2301.00001/")
                (url_to_key (build_indices arxiv_bib)) = Some k
    /\ In k (dict_keys arxiv_bib).
Proof.
  apply (url_identity_match_is_final no_similarity arxiv_bib "doe2023scaling"
           [("title", "Scaling laws"); ("author", "Doe, Jane"); ("year", "2023");
            ("url", "https://arxiv.org/abs/2301.00001"); ("_type", "article")]
           (arxiv_ref "http://www.arxiv.org/abs/2301.00001/")).
  - vm_compute. left. reflexivity.
  - vm_compute. intros [H|[]]. discriminate.
  - vm_compute. reflexivity.
  - vm_compute. reflexivity.
  - vm_compute. reflexivity.
Defined.

(* --------------------------------------------------------------------- *)
(** ** Texts: characters, stripping, words                                 *)
(* --------------------------------------------------------------------- *)

Lemma all_chars_app p a b :
  all_chars p (a ++ b) = all_chars p a && all_chars p b.
Proof.
  induction a as [|c a IH]; simpl; [reflexivity|].
  rewrite IH. now rewrite andb_assoc.
Qed.

Lemma all_chars_impl (p q : ascii -> bool) s :
  (forall c, p c = true -> q c = true) ->
  all_chars p s = true -> all_chars q s = true.
Proof.
  intros Hpq. induction s as [|c s IH]; simpl; [reflexivity|].
  intro H. apply andb_true_iff in H as [Hc Hs].
  rewrite (Hpq _ Hc), (IH Hs). reflexivity.
Qed.

Lemma keep_chars_all p s : all_chars p (keep_chars p s) = true.
Proof.
  induction s as [|c s IH]; simpl; [reflexivity|].
  destruct (p c) eqn:E; simpl; [rewrite E|]; assumption.
Qed.

Lemma keep_chars_id p s : all_chars p s = true -> keep_chars p s = s.
Proof.
  induction s as [|c s IH]; simpl; [reflexivity|].
  intro H. apply andb_true_iff in H as [Hc Hs]. rewrite Hc, (IH Hs). reflexivity.
Qed.

Lemma keep_chars_preserves p q s :
  all_chars q s = true -> all_chars q (keep_chars p s) = true.
Proof.
  induction s as [|c s IH]; simpl; [reflexivity|].
  intro H. apply andb_true_iff in H as [Hc Hs].
  destruct (p c); simpl; [rewrite Hc|]; auto.
Qed.

(** [re.sub] of a one-character class by the empty text keeps the other
    characters. *)
Lemma remove_chr p s :
  Re.remove (Re.Chr p) s = keep_chars (fun c => negb (p c)) s.
Proof.
  unfold Re.remove, Re.sub.
  assert (H : forall n s, (String.length s < n)%nat ->
            Re.sub_loop n (Re.Chr p) (fun _ => EmptyString) s
            = keep_chars (fun c => negb (p c)) s).
  { induction n as [|n IH]; intros s0 Hn; [inversion Hn|].
    destruct s0 as [|c s0]; [reflexivity|].
    cbn [Re.sub_loop Re.rmatch Re.run keep_chars]. simpl in Hn.
    destruct (p c); cbn [negb].
    - unfold Re.accept.
      replace (String.length s0 <? String.length (String c s0))%nat with true
        by (symmetry; apply Nat.ltb_lt; simpl; lia).
      simpl. apply IH. lia.
    - f_equal. apply IH. lia. }
  apply H. lia.
Qed.

Lemma lower_char_idem c : Py.lower_char (Py.lower_char c) = Py.lower_char c.
Proof. destruct c as [[] [] [] [] [] [] [] []]; reflexivity. Qed.

Lemma lower_char_not_upper c : Py.is_upper (Py.lower_char c) = false.
Proof. destruct c as [[] [] [] [] [] [] [] []]; reflexivity. Qed.

Lemma lower_char_fixed c : Py.is_upper c = false -> Py.lower_char c = c.
Proof. unfold Py.lower_char. now intros ->. Qed.

Lemma lower_no_upper s :
  all_chars (fun c => negb (Py.is_upper c)) (Py.lower s) = true.
Proof.
  induction s as [|c s IH]; simpl; [reflexivity|].
  now rewrite lower_char_not_upper, IH.
Qed.

Lemma lower_fixed s :
  all_chars (fun c => negb (Py.is_upper c)) s = true -> Py.lower s = s.
Proof.
  induction s as [|c s IH]; simpl; [reflexivity|].
  intro H. apply andb_true_iff in H as [Hc Hs].
  rewrite lower_char_fixed, (IH Hs); [reflexivity|].
  now destruct (Py.is_upper c).
Qed.

Lemma lower_idem s : Py.lower (Py.lower s) = Py.lower s.
Proof. apply lower_fixed, lower_no_upper. Qed.

Lemma lower_app a b : Py.lower (a ++ b) = Py.lower a ++ Py.lower b.
Proof. induction a as [|c a IH]; simpl; [reflexivity|]. now rewrite IH. Qed.

Lemma last_char_lower s :
  last_char (Py.lower s) = option_map Py.lower_char (last_char s).
Proof.
  induction s as [|c s IH]; [reflexivity|].
  destruct s as [|c' s]; [reflexivity|].
  change (last_char (Py.lower (String c' s))
          = option_map Py.lower_char (last_char (String c' s))).
  exact IH.
Qed.

(** What [rstrip] leaves does not end in a stripped character. *)
Lemma rstrip_by_last p s c :
  last_char (Py.rstrip_by p s) = Some c -> p c = false.
Proof.
  revert c. induction s as [|a s IH]; intros c; simpl; [discriminate|].
  destruct (Py.rstrip_by p s) as [|b r] eqn:E.
  - destruct (p a) eqn:Ea; simpl; [discriminate|].
    intro H. inversion H; subst. assumption.
  - intro H. apply IH. exact H.
Qed.

Lemma rstrip_by_app p a b :
  Py.rstrip_by p b <> EmptyString ->
  Py.rstrip_by p (a ++ b) = a ++ Py.rstrip_by p b.
Proof.
  intro Hb. induction a as [|c a IH]; simpl; [reflexivity|].
  rewrite IH. destruct (a ++ Py.rstrip_by p b) eqn:E; [|reflexivity].
  destruct a; simpl in E; [contradiction|discriminate].
Qed.

Lemma rstrip_by_snoc p s c :
  p c = true -> Py.rstrip_by p (s ++ String c EmptyString) = Py.rstrip_by p s.
Proof.
  intro Hc. induction s as [|a s IH]; simpl; [now rewrite Hc|].
  now rewrite IH.
Qed.

Lemma rstrip_by_length p s :
  (String.length (Py.rstrip_by p s) <= String.length s)%nat.
Proof.
  induction s as [|c s IH]; simpl; [lia|].
  destruct (Py.rstrip_by p s); [destruct (p c)|]; simpl in *; lia.
Qed.

Lemma rstrip_by_idem p s :
  Py.rstrip_by p (Py.rstrip_by p s) = Py.rstrip_by p s.
Proof.
  induction s as [|c s IH]; simpl; [reflexivity|].
  destruct (Py.rstrip_by p s) as [|b r] eqn:E.
  - destruct (p c) eqn:Ec; simpl; [reflexivity|]. now rewrite Ec.
  - remember (String b r) as t eqn:Et. simpl. rewrite IH.
    rewrite Et. reflexivity.
Qed.

Lemma lstrip_by_cases p s :
  Py.lstrip_by p s = s
  \/ (String.length (Py.lstrip_by p s) < String.length s)%nat.
Proof.
  destruct s as [|c s]; simpl; [now left|].
  destruct (p c); [right|now left].
  pose proof (lstrip_by_length p s). lia.
Qed.

Lemma lstrip_by_head p s :
  Py.lstrip_by p s = s -> s <> EmptyString ->
  exists c s', s = String c s' /\ p c = false.
Proof.
  destruct s as [|c s]; [contradiction|]. simpl. intros H _.
  destruct (p c) eqn:E; [|eauto].
  pose proof (lstrip_by_length p s) as Hl. rewrite H in Hl. simpl in Hl. lia.
Qed.

Lemma lstrip_by_idem p s :
  Py.lstrip_by p (Py.lstrip_by p s) = Py.lstrip_by p s.
Proof.
  induction s as [|c s IH]; simpl; [reflexivity|].
  destruct (p c) eqn:E; [assumption|]. simpl. now rewrite E.
Qed.

(** A text [strip] leaves alone is left alone by both of its halves. *)
Lemma strip_fixed s :
  Py.strip s = s ->
  Py.lstrip_by Py.is_space s = s /\ Py.rstrip_by Py.is_space s = s.
Proof.
  unfold Py.strip. intro H.
  assert (Hl : Py.lstrip_by Py.is_space s = s).
  { destruct (lstrip_by_cases Py.is_space s) as [E|E]; [assumption|].
    pose proof (rstrip_by_length Py.is_space (Py.lstrip_by Py.is_space s)) as L.
    rewrite H in L. lia. }
  split; [assumption|]. now rewrite Hl in H.
Qed.

(** [strip] is idempotent. *)
Lemma strip_idem s : Py.strip (Py.strip s) = Py.strip s.
Proof.
  unfold Py.strip.
  assert (H : Py.lstrip_by Py.is_space
                (Py.rstrip_by Py.is_space (Py.lstrip_by Py.is_space s))
              = Py.rstrip_by Py.is_space (Py.lstrip_by Py.is_space s)).
  { pose proof (lstrip_by_idem Py.is_space s) as Hi.
    destruct (Py.lstrip_by Py.is_space s) as [|c t] eqn:E; [reflexivity|].
    simpl in Hi. destruct (Py.is_space c) eqn:Ec.
    - pose proof (lstrip_by_length Py.is_space t) as L. rewrite Hi in L.
      simpl in L. lia.
    - cbn [Py.rstrip_by].
      destruct (Py.rstrip_by Py.is_space t); rewrite ?Ec;
        cbn [Py.lstrip_by]; now rewrite Ec. }
  rewrite H. apply rstrip_by_idem.
Qed.

Lemma str_app_nil_r (s : string) : s ++ EmptyString = s.
Proof. induction s as [|c s IH]; simpl; [reflexivity|]. now rewrite IH. Qed.

Lemma str_app_assoc (a b c : string) : (a ++ b) ++ c = a ++ b ++ c.
Proof. induction a as [|x a IH]; simpl; [reflexivity|]. now rewrite IH. Qed.

Lemma lower_char_slash c : Py.lower_char c = "/"%char -> c = "/"%char.
Proof.
  destruct c as [[] [] [] [] [] [] [] []]; intro H;
    try reflexivity; discriminate H.
Qed.

(* --------------------------------------------------------------------- *)
(** ** normalize_url                                                       *)
(* --------------------------------------------------------------------- *)

(** X6. normalize_url never returns an upper-case letter and never a text
    that ends in a slash. *)
Theorem normalize_url_is_canonical (url : string) :
  all_chars (fun c => negb (Py.is_upper c)) (normalize_url url) = true
  /\ last_char (normalize_url url) <> Some "/"%char.
Proof.
  unfold normalize_url. destruct (Py.is_empty url).
  - split; [reflexivity|discriminate].
  - split; [apply lower_no_upper|].
    rewrite last_char_lower. unfold Py.rstrip_slash.
    match goal with
    | |- option_map _ (last_char (Py.rstrip_by _ ?x)) <> _ =>
        destruct (last_char (Py.rstrip_by (Py.is_char "/") x)) as [c|] eqn:E
    end; [|discriminate].
    apply rstrip_by_last in E. simpl. intro H. inversion H as [H1].
    apply lower_char_slash in H1. subst c. discriminate E.
Qed.

Lemma rstrip_space_spelling u suf :
  In suf url_suffixes -> u <> EmptyString ->
  Py.rstrip_by Py.is_space u = u ->
  Py.rstrip_by Py.is_space (u ++ suf) = u ++ suf.
Proof.
  intros Hsuf Hne Hr. destruct Hsuf as [<-|[<-|[]]].
  - now rewrite str_app_nil_r.
  - rewrite rstrip_by_app; [reflexivity|discriminate].
Qed.

Lemma rstrip_slash_spelling pre u suf :
  In suf url_suffixes -> u <> EmptyString ->
  Py.rstrip_slash u = u ->
  Py.rstrip_slash (pre ++ u ++ suf) = pre ++ u.
Proof.
  unfold Py.rstrip_slash. intros Hsuf Hne Hr.
  assert (H : Py.rstrip_by (Py.is_char "/") (pre ++ u) = pre ++ u).
  { rewrite rstrip_by_app; rewrite Hr; [reflexivity|assumption]. }
  destruct Hsuf as [<-|[<-|[]]].
  - now rewrite str_app_nil_r.
  - rewrite <- str_app_assoc. rewrite rstrip_by_snoc; [assumption|reflexivity].
Qed.

(** X7. The spellings of one address are identified: before an address
    on which no step of the normalization acts, a scheme and a [www.]
    prefix are dropped, a slash after it is dropped, and what is left is
    the address in lower case. *)
Theorem normalize_url_identifies_spellings (u pre suf : string) :
  In pre url_prefixes -> In suf url_suffixes ->
  u <> EmptyString ->
  Py.strip u = u ->
  Py.rstrip_slash u = u ->
  Re.remove_prefix scheme_re u = u ->
  Re.remove_prefix (Re.Lit "www.") u = u ->
  normalize_url (pre ++ u ++ suf) = Py.lower u.
Proof.
  intros Hpre Hsuf Hne Hs Hsl Hsch Hwww.
  destruct (strip_fixed _ Hs) as [Hl Hr].
  destruct (lstrip_by_head _ _ Hl Hne) as [c [u' [Eu Hc]]].
  assert (Hne' : u ++ suf <> EmptyString) by (rewrite Eu; discriminate).
  assert (Hstrip : Py.strip (pre ++ u ++ suf) = pre ++ u ++ suf).
  { unfold Py.strip.
    assert (L : Py.lstrip_by Py.is_space (pre ++ u ++ suf) = pre ++ u ++ suf).
    { simpl in Hpre.
      destruct Hpre as [<-|[<-|[<-|[<-|[<-|[<-|[]]]]]]]; try reflexivity.
      rewrite Eu. cbn [append Py.lstrip_by]. now rewrite Hc. }
    rewrite L.
    rewrite rstrip_by_app; rewrite (rstrip_space_spelling u suf Hsuf Hne Hr);
      [reflexivity|assumption]. }
  assert (Hempty : Py.is_empty (pre ++ u ++ suf) = false).
  { rewrite Eu. destruct pre; reflexivity. }
  unfold normalize_url. rewrite Hempty, Hstrip.
  rewrite (rstrip_slash_spelling pre u suf Hsuf Hne Hsl).
  simpl in Hpre.
  destruct Hpre as [<-|[<-|[<-|[<-|[<-|[<-|[]]]]]]].
  - cbn [append]. now rewrite Hsch, Hwww, Hsl.
  - change (Re.remove_prefix scheme_re ("www." ++ u)) with ("www." ++ u).
    change (Re.remove_prefix (Re.Lit "www.") ("www." ++ u)) with u.
    now rewrite Hsl.
  - change (Re.remove_prefix scheme_re ("http://" ++ u)) with u.
    now rewrite Hwww, Hsl.
  - change (Re.remove_prefix scheme_re ("https://" ++ u)) with u.
    now rewrite Hwww, Hsl.
  - change (Re.remove_prefix scheme_re ("http://www." ++ u)) with ("www." ++ u).
    change (Re.remove_prefix (Re.Lit "www.") ("www." ++ u)) with u.
    now rewrite Hsl.
  - change (Re.remove_prefix scheme_re ("https://www." ++ u)) with ("www." ++ u).
    change (Re.remove_prefix (Re.Lit "www.") ("www." ++ u)) with u.
    now rewrite Hsl.
Qed.

Lemma normalize_url_identifies_spellings_witness :
  normalize_url "https://www.arXiv.org/abs/2301.00001/" = "arxiv.org/abs/2301.00001"
  /\ normalize_url "http://arXiv.org/abs/2301.00001" = "arxiv.org/abs/2301.00001".
Proof.
  split.
  - apply (normalize_url_identifies_spellings "arXiv.org/abs/2301.00001"
             "https://www." "/").
    + simpl. tauto.
    + simpl. tauto.
    + discriminate.
    + reflexivity.
    + reflexivity.
    + reflexivity.
    + reflexivity.
  - apply (normalize_url_identifies_spellings "arXiv.org/abs/2301.00001"
             "http://" EmptyString).
    + simpl. tauto.
    + simpl. tauto.
    + discriminate.
    + reflexivity.
    + reflexivity.
    + reflexivity.
    + reflexivity.
Defined.

Lemma keep_chars_ext (p q : ascii -> bool) s :
  (forall c, p c = q c) -> keep_chars p s = keep_chars q s.
Proof.
  intro H. induction s as [|c s IH]; simpl; [reflexivity|].
  now rewrite H, IH.
Qed.

Lemma all_chars_suffix p s' s :
  suffix_of s' s -> all_chars p s = true -> all_chars p s' = true.
Proof.
  intros [pre ->]. rewrite all_chars_app. intro H.
  now apply andb_true_iff in H as [_ H].
Qed.

Lemma lstrip_by_suffix p s : suffix_of (Py.lstrip_by p s) s.
Proof.
  induction s as [|c s IH]; simpl; [apply suffix_of_refl|].
  destruct (p c); [|apply suffix_of_refl].
  eapply suffix_of_trans; [exact IH|apply suffix_of_tail].
Qed.

Lemma rstrip_by_all p q s :
  all_chars q s = true -> all_chars q (Py.rstrip_by p s) = true.
Proof.
  induction s as [|c s IH]; simpl; [reflexivity|].
  intro H. apply andb_true_iff in H as [Hc Hs]. specialize (IH Hs).
  destruct (Py.rstrip_by p s) as [|b r].
  - destruct (p c); simpl; [reflexivity|now rewrite Hc].
  - cbn [all_chars]. rewrite Hc. exact IH.
Qed.

Lemma strip_all q s :
  all_chars q s = true -> all_chars q (Py.strip s) = true.
Proof.
  intro H. unfold Py.strip. apply rstrip_by_all.
  eapply all_chars_suffix; [apply lstrip_by_suffix|exact H].
Qed.

(* --------------------------------------------------------------------- *)
(** ** Words and their joining                                             *)
(* --------------------------------------------------------------------- *)

Lemma split_ws_aux_all q : forall s cur,
  all_chars q s = true -> all_chars q cur = true ->
  Forall (fun w => all_chars q w = true) (Py.split_ws_aux s cur).
Proof.
  induction s as [|c s IH]; intros cur Hs Hcur; simpl.
  - destruct (Py.is_empty cur); auto.
  - simpl in Hs. apply andb_true_iff in Hs as [Hc Hs].
    destruct (Py.is_space c).
    + destruct (Py.is_empty cur); [apply IH; auto|].
      constructor; [assumption|apply IH; auto].
    + apply IH; [assumption|]. rewrite all_chars_app, Hcur. simpl.
      now rewrite Hc.
Qed.

Lemma is_empty_app_char cur c :
  Py.is_empty (cur ++ String c EmptyString) = false.
Proof. destruct cur; reflexivity. Qed.

Lemma split_ws_aux_tokens : forall s cur,
  all_chars (fun c => negb (Py.is_space c)) cur = true ->
  Forall (fun w => is_token w = true) (Py.split_ws_aux s cur).
Proof.
  induction s as [|c s IH]; intros cur Hcur; simpl.
  - destruct (Py.is_empty cur) eqn:E; [constructor|].
    constructor; [|constructor]. unfold is_token, Py.nonempty.
    now rewrite E, Hcur.
  - destruct (Py.is_space c) eqn:Ec.
    + destruct (Py.is_empty cur) eqn:E; [apply IH; reflexivity|].
      constructor; [|apply IH; reflexivity].
      unfold is_token, Py.nonempty. now rewrite E, Hcur.
    + apply IH. rewrite all_chars_app, Hcur. simpl. now rewrite Ec.
Qed.

Lemma split_ws_tokens s : Forall (fun w => is_token w = true) (Py.split_ws s).
Proof. apply split_ws_aux_tokens. reflexivity. Qed.

(** Reading a run of characters that are no white space extends the
    current word. *)
Lemma split_ws_aux_app : forall x s cur,
  all_chars (fun c => negb (Py.is_space c)) x = true ->
  Py.split_ws_aux (x ++ s) cur = Py.split_ws_aux s (cur ++ x).
Proof.
  induction x as [|c x IH]; intros s cur Hx; simpl.
  - now rewrite str_app_nil_r.
  - simpl in Hx. apply andb_true_iff in Hx as [Hc Hx].
    destruct (Py.is_space c); [discriminate|].
    rewrite IH by assumption. now rewrite str_app_assoc.
Qed.

Lemma is_token_nonempty w : is_token w = true -> Py.is_empty w = false.
Proof.
  unfold is_token, Py.nonempty. intro H.
  apply andb_true_iff in H as [H _]. now destruct (Py.is_empty w).
Qed.

Lemma is_token_chars w :
  is_token w = true -> all_chars (fun c => negb (Py.is_space c)) w = true.
Proof. unfold is_token. intro H. now apply andb_true_iff in H as [_ H]. Qed.

Lemma join_cons sep x y l :
  Py.join sep (x :: y :: l) = x ++ sep ++ Py.join sep (y :: l).
Proof. reflexivity. Qed.

(** Splitting what was joined by single spaces gives the words back. *)
Lemma split_ws_join ws :
  Forall (fun w => is_token w = true) ws ->
  Py.split_ws (Py.join " " ws) = ws.
Proof.
  unfold Py.split_ws.
  induction ws as [|x ws IH]; intro H; [reflexivity|].
  inversion H as [|? ? Hx Hws]; subst.
  destruct ws as [|y ws].
  - cbn [Py.join]. rewrite <- (str_app_nil_r x) at 1.
    rewrite split_ws_aux_app by now apply is_token_chars.
    cbn [Py.split_ws_aux append]. now rewrite (is_token_nonempty _ Hx).
  - rewrite join_cons. rewrite split_ws_aux_app by now apply is_token_chars.
    cbn [append Py.split_ws_aux].
    replace (Py.is_space " ") with true by reflexivity.
    rewrite (is_token_nonempty _ Hx). f_equal. apply IH. assumption.
Qed.

Lemma join_all q ws :
  q " "%char = true ->
  Forall (fun w => all_chars q w = true) ws ->
  all_chars q (Py.join " " ws) = true.
Proof.
  intros Hq. induction ws as [|x ws IH]; intro H; [reflexivity|].
  inversion H as [|? ? Hx Hws]; subst.
  destruct ws as [|y ws]; [exact Hx|].
  rewrite join_cons, !all_chars_app, Hx, (IH Hws). simpl. now rewrite Hq.
Qed.

(* --------------------------------------------------------------------- *)
(** ** normalize_title                                                     *)
(* --------------------------------------------------------------------- *)

Lemma normalize_title_eq t :
  Py.is_empty t = false ->
  normalize_title t
  = Py.join " " (Py.split_ws
                   (keep_chars (fun c => Py.is_word c || Py.is_space c)
                               (Py.lower t))).
Proof.
  intro H. unfold normalize_title. rewrite H, remove_chr.
  f_equal. f_equal. apply keep_chars_ext. intro c. apply negb_involutive.
Qed.

Lemma normalize_title_chars t :
  all_chars is_title_char (normalize_title t) = true.
Proof.
  destruct (Py.is_empty t) eqn:E.
  - unfold normalize_title. now rewrite E.
  - rewrite normalize_title_eq by assumption.
    apply join_all; [reflexivity|].
    apply split_ws_aux_all; [|reflexivity].
    assert (H : forall s,
              all_chars (fun c => negb (Py.is_upper c)) s = true ->
              all_chars is_title_char
                (keep_chars (fun c => Py.is_word c || Py.is_space c) s) = true).
    { induction s as [|c s IH]; simpl; [reflexivity|].
      intro H. apply andb_true_iff in H as [Hc Hs].
      destruct (Py.is_word c || Py.is_space c) eqn:Ew; [|auto].
      cbn [all_chars]. unfold is_title_char at 1. rewrite Hc, Ew. simpl. auto. }
    apply H, lower_no_upper.
Qed.

(** X8. normalize_title is idempotent: a normalized title is its own
    normal form, so the similarity of two titles is the similarity of
    their normal forms. *)
Theorem normalize_title_idempotent (t : string) :
  normalize_title (normalize_title t) = normalize_title t
  /\ forall ratio b,
       title_similarity ratio (normalize_title t) b = title_similarity ratio t b.
Proof.
  assert (Hidem : normalize_title (normalize_title t) = normalize_title t).
  { pose proof (normalize_title_chars t) as Hch.
    destruct (normalize_title t) as [|c0 r] eqn:En; [reflexivity|].
    rewrite normalize_title_eq by reflexivity.
    rewrite lower_fixed.
    2:{ eapply all_chars_impl; [|exact Hch]. unfold is_title_char.
        intros c H. now apply andb_true_iff in H as [H _]. }
    rewrite keep_chars_id.
    2:{ eapply all_chars_impl; [|exact Hch]. unfold is_title_char.
        intros c H. now apply andb_true_iff in H as [_ H]. }
    rewrite <- En. destruct (Py.is_empty t) eqn:E.
    { unfold normalize_title. now rewrite E. }
    rewrite normalize_title_eq by assumption.
    rewrite split_ws_join; [reflexivity|apply split_ws_tokens]. }
  split; [exact Hidem|].
  intros ratio b. unfold title_similarity. now rewrite Hidem.
Qed.

(* --------------------------------------------------------------------- *)
(** ** Author keys and display names                                       *)
(* --------------------------------------------------------------------- *)

(** A starred pattern before the end of the match never fails. *)
Lemma run_star_accept a s g : Re.run (Re.Star a) s g Re.accept <> None.
Proof.
  cbn [Re.run]. generalize (String.length s) at 1. intro n.
  destruct n as [|n]; [discriminate|].
  match goal with
  | |- match ?t with _ => _ end <> None => destruct t
  end; discriminate.
Qed.

Lemma rmatch_spaces c s :
  Py.is_space c = true -> Re.rmatch (Re.Plus Re.space) (String c s) <> None.
Proof.
  intro Hc. unfold Re.rmatch, Re.Plus, Re.space.
  change (Re.run (Re.Cat (Re.Chr Py.is_space) (Re.Star (Re.Chr Py.is_space)))
            (String c s) None Re.accept)
    with (if Py.is_space c
          then Re.run (Re.Star (Re.Chr Py.is_space)) s None Re.accept
          else None).
  rewrite Hc. apply run_star_accept.
Qed.

Lemma rmatch_suffix r s rest g :
  Re.rmatch r s = Some (rest, g) -> suffix_of rest s.
Proof.
  unfold Re.rmatch. intro H. apply run_suffix in H as [s' [g' [Hs H]]].
  unfold Re.accept in H. inversion H; subst. assumption.
Qed.

(** Replacing the runs of white space of a text of lower-case letters,
    digits and spaces by underscores leaves key characters only. *)
Lemma underscore_spaces_chars : forall n s,
  (String.length s < n)%nat ->
  all_chars (fun c => Py.is_lower c || Py.is_digit c || Ascii.eqb c " ") s = true ->
  all_chars is_key_char
    (Re.sub_loop n (Re.Plus Re.space) (fun _ => "_") s) = true.
Proof.
  induction n as [|n IH]; intros s Hn Hs; [inversion Hn|].
  cbn [Re.sub_loop].
  destruct (Re.rmatch (Re.Plus Re.space) s) as [[rest g]|] eqn:Em.
  - pose proof (rmatch_consumes (Re.Plus Re.space) s rest g eq_refl Em) as Hlt.
    apply Nat.ltb_lt in Hlt as Hlt'. rewrite Hlt'.
    rewrite all_chars_app. simpl. apply IH; [lia|].
    eapply all_chars_suffix; [eapply rmatch_suffix; exact Em|exact Hs].
  - destruct s as [|c s]; [reflexivity|].
    simpl in Hs. apply andb_true_iff in Hs as [Hc Hs].
    cbn [all_chars]. rewrite IH; [|simpl in Hn; lia|assumption].
    rewrite andb_true_r. unfold is_key_char.
    destruct (Ascii.eqb c " ") eqn:E.
    + apply Ascii.eqb_eq in E. subst c.
      exfalso. exact (rmatch_spaces " "%char s eq_refl Em).
    + rewrite orb_false_r in Hc. now rewrite Hc.
Qed.

Lemma normalize_name_chars s : all_chars is_key_char (normalize_name s) = true.
Proof.
  unfold normalize_name, Re.sub. apply underscore_spaces_chars; [lia|].
  apply strip_all. rewrite remove_chr.
  erewrite keep_chars_ext; [apply keep_chars_all|].
  intro c. apply negb_involutive.
Qed.

(** X9. An author key consists of lower-case letters, digits and
    underscores only. *)
Theorem make_author_key_chars (first last : string) :
  all_chars is_key_char (make_author_key first last) = true.
Proof.
  unfold make_author_key.
  destruct (Py.nonempty (normalize_name first)).
  - rewrite !all_chars_app, !normalize_name_chars. reflexivity.
  - apply normalize_name_chars.
Qed.

Lemma lstrip_token_head w s :
  is_token w = true -> Py.lstrip_by Py.is_space (w ++ s) = w ++ s.
Proof.
  intro H. pose proof (is_token_nonempty _ H) as Hn.
  apply is_token_chars in H.
  destruct w as [|c w]; [discriminate|].
  simpl in H. apply andb_true_iff in H as [Hc _].
  cbn [append Py.lstrip_by]. now destruct (Py.is_space c).
Qed.

Lemma rstrip_token w :
  is_token w = true -> Py.rstrip_by Py.is_space w = w.
Proof.
  intro H. pose proof (is_token_nonempty _ H) as Hn.
  apply is_token_chars in H.
  induction w as [|c w IH]; [reflexivity|].
  simpl in H. apply andb_true_iff in H as [Hc Hw].
  cbn [Py.rstrip_by].
  destruct w as [|c' w].
  - cbn [Py.rstrip_by]. now destruct (Py.is_space c).
  - rewrite IH; [reflexivity|assumption|reflexivity].
Qed.

Lemma strip_token w : is_token w = true -> Py.strip w = w.
Proof.
  intro H. unfold Py.strip.
  rewrite <- (str_app_nil_r w) at 1. rewrite lstrip_token_head by assumption.
  rewrite str_app_nil_r. now apply rstrip_token.
Qed.

(** Words joined by single spaces have no white space at either end. *)
Lemma strip_join ws :
  Forall (fun w => is_token w = true) ws ->
  Py.strip (Py.join " " ws) = Py.join " " ws.
Proof.
  intro H. destruct ws as [|x ws]; [reflexivity|].
  inversion H as [|? ? Hx Hws]; subst.
  revert x Hx H. induction ws as [|y ws IH]; intros x Hx H.
  - now apply strip_token.
  - inversion Hws as [|? ? Hy Hws']; subst.
    specialize (IH Hws' y Hy Hws).
    rewrite join_cons. unfold Py.strip in *.
    rewrite lstrip_token_head by assumption.
    rewrite <- str_app_assoc.
    assert (Hl : Py.lstrip_by Py.is_space (Py.join " " (y :: ws))
                 = Py.join " " (y :: ws)).
    { destruct ws as [|z ws].
      - cbn [Py.join]. rewrite <- (str_app_nil_r y).
        now apply lstrip_token_head.
      - rewrite join_cons. now apply lstrip_token_head. }
    rewrite Hl in IH.
    rewrite rstrip_by_app; [now rewrite IH|].
    rewrite IH. pose proof (is_token_nonempty _ Hy) as Hne.
    destruct ws as [|z ws]; [cbn [Py.join]|rewrite join_cons];
      destruct y; try discriminate.
Qed.

Lemma join_snoc ws w :
  ws <> [] -> Py.join " " (ws ++ [w])%list = Py.join " " ws ++ " " ++ w.
Proof.
  induction ws as [|x ws IH]; intro H; [contradiction|].
  destruct ws as [|y ws]; [reflexivity|].
  specialize (IH ltac:(discriminate)). cbn [app] in IH |- *.
  rewrite (join_cons " " x y (ws ++ [w])), IH, (join_cons " " x y ws).
  now rewrite !str_app_assoc.
Qed.

(** X10. The display name of an author written given names first is the
    author text with its runs of white space collapsed to single spaces. *)
Theorem display_name_of_plain_author (p : string) :
  Py.find_char "," p = None ->
  Py.split_ws p <> [] ->
  make_display_name (fst (parse_one_author p)) (snd (parse_one_author p))
  = Py.join " " (Py.split_ws p).
Proof.
  intros Hc Hw. unfold parse_one_author. rewrite Hc.
  pose proof (rev_involutive (Py.split_ws p)) as Hsp.
  assert (Hr : Forall (fun w => is_token w = true) (rev (Py.split_ws p))).
  { apply Forall_rev. apply split_ws_tokens. }
  destruct (rev (Py.split_ws p)) as [|w firsts].
  - exfalso. apply Hw. now rewrite <- Hsp.
  - rewrite <- Hsp. clear Hsp Hw.
    inversion Hr as [|? ? Hw0 Hf]; subst.
    destruct firsts as [|f firsts].
    + cbn [fst snd rev app Py.join]. unfold make_display_name.
      cbn [Py.nonempty Py.is_empty negb]. now apply strip_token.
    + cbn [fst snd]. rewrite (strip_token _ Hw0).
      assert (Hrf : Forall (fun w => is_token w = true) (rev (f :: firsts))).
      { now apply Forall_rev. }
      rewrite (strip_join _ Hrf).
      change (rev (w :: f :: firsts)) with (rev (f :: firsts) ++ [w])%list.
      assert (Hne : rev (f :: firsts) <> []).
      { cbn [rev]. intro H. now apply app_eq_nil in H as [_ H]. }
      rewrite (join_snoc _ w Hne).
      unfold make_display_name.
      assert (Hn : Py.nonempty (Py.join " " (rev (f :: firsts))) = true).
      { destruct (rev (f :: firsts)) as [|a l] eqn:Er; [contradiction|].
        inversion Hrf as [|? ? Ha _]; subst.
        pose proof (is_token_nonempty _ Ha) as Hae.
        destruct l; [cbn [Py.join]|rewrite join_cons];
          destruct a; try discriminate; reflexivity. }
      now rewrite Hn.
Qed.

Lemma display_name_of_plain_author_witness :
  make_display_name (fst (parse_one_author "Nouha   Dziri"))
                    (snd (parse_one_author "Nouha   Dziri"))
  = "Nouha Dziri".
Proof.
  apply (display_name_of_plain_author "Nouha   Dziri").
  - reflexivity.
  - discriminate.
Defined.

Lemma find_char_none c s :
  all_chars (fun a => negb (Ascii.eqb a c)) s = true -> Py.find_char c s = None.
Proof.
  induction s as [|a s IH]; simpl; [reflexivity|].
  intro H. apply andb_true_iff in H as [Ha Hs].
  destruct (Ascii.eqb a c); [discriminate|]. now rewrite IH.
Qed.

Lemma find_char_first c pre post :
  all_chars (fun a => negb (Ascii.eqb a c)) pre = true ->
  Py.find_char c (pre ++ String c post) = Some (pre, post).
Proof.
  induction pre as [|a pre IH]; simpl.
  - now rewrite Ascii.eqb_refl.
  - intro H. apply andb_true_iff in H as [Ha Hs].
    destruct (Ascii.eqb a c); [discriminate|]. now rewrite IH.
Qed.

(** X11. Both ways of writing a name in BibTeX give the same author: for
    a surname of one word and given names separated by single spaces,
    Surname comma Given-names and Given-names Surname are both parsed to
    the pair (given names, surname). *)
Theorem both_name_orders_agree (given : list string) (surname : string) :
  given <> [] ->
  Forall (fun w => is_token w = true) given ->
  is_token surname = true ->
  Forall (fun w => all_chars (fun a => negb (Ascii.eqb a ",")) w = true) given ->
  all_chars (fun a => negb (Ascii.eqb a ",")) surname = true ->
  parse_one_author (surname ++ ", " ++ Py.join " " given)
  = (Py.join " " given, surname)
  /\ parse_one_author (Py.join " " given ++ " " ++ surname)
     = (Py.join " " given, surname).
Proof.
  intros Hne Hg Hs Hgc Hsc. split.
  - unfold parse_one_author.
    change (surname ++ ", " ++ Py.join " " given)
      with (surname ++ String "," (String " " (Py.join " " given))).
    rewrite (find_char_first "," surname _ Hsc).
    rewrite strip_idem, strip_idem, (strip_token _ Hs).
    replace (Py.strip (String " " (Py.join " " given)))
      with (Py.strip (Py.join " " given)) by reflexivity.
    now rewrite (strip_join _ Hg).
  - unfold parse_one_author.
    rewrite <- (join_snoc given surname Hne).
    assert (Hall : Forall (fun w => is_token w = true) (given ++ [surname])).
    { apply Forall_app. split; [assumption|]. constructor; [assumption|constructor]. }
    rewrite find_char_none.
    2:{ apply join_all; [reflexivity|].
        apply Forall_app. split; [assumption|].
        constructor; [assumption|constructor]. }
    rewrite (split_ws_join _ Hall), rev_app_distr. cbn [rev app].
    destruct (rev given) as [|g gs] eqn:E.
    + exfalso. apply Hne. rewrite <- (rev_involutive given), E. reflexivity.
    + rewrite <- E, rev_involutive, (strip_join _ Hg), (strip_token _ Hs).
      reflexivity.
Qed.

Lemma both_name_orders_agree_witness :
  parse_one_author "Dziri, Nouha" = ("Nouha", "Dziri")
  /\ parse_one_author "Nouha Dziri" = ("Nouha", "Dziri").
Proof.
  apply (both_name_orders_agree ["Nouha"] "Dziri").
  - discriminate.
  - constructor; [reflexivity|constructor].
  - reflexivity.
  - constructor; [reflexivity|constructor].
  - reflexivity.
Defined.

(* --------------------------------------------------------------------- *)
(** ** The BibTeX parser: what it stores                                   *)
(* --------------------------------------------------------------------- *)

Lemma string_eqb_key (a b : string) : key_eqb a b = String.eqb a b.
Proof. reflexivity. Qed.

Lemma stored_field_set (fields : bib_entry) name value :
  (forall f v, dict_get f fields = Some v -> stored_field f v) ->
  forall f v,
    dict_get f (dict_set (Py.lower name) (Py.strip value) fields) = Some v ->
    stored_field f v.
Proof.
  intros H f v. rewrite dict_get_set, string_eqb_key.
  destruct (String.eqb f (Py.lower name)) eqn:E; [|apply H].
  apply String.eqb_eq in E. subst f. intro Hv. inversion Hv; subst.
  split; [apply lower_idem|apply strip_idem].
Qed.

Lemma parse_fields_loop_stored : forall fuel s fields,
  (forall f v, dict_get f fields = Some v -> stored_field f v) ->
  forall f v,
    dict_get f (parse_fields_loop fuel s fields) = Some v -> stored_field f v.
Proof.
  induction fuel as [|fuel IH]; intros s fields H; [exact H|].
  cbn [parse_fields_loop].
  destruct (Py.lstrip_by is_field_sep s) as [|c1 s1']; [exact H|].
  destruct (Re.rmatch field_re (String c1 s1')) as [[s2 g]|]; [|now apply IH].
  destruct s2 as [|c s3]; [exact H|].
  destruct (Ascii.eqb c "{").
  { apply IH. now apply stored_field_set. }
  destruct (Ascii.eqb c dquote).
  { destruct (Py.find_char dquote s3) as [[value rest]|].
    - apply IH. now apply stored_field_set.
    - now apply stored_field_set. }
  destruct (Re.rmatch bare_re (String c s3)) as [[rest g2]|].
  - apply IH. now apply stored_field_set.
  - now apply IH.
Qed.

Lemma parse_bib_fields_stored body f v :
  dict_get f (_parse_bib_fields body) = Some v -> stored_field f v.
Proof.
  apply parse_fields_loop_stored. intros f0 v0 H. discriminate H.
Qed.

Lemma parse_entries_shape : forall fuel s entries,
  (forall key entry, dict_get key entries = Some entry ->
     Py.strip key = key
     /\ (exists t, dict_get "_type" entry = Some t /\ Py.lower t = t)
     /\ forall f v, dict_get f entry = Some v ->
          Py.lower f = f /\ (f <> "_type" -> Py.strip v = v)) ->
  forall key entry, dict_get key (parse_entries fuel s entries) = Some entry ->
     Py.strip key = key
     /\ (exists t, dict_get "_type" entry = Some t /\ Py.lower t = t)
     /\ forall f v, dict_get f entry = Some v ->
          Py.lower f = f /\ (f <> "_type" -> Py.strip v = v).
Proof.
  induction fuel as [|fuel IH]; intros s entries H; [exact H|].
  cbn [parse_entries].
  destruct (Py.is_empty s); [exact H|].
  destruct (Re.search entry_re s) as [[[pre after] g]|]; [|exact H].
  destruct (Py.find_char "," after) as [[key_text after_comma]|]; [|exact H].
  apply IH. intros key entry. rewrite dict_get_set, string_eqb_key.
  destruct (String.eqb key (Py.strip key_text)) eqn:E; [|apply H].
  apply String.eqb_eq in E. subst key. intro Hv. inversion Hv; subst. clear Hv.
  split; [apply strip_idem|]. split.
  - exists (Py.lower (group1 g)). split; [apply dict_get_set_eq|apply lower_idem].
  - intros f v. rewrite dict_get_set, string_eqb_key.
    destruct (String.eqb f "_type") eqn:Ef.
    + apply String.eqb_eq in Ef. subst f. intros _. split; [reflexivity|].
      intro Hne. now contradiction Hne.
    + intro Hv. apply parse_bib_fields_stored in Hv as [Hf Hv].
      split; [assumption|]. intros _. assumption.
Qed.

(** X12. What parse_bibtex stores: every key is stripped, every record
    carries its type under [_type] in lower case, every field name is in
    lower case, and every field value is stripped. *)
Theorem parse_bibtex_entry_shape (text key : string) (entry : bib_entry) :
  dict_get key (parse_bibtex text) = Some entry ->
  Py.strip key = key
  /\ (exists t, dict_get "_type" entry = Some t /\ Py.lower t = t)
  /\ forall f v, dict_get f entry = Some v ->
       Py.lower f = f /\ (f <> "_type" -> Py.strip v = v).
Proof.
  unfold parse_bibtex. apply parse_entries_shape.
  intros k e H. discriminate H.
Qed.

Lemma parse_bibtex_entry_shape_witness :
  Py.strip "smith2020" = "smith2020"
  /\ (exists t,
        dict_get "_type"
          [("title", "The {B}ook of {W}hy"); ("year", "2020");
           ("_type", "article")] = Some t
        /\ Py.lower t = t)
  /\ forall f v,
       dict_get f [("title", "The {B}ook of {W}hy"); ("year", "2020");
                   ("_type", "article")] = Some v ->
       Py.lower f = f /\ (f <> "_type" -> Py.strip v = v).
Proof.
  apply (parse_bibtex_entry_shape nested_bib_text "smith2020").
  vm_compute. reflexivity.
Defined.

(* --------------------------------------------------------------------- *)
(** ** The BibTeX parser on well-formed input                              *)
(* --------------------------------------------------------------------- *)

(** The brace scan stops just after the brace that closes the text. *)
Lemma scan_close_balanced : forall body d rest,
  balanced body d = true ->
  scan_close (body ++ String "}" rest) (S d) = S (String.length body).
Proof.
  induction body as [|c body IH]; intros d rest H.
  - simpl in H. apply Nat.eqb_eq in H. subst d. simpl. now destruct rest.
  - cbn [balanced] in H. cbn [append scan_close String.length].
    destruct (Ascii.eqb c "{").
    + now rewrite IH.
    + destruct (Ascii.eqb c "}").
      * destruct d as [|d]; [discriminate|]. now rewrite IH.
      * now rewrite IH.
Qed.

Lemma take_app n : forall a b, n = String.length a -> Py.take n (a ++ b) = a.
Proof.
  induction n as [|n IH]; intros [|c a] b H; try discriminate; simpl.
  - now destruct b.
  - rewrite IH; [reflexivity|]. simpl in H. congruence.
Qed.

Lemma drop_app n : forall a b, n = String.length a -> Py.drop n (a ++ b) = b.
Proof.
  induction n as [|n IH]; intros [|c a] b H; try discriminate; simpl.
  - now destruct b.
  - apply IH. simpl in H. congruence.
Qed.

Lemma drop_past body c rest :
  Py.drop (S (String.length body)) (body ++ String c rest) = rest.
Proof.
  induction body as [|a body IH]; simpl; [now destruct rest|assumption].
Qed.

Lemma str_length_app (a b : string) :
  String.length (a ++ b) = (String.length a + String.length b)%nat.
Proof. induction a as [|c a IH]; simpl; [reflexivity|]. now rewrite IH. Qed.

(** A greedy run of one character class takes every character of the
    class and hands on what follows, when that starts with no character
    of the class and the rest of the pattern matches there. *)
Lemma run_star_chr p : forall w s g k res,
  all_chars p w = true ->
  (forall c s', s = String c s' -> p c = false) ->
  k s g = Some res ->
  Re.run (Re.Star (Re.Chr p)) (w ++ s) g k = Some res.
Proof.
  induction w as [|c w IH]; intros s g k res Hw Hs Hk.
  - cbn [append]. destruct s as [|c s]; simpl; [assumption|].
    now rewrite (Hs c s eq_refl).
  - simpl in Hw. apply andb_true_iff in Hw as [Hc Hw].
    specialize (IH s g k res Hw Hs Hk).
    cbn [append]. simpl. rewrite Hc.
    replace (String.length (w ++ s) <? S (String.length (w ++ s)))%nat
      with true by (symmetry; apply Nat.ltb_lt; lia).
    simpl in IH. rewrite IH. reflexivity.
Qed.

(** The group [(p+)] on a run of the class. *)
Lemma run_group_plus p w s g k res :
  w <> EmptyString ->
  all_chars p w = true ->
  (forall c s', s = String c s' -> p c = false) ->
  k s (Some w) = Some res ->
  Re.run (Re.Grp (Re.Plus (Re.Chr p))) (w ++ s) g k = Some res.
Proof.
  intros Hne Hw Hs Hk. destruct w as [|c w]; [contradiction|].
  simpl in Hw. apply andb_true_iff in Hw as [Hc Hw].
  unfold Re.Plus.
  change (Re.run (Re.Grp (Re.Cat (Re.Chr p) (Re.Star (Re.Chr p))))
            (String c w ++ s) g k)
    with (if p c
          then Re.run (Re.Star (Re.Chr p)) (w ++ s) g
                 (fun s' _ =>
                    k s' (Some (Py.take (String.length (String c w ++ s)
                                         - String.length s')
                                        (String c w ++ s))))
          else None).
  rewrite Hc. apply run_star_chr; [assumption|assumption|].
  rewrite take_app; [assumption|].
  rewrite str_length_app. lia.
Qed.

Lemma space_is_no_word c : Py.is_space c = true -> Py.is_word c = false.
Proof. destruct c as [[] [] [] [] [] [] [] []]; intro H; try reflexivity; discriminate H. Qed.

Lemma word_is_no_field_sep c : Py.is_word c = true -> is_field_sep c = false.
Proof. destruct c as [[] [] [] [] [] [] [] []]; intro H; try reflexivity; discriminate H. Qed.

Lemma head_of_spaces_then (q : ascii -> bool) sp c0 rest :
  all_chars Py.is_space sp = true ->
  (forall c, Py.is_space c = true -> q c = false) ->
  q c0 = false ->
  forall c s', sp ++ String c0 rest = String c s' -> q c = false.
Proof.
  intros Hsp Hq H0 c s' E. destruct sp as [|a sp].
  - simpl in E. inversion E; subst. assumption.
  - simpl in E, Hsp. inversion E; subst.
    apply andb_true_iff in Hsp as [Ha _]. now apply Hq.
Qed.

(** The opening of an entry, [@type{], with any white space before the
    brace. *)
Lemma rmatch_entry_re ty sp after :
  ty <> EmptyString -> all_chars Py.is_word ty = true ->
  all_chars Py.is_space sp = true ->
  Re.rmatch entry_re (String "@" (ty ++ sp ++ String "{" after))
  = Some (after, Some ty).
Proof.
  intros Hne Hty Hsp. unfold Re.rmatch, entry_re.
  change (Re.run (Re.Cat (Re.Lit "@")
                    (Re.Cat (Re.Grp (Re.Plus Re.word))
                       (Re.Cat (Re.Star Re.space) (Re.Lit "{"))))
            (String "@" (ty ++ sp ++ String "{" after)) None Re.accept)
    with (Re.run (Re.Grp (Re.Plus (Re.Chr Py.is_word)))
            (ty ++ sp ++ String "{" after) None
            (fun s' g' =>
               Re.run (Re.Star (Re.Chr Py.is_space)) s' g'
                 (fun s2 g2 => Re.run (Re.Lit "{") s2 g2 Re.accept))).
  apply run_group_plus; [assumption|assumption| |].
  - apply head_of_spaces_then; [assumption|apply space_is_no_word|reflexivity].
  - apply run_star_chr; [assumption| |reflexivity].
    intros c s' E. inversion E; subst. reflexivity.
Qed.

Lemma parse_entries_reads_entry
    (fuel : nat) (ty sp key body rest : string)
    (entries : dict string bib_entry) :
  ty <> EmptyString -> all_chars Py.is_word ty = true ->
  all_chars Py.is_space sp = true ->
  all_chars (fun a => negb (Ascii.eqb a ",")) key = true ->
  balanced body 0 = true ->
  parse_entries (S fuel)
    ("@" ++ ty ++ sp ++ "{" ++ key ++ "," ++ body ++ "}" ++ rest) entries
  = parse_entries fuel rest
      (dict_set (Py.strip key)
         (dict_set "_type" (Py.lower ty) (_parse_bib_fields body)) entries).
Proof.
  intros Hne Hty Hsp Hkey Hbody.
  cbn [parse_entries]. cbn [append Py.is_empty].
  change (Re.search entry_re
            (String "@" (ty ++ sp ++ String "{"
               (key ++ String "," (body ++ String "}" rest)))))
    with (match Re.rmatch entry_re
                  (String "@" (ty ++ sp ++ String "{"
                     (key ++ String "," (body ++ String "}" rest)))) with
          | Some (rest0, g) => Some (EmptyString, rest0, g)
          | None =>
              match Re.search entry_re
                      (ty ++ sp ++ String "{"
                         (key ++ String "," (body ++ String "}" rest))) with
              | Some (pre, rest0, g) => Some (String "@" pre, rest0, g)
              | None => None
              end
          end).
  rewrite (rmatch_entry_re ty sp _ Hne Hty Hsp).
  rewrite (find_char_first "," key _ Hkey).
  rewrite (scan_close_balanced body 0 rest Hbody).
  cbn [group1].
  replace (S (String.length body) - 1)%nat with (String.length body) by lia.
  rewrite (take_app (String.length body) body _ eq_refl).
  rewrite drop_past. reflexivity.
Qed.

(** X13. A file that starts with a well-formed entry: after [@type{key,]
    the body handed to the field parser is the text up to the matching
    closing brace, nested braces included, and the rest of the file is
    parsed with that record already stored. *)
Theorem parse_bibtex_reads_entry (ty sp key body rest : string) :
  ty <> EmptyString -> all_chars Py.is_word ty = true ->
  all_chars Py.is_space sp = true ->
  all_chars (fun a => negb (Ascii.eqb a ",")) key = true ->
  balanced body 0 = true ->
  parse_bibtex ("@" ++ ty ++ sp ++ "{" ++ key ++ "," ++ body ++ "}" ++ rest)
  = parse_entries (S (String.length rest)) rest
      [(Py.strip key,
        dict_set "_type" (Py.lower ty) (_parse_bib_fields body))].
Proof.
  intros Hne Hty Hsp Hkey Hbody. unfold parse_bibtex.
  rewrite (parse_entries_reads_entry _ ty sp key body rest [] Hne Hty Hsp Hkey Hbody).
  cbn [dict_set]. apply parse_entries_fuel; [|lia].
  cbn [append String.length].
  repeat (rewrite str_length_app; cbn [append String.length]). lia.
Qed.

Lemma parse_bibtex_reads_entry_witness :
  parse_bibtex nested_bib_text
  = [("smith2020",
      [("title", "The {B}ook of {W}hy"); ("year", "2020"); ("_type", "article")])].
Proof.
  apply (parse_bibtex_reads_entry "Article" EmptyString "smith2020"
           " Title = {The {B}ook of {W}hy}, year = 2020" EmptyString).
  - discriminate.
  - reflexivity.
  - reflexivity.
  - reflexivity.
  - reflexivity.
Defined.

Lemma lstrip_by_app p seps s :
  all_chars p seps = true ->
  (forall c s', s = String c s' -> p c = false) ->
  Py.lstrip_by p (seps ++ s) = s.
Proof.
  intros Hseps Hs. induction seps as [|a seps IH]; simpl.
  - destruct s as [|c s]; [reflexivity|]. simpl. now rewrite (Hs c s eq_refl).
  - simpl in Hseps. apply andb_true_iff in Hseps as [Ha Hseps].
    rewrite Ha. now apply IH.
Qed.

(** A field name, the equals sign and the white space around it. *)
Lemma rmatch_field_re name sp1 sp2 c0 tail :
  name <> EmptyString -> all_chars Py.is_word name = true ->
  all_chars Py.is_space sp1 = true -> all_chars Py.is_space sp2 = true ->
  Py.is_space c0 = false ->
  Re.rmatch field_re (name ++ sp1 ++ String "=" (sp2 ++ String c0 tail))
  = Some (String c0 tail, Some name).
Proof.
  intros Hne Hname Hsp1 Hsp2 Hc0. unfold Re.rmatch, field_re.
  change (Re.run
            (Re.Cat (Re.Grp (Re.Plus Re.word))
               (Re.Cat (Re.Star Re.space)
                  (Re.Cat (Re.Lit "=") (Re.Star Re.space))))
            (name ++ sp1 ++ String "=" (sp2 ++ String c0 tail)) None Re.accept)
    with (Re.run (Re.Grp (Re.Plus (Re.Chr Py.is_word)))
            (name ++ sp1 ++ String "=" (sp2 ++ String c0 tail)) None
            (fun s' g' =>
               Re.run (Re.Star (Re.Chr Py.is_space)) s' g'
                 (fun s2 g2 =>
                    Re.run (Re.Lit "=") s2 g2
                      (fun s3 g3 =>
                         Re.run (Re.Star (Re.Chr Py.is_space)) s3 g3 Re.accept)))).
  apply run_group_plus; [assumption|assumption| |].
  - apply head_of_spaces_then; [assumption|apply space_is_no_word|reflexivity].
  - apply run_star_chr; [assumption| |].
    + intros c s' E. destruct sp1; simpl in E; inversion E; subst; reflexivity.
    + change (Re.run (Re.Lit "=") (String "=" (sp2 ++ String c0 tail)) (Some name)
                (fun s3 g3 =>
                   Re.run (Re.Star (Re.Chr Py.is_space)) s3 g3 Re.accept))
        with (Re.run (Re.Star (Re.Chr Py.is_space)) (sp2 ++ String c0 tail)
                (Some name) Re.accept).
      apply run_star_chr; [assumption| |reflexivity].
      intros c s' E. inversion E; subst. assumption.
Qed.

Lemma field_text_head name tail :
  name <> EmptyString -> all_chars Py.is_word name = true ->
  forall c s', name ++ tail = String c s' -> is_field_sep c = false.
Proof.
  intros Hne Hname c s' E. destruct name as [|a name]; [contradiction|].
  simpl in E, Hname. inversion E; subst.
  apply andb_true_iff in Hname as [Ha _]. now apply word_is_no_field_sep.
Qed.

(** The start of one iteration of the field loop on a well-formed field:
    the separators are skipped and the name is read. *)
Lemma parse_fields_loop_head fuel seps name sp1 sp2 c0 tail fields :
  all_chars is_field_sep seps = true ->
  name <> EmptyString -> all_chars Py.is_word name = true ->
  all_chars Py.is_space sp1 = true -> all_chars Py.is_space sp2 = true ->
  Py.is_space c0 = false ->
  parse_fields_loop (S fuel)
    (seps ++ name ++ sp1 ++ String "=" (sp2 ++ String c0 tail)) fields
  = if Ascii.eqb c0 "{" then
      parse_fields_loop fuel (Py.drop (scan_close tail 1) tail)
        (dict_set (Py.lower name)
           (Py.strip (Py.take (scan_close tail 1 - 1) tail)) fields)
    else if Ascii.eqb c0 dquote then
      match Py.find_char dquote tail with
      | Some (value, rest) =>
          parse_fields_loop fuel rest
            (dict_set (Py.lower name) (Py.strip value) fields)
      | None => dict_set (Py.lower name) (Py.strip tail) fields
      end
    else
      match Re.rmatch bare_re (String c0 tail) with
      | Some (rest, g2) =>
          parse_fields_loop fuel rest
            (dict_set (Py.lower name) (Py.strip (group1 g2)) fields)
      | None => parse_fields_loop fuel tail fields
      end.
Proof.
  intros Hseps Hne Hname Hsp1 Hsp2 Hc0.
  pose proof (rmatch_field_re name sp1 sp2 c0 tail Hne Hname Hsp1 Hsp2 Hc0) as Hm.
  assert (Hl : Py.lstrip_by is_field_sep
                 (seps ++ name ++ sp1 ++ String "=" (sp2 ++ String c0 tail))
               = name ++ sp1 ++ String "=" (sp2 ++ String c0 tail)).
  { apply lstrip_by_app; [assumption|]. now apply field_text_head. }
  cbn [parse_fields_loop]. rewrite Hl.
  destruct name as [|a name']; [contradiction|].
  cbn [append] in Hm |- *. rewrite Hm. reflexivity.
Qed.

(** X14. A field written with braces: the value stored under the
    lower-case name is the stripped text up to the matching closing
    brace, nested braces included, and the other fields are parsed from
    what follows. *)
Theorem parse_bib_fields_reads_braced
    (seps name sp1 sp2 value rest : string) :
  all_chars is_field_sep seps = true ->
  name <> EmptyString -> all_chars Py.is_word name = true ->
  all_chars Py.is_space sp1 = true -> all_chars Py.is_space sp2 = true ->
  balanced value 0 = true ->
  _parse_bib_fields
    (seps ++ name ++ sp1 ++ "=" ++ sp2 ++ "{" ++ value ++ "}" ++ rest)
  = parse_fields_loop (S (String.length rest)) rest
      [(Py.lower name, Py.strip value)].
Proof.
  intros Hseps Hne Hname Hsp1 Hsp2 Hval. unfold _parse_bib_fields.
  cbn [append].
  rewrite (parse_fields_loop_head _ seps name sp1 sp2 "{"
             (value ++ String "}" rest) [] Hseps Hne Hname Hsp1 Hsp2 eq_refl).
  change (Ascii.eqb "{" "{") with true. cbv iota.
  rewrite (scan_close_balanced value 0 rest Hval).
  replace (S (String.length value) - 1)%nat with (String.length value) by lia.
  rewrite (take_app (String.length value) value _ eq_refl), drop_past.
  cbn [dict_set]. apply parse_fields_loop_fuel; [|lia].
  repeat (rewrite str_length_app; cbn [append String.length]). lia.
Qed.

Lemma parse_bib_fields_reads_braced_witness :
  _parse_bib_fields " Title = {The {B}ook of {W}hy}, year = 2020"
  = [("title", "The {B}ook of {W}hy"); ("year", "2020")].
Proof.
  apply (parse_bib_fields_reads_braced " " "Title" " " " "
           "The {B}ook of {W}hy" ", year = 2020").
  - reflexivity.
  - discriminate.
  - reflexivity.
  - reflexivity.
  - reflexivity.
  - reflexivity.
Defined.

Lemma bare_is_no_space c : is_bare_char c = true -> Py.is_space c = false.
Proof.
  unfold is_bare_char. intro H. apply negb_true_iff in H.
  now apply orb_false_iff in H as [H _].
Qed.

(** X15. A field written in quotes stores the stripped text up to the
    next quote; a field written bare (a number or a macro) stores the run
    of characters up to the next white space, comma or closing brace. *)
Theorem parse_bib_fields_reads_quoted_and_bare
    (seps name sp1 sp2 value rest : string) :
  all_chars is_field_sep seps = true ->
  name <> EmptyString -> all_chars Py.is_word name = true ->
  all_chars Py.is_space sp1 = true -> all_chars Py.is_space sp2 = true ->
  (all_chars (fun a => negb (Ascii.eqb a dquote)) value = true ->
   _parse_bib_fields
     (seps ++ name ++ sp1 ++ "=" ++ sp2
      ++ String dquote (value ++ String dquote rest))
   = parse_fields_loop (S (String.length rest)) rest
       [(Py.lower name, Py.strip value)])
  /\ (value <> EmptyString ->
      all_chars is_bare_char value = true ->
      Py.starts_with "{" value = false ->
      Py.starts_with (String dquote EmptyString) value = false ->
      (forall c s', rest = String c s' -> is_bare_char c = false) ->
      _parse_bib_fields (seps ++ name ++ sp1 ++ "=" ++ sp2 ++ value ++ rest)
      = parse_fields_loop (S (String.length rest)) rest
          [(Py.lower name, Py.strip value)]).
Proof.
  intros Hseps Hne Hname Hsp1 Hsp2. split.
  - intro Hval. unfold _parse_bib_fields. cbn [append].
    rewrite (parse_fields_loop_head _ seps name sp1 sp2 dquote
               (value ++ String dquote rest) [] Hseps Hne Hname Hsp1 Hsp2 eq_refl).
    change (Ascii.eqb dquote "{") with false.
    change (Ascii.eqb dquote dquote) with true. cbv iota.
    rewrite (find_char_first dquote value rest Hval).
    cbn [dict_set]. apply parse_fields_loop_fuel; [|lia].
    repeat (rewrite str_length_app; cbn [append String.length]). lia.
  - intros Hv Hbare Hb Hq Hrest. unfold _parse_bib_fields. cbn [append].
    destruct value as [|c0 value']; [contradiction|].
    pose proof Hbare as Hbare'.
    simpl in Hbare'. apply andb_true_iff in Hbare' as [Hc0 _].
    cbn [append].
    rewrite (parse_fields_loop_head _ seps name sp1 sp2 c0
               (value' ++ rest) [] Hseps Hne Hname Hsp1 Hsp2
               (bare_is_no_space _ Hc0)).
    cbn [Py.starts_with] in Hb, Hq. rewrite andb_true_r in Hb, Hq.
    rewrite Ascii.eqb_sym in Hb. rewrite Ascii.eqb_sym in Hq.
    rewrite Hb, Hq.
    assert (Hm : Re.rmatch bare_re (String c0 (value' ++ rest))
                 = Some (rest, Some (String c0 value'))).
    { unfold Re.rmatch, bare_re.
      apply (run_group_plus is_bare_char (String c0 value') rest None Re.accept);
        [discriminate|assumption|assumption|reflexivity]. }
    rewrite Hm. cbn [group1 dict_set].
    apply parse_fields_loop_fuel; [|lia].
    repeat (rewrite str_length_app; cbn [append String.length]). lia.
Qed.

Lemma parse_bib_fields_reads_quoted_and_bare_witness :
  _parse_bib_fields
    ("year = " ++ String dquote ("2020 " ++ String dquote EmptyString))
  = [("year", "2020")]
  /\ _parse_bib_fields "year = 2020" = [("year", "2020")].
Proof.
  destruct (parse_bib_fields_reads_quoted_and_bare
              EmptyString "year" " " " " "2020 " EmptyString
              eq_refl ltac:(discriminate) eq_refl eq_refl eq_refl) as [Hq _].
  destruct (parse_bib_fields_reads_quoted_and_bare
              EmptyString "year" " " " " "2020" EmptyString
              eq_refl ltac:(discriminate) eq_refl eq_refl eq_refl) as [_ Hb].
  split.
  - apply Hq. reflexivity.
  - apply Hb.
    + discriminate.
    + reflexivity.
    + reflexivity.
    + reflexivity.
    + intros c s' E. discriminate E.
Defined.

(* --------------------------------------------------------------------- *)
(** ** audit_refs.py: what the audit reports as an error                   *)
(* --------------------------------------------------------------------- *)

Lemma sorted_diff_nil a b :
  sorted_diff a b = [] <-> forall x, In x a -> In x b.
Proof.
  split.
  - intros H x Hx. destruct (mem_Z x b) eqn:E; [now apply mem_Z_In|].
    assert (Hin : In x (sorted_diff a b)) by (apply sorted_diff_In; auto).
    rewrite H in Hin. contradiction.
  - intro H. destruct (sorted_diff a b) as [|x l] eqn:E; [reflexivity|].
    assert (Hin : In x (sorted_diff a b)) by (rewrite E; now left).
    apply sorted_diff_In in Hin as [Hx Hb].
    apply mem_Z_false in Hb. exfalso. apply Hb, H, Hx.
Qed.

Lemma filter_nil {A : Type} (f : A -> bool) l :
  filter f l = [] <-> forall x, In x l -> f x = false.
Proof.
  induction l as [|a l IH]; simpl; [tauto|].
  destruct (f a) eqn:E.
  - split; [discriminate|]. intro H. specialize (H a (or_introl eq_refl)).
    congruence.
  - rewrite IH. split.
    + intros H x [<-|Hx]; auto.
    + intros H x Hx. apply H. now right.
Qed.

Lemma map_nil {A B : Type} (f : A -> B) l : map f l = [] <-> l = [].
Proof. destruct l; simpl; split; congruence. Qed.



Lemma keys_without_nil f (store : dict string record) :
  keys_without f store = []
  <-> forall k r, In (k, r) store -> json_truthy (dict_get f r) = true.
Proof.
  unfold keys_without. rewrite map_nil, filter_nil. split.
  - intros H k r Hin. specialize (H _ Hin). simpl in H.
    now apply negb_false_iff in H.
  - intros H [k r] Hin. simpl. now rewrite (H k r Hin).
Qed.


(* --------------------------------------------------------------------- *)
(** ** audit_refs.py: gaps in the numbering                                *)
(* --------------------------------------------------------------------- *)

Lemma list_max_spec l : forall hd,
  In (list_max hd l) (hd :: l) /\ forall m, In m (hd :: l) -> m <= list_max hd l.
Proof.
  unfold list_max. induction l as [|a l IH]; intro hd; simpl.
  - split; [now left|]. intros m [<-|[]]. lia.
  - destruct (IH (Z.max hd a)) as [Hin Hmax]. split.
    + destruct Hin as [E|Hin]; [|now right; right].
      rewrite <- E.
      destruct (Z.max_spec hd a) as [[_ E']|[_ E']]; rewrite E'; simpl; auto.
    + intros m [<-|[<-|Hm]].
      * specialize (Hmax (Z.max hd a) (or_introl eq_refl)). lia.
      * specialize (Hmax (Z.max hd a) (or_introl eq_refl)). lia.
      * apply Hmax. now right.
Qed.

Lemma in_range_from_one k n :
  In k (map Z.of_nat (seq 1 n)) <-> 1 <= k <= Z.of_nat n.
Proof.
  rewrite in_map_iff. split.
  - intros [i [<- Hi]]. apply in_seq in Hi. lia.
  - intro H. exists (Z.to_nat k). split; [lia|]. apply in_seq. lia.
Qed.

(** X17. A number is reported as a gap in the numbering exactly when it
    is positive, is no entry number, and a larger entry number exists. *)
Theorem numbering_gaps_spec (entry_nums : list Z) (k : Z) :
  In k (numbering_gaps entry_nums)
  <-> 1 <= k /\ ~ In k entry_nums /\ exists m, In m entry_nums /\ k < m.
Proof.
  unfold numbering_gaps. destruct entry_nums as [|n rest].
  - simpl. split; [tauto|]. intros [_ [_ [m [[] _]]]].
  - rewrite filter_In, in_range_from_one, negb_true_iff, mem_Z_false.
    destruct (list_max_spec rest n) as [Hin Hmax]. split.
    + intros [[H1 H2] Hnot]. split; [assumption|]. split; [assumption|].
      exists (list_max n rest). split; [assumption|].
      assert (k <> list_max n rest) by (intro E; apply Hnot; now rewrite E).
      lia.
    + intros [H1 [Hnot [m [Hm Hlt]]]]. split; [|assumption].
      specialize (Hmax m Hm). lia.
Qed.

(* --------------------------------------------------------------------- *)
(** ** The stores of the builder under the audit                           *)
(* --------------------------------------------------------------------- *)

Lemma dict_set_In {V : Type} (k k' : string) (v v' : V) (d : dict string V) :
  In (k', v') (dict_set k v d) -> (k', v') = (k, v) \/ In (k', v') d.
Proof.
  induction d as [|[k0 v0] d IH]; simpl.
  - intros [E|[]]. left. now symmetry.
  - destruct (String.eqb k k0) eqn:E.
    + apply String.eqb_eq in E. subst k0. intros [H|H]; auto.
    + intros [H|H]; [auto|]. destruct (IH H); auto.
Qed.

Lemma normalize_name_empty : normalize_name EmptyString = EmptyString.
Proof. reflexivity. Qed.

(** A name with a non-empty key has a non-empty display name. *)
Lemma display_name_nonempty first last :
  make_author_key first last <> EmptyString ->
  make_display_name first last <> EmptyString.
Proof.
  unfold make_author_key, make_display_name. intro H.
  destruct first as [|c first].
  - rewrite normalize_name_empty in H. cbn [Py.nonempty Py.is_empty negb] in *.
    destruct last; [|discriminate]. now rewrite normalize_name_empty in H.
  - cbn [Py.nonempty Py.is_empty negb]. discriminate.
Qed.

Lemma add_author_records existing (P : string -> record -> Prop) :
  (forall fl, make_author_key (fst fl) (snd fl) <> EmptyString ->
     P (make_author_key (fst fl) (snd fl)) (author_record existing fl)) ->
  forall pairs authors,
    (forall k r, In (k, r) authors -> P k r) ->
    forall k r,
      In (k, r) (fold_left (add_author existing) pairs authors) -> P k r.
Proof.
  intros HP. induction pairs as [|fl pairs IH]; intros authors H; [exact H|].
  simpl. apply IH. intros k r. rewrite add_author_eq.
  destruct (Py.nonempty (make_author_key (fst fl) (snd fl))) eqn:E;
    [|apply H].
  destruct (negb (dict_mem (make_author_key (fst fl) (snd fl)) authors));
    [|apply H].
  cbn [andb]. intro Hin. apply dict_set_In in Hin as [Heq|Hin]; [|now apply H].
  inversion Heq; subst. apply HP.
  destruct (make_author_key (fst fl) (snd fl)); [discriminate|discriminate].
Qed.

Lemma built_author_record existing pairs k r :
  In (k, r) (fold_left (add_author existing) pairs []) ->
  k <> EmptyString
  /\ all_chars is_key_char k = true
  /\ exists d, dict_get "displayName" r = Some (JStr d) /\ d <> EmptyString.
Proof.
  apply (add_author_records existing
           (fun k r =>
              k <> EmptyString /\ all_chars is_key_char k = true
              /\ exists d, dict_get "displayName" r = Some (JStr d)
                           /\ d <> EmptyString)).
  - intros fl Hne. split; [assumption|]. split.
    { unfold make_author_key.
      destruct (Py.nonempty (normalize_name (fst fl)));
        [rewrite !all_chars_app, !normalize_name_chars; reflexivity
        |apply normalize_name_chars]. }
    exists (make_display_name (fst fl) (snd fl)).
    split; [apply author_record_display|now apply display_name_nonempty].
  - intros k0 r0 [].
Qed.

(** X18. Every record of the authors store has a non-empty key of
    lower-case letters, digits and underscores, and a non-empty display
    name. *)
Theorem author_records_have_display_names :
  forall (ratio : string -> string -> Q) (bib_text : string)
         (chapters : list (string * list html_ref))
         (existing_refs existing_authors : dict string record),
  exists cm refs authors,
    build_databases ratio bib_text chapters existing_refs existing_authors
    = Some (cm, refs, authors)
    /\ forall k r, In (k, r) authors ->
         k <> EmptyString
         /\ all_chars is_key_char k = true
         /\ exists d, dict_get "displayName" r = Some (JStr d)
                      /\ d <> EmptyString.
Proof.
  intros ratio bib_text chapters existing_refs existing_authors.
  destruct (collect_total ratio (parse_bibtex bib_text) chapters)
    as [c [Hc _]].
  exists (chapter_map c), (build_references c existing_refs),
         (build_authors c existing_authors).
  split; [now apply build_databases_eq|].
  intros k r. rewrite build_authors_flat. apply built_author_record.
Qed.

(** Over a store whose records hold a list of strings as authors and a
    string or null as URL, every spot check can be made. *)
Lemma typed_store_completes chapters chapter_map
    (references : dict string record) :
  (forall k r, dict_get k references = Some r ->
     (exists l, dict_get "authors" r = Some (JArr (map JStr l)))
     /\ (exists u, dict_get "url" r = Some (json_str_or_null u))) ->
  audit_completes chapters chapter_map references.
Proof.
  intros H ch num _ _. unfold spot_checkable, checked_record.
  destruct (dict_get num (map_of chapter_map (fst ch))) as [bib_key|];
    [|reflexivity].
  destruct (Py.is_empty bib_key); [reflexivity|].
  destruct (dict_get bib_key references) as [r|] eqn:Er; [|reflexivity].
  destruct (H _ _ Er) as [[l ->] [u ->]].
  apply andb_true_iff. split.
  - apply orb_true_iff. right. unfold json_str_or_null.
    destruct (Py.nonempty u); reflexivity.
  - apply forallb_forall. intros j Hj.
    apply in_map_iff in Hj as [a [<- _]]. reflexivity.
Qed.

(** X19. The stores the builder writes pass the store checks of the
    audit: whatever the documents, the audit completes, no author is
    reported without a display name, and for a chapter map whose keys are
    those of the chapter map of the builder no number is reported to map
    to a missing record. *)
Theorem built_stores_pass_store_checks :
  forall (ratio : string -> string -> Q) (bib_text : string)
         (chapters : list (string * list html_ref))
         (existing_refs existing_authors : dict string record),
  exists cm refs authors,
    build_databases ratio bib_text chapters existing_refs existing_authors
    = Some (cm, refs, authors)
    /\ forall (docs : list (string * parsed_chapter))
              (audit_map : dict string chapter_nums),
       exists st,
         run_audit docs audit_map refs authors = Some st
         /\ (forall a, ~ In (No_display_name a) (issues st))
         /\ ((forall slug m n k,
                dict_get slug audit_map = Some m -> In (n, k) m ->
                exists cmap num,
                  dict_get slug cm = Some cmap /\ dict_get num cmap = Some k) ->
             forall slug n k, ~ In (Missing_record slug n k) (issues st)).
Proof.
  intros ratio bib_text chapters existing_refs existing_authors.
  destruct (collect_total ratio (parse_bibtex bib_text) chapters)
    as [c [Hc [Hnd [Htot Hkeys]]]].
  exists (chapter_map c), (build_references c existing_refs),
         (build_authors c existing_authors).
  split; [now apply build_databases_eq|].
  intros docs audit_map.
  destruct (run_audit_some docs audit_map (build_references c existing_refs)
              (build_authors c existing_authors)) as [st [Hrun [I _]]].
  { apply typed_store_completes. intros k r Hk.
    rewrite build_references_map in Hk by assumption.
    rewrite (dict_get_map (built_record c existing_refs)) in Hk.
    destruct (dict_get k (all_matches c)) as [entry|]; [|discriminate].
    inversion Hk; subst r. unfold built_record. cbn [fst snd].
    assert (Hget : forall f v,
               In (f, v) (core_fields (html_urls c) k entry) ->
               dict_get f (merge_record (core_fields (html_urls c) k entry)
                             (prior_record k existing_refs)) = Some v).
    { apply merge_get_core.
      - rewrite core_fields_keys. apply authoritative_fields_distinct.
      - rewrite core_fields_keys. apply screenshot_not_authoritative. }
    split; eexists; apply Hget; unfold core_fields; simpl; tauto. }
  exists st. split; [exact Hrun|]. rewrite I. split.
  - intros a Hin.
    apply in_app_or in Hin as [Hin|Hin].
    { apply in_flat_map in Hin as [ch [_ Hin]]. unfold chapter_errors in Hin.
      repeat (apply in_app_or in Hin as [Hin|Hin]);
        apply in_map_iff in Hin as [x [Hx _]]; discriminate Hx. }
    apply in_app_or in Hin as [Hin|Hin].
    { apply in_map_iff in Hin as [x [Hx _]]. discriminate Hx. }
    assert (E : keys_without "displayName" (build_authors c existing_authors) = []).
    { apply keys_without_nil. intros k r Hkr.
      rewrite build_authors_flat in Hkr.
      apply built_author_record in Hkr as [_ [_ [d [Hd Hne]]]].
      rewrite Hd. simpl. now destruct d. }
    rewrite E in Hin. contradiction.
  - intros Hmap slug n k Hin.
    apply in_app_or in Hin as [Hin|Hin].
    2:{ apply in_app_or in Hin as [Hin|Hin];
          apply in_map_iff in Hin as [x [Hx _]]; discriminate Hx. }
    apply in_flat_map in Hin as [ch [_ Hin]]. unfold chapter_errors in Hin.
    apply in_app_or in Hin as [Hin|Hin].
    { apply in_map_iff in Hin as [x [Hx _]]. discriminate Hx. }
    apply in_app_or in Hin as [Hin|Hin].
    { apply in_map_iff in Hin as [x [Hx _]]. discriminate Hx. }
    apply in_app_or in Hin as [Hin|Hin].
    { apply in_map_iff in Hin as [x [Hx _]]. discriminate Hx. }
    apply in_map_iff in Hin as [[n0 k0] [Hx Hin]]. cbn [fst snd] in Hx.
    inversion Hx; subst. apply filter_In in Hin as [Hin Hmem].
    cbn [snd] in Hmem. apply negb_true_iff in Hmem.
    unfold map_of in Hin.
    destruct (dict_get (fst ch) audit_map) as [m|] eqn:Em; [|contradiction].
    destruct (Hmap _ _ _ _ Em Hin) as [cmap [num [Hslug Hnum]]].
    assert (Hk : In k (dict_keys (all_matches c))).
    { apply (Htot cmap k); eapply dict_get_value; eauto. }
    rewrite <- (build_references_keys c existing_refs Hnd) in Hk.
    apply dict_mem_In in Hk. congruence.
Qed.

(* --------------------------------------------------------------------- *)
(** ** dedup_refs.py: the numbers after the rewrite                        *)
(* --------------------------------------------------------------------- *)

(** The final map exists and holds the final number of every number of
    the chapter map. *)
Lemma final_map_exists (cm : chapter_nums) :
  NoDup (dict_keys cm) ->
  exists fm,
    make_plan cm = Some (plan_with cm fm)
    /\ forall n, In n (dict_keys cm) ->
         dict_get n fm
         = final_number (fst (build_redirect_map cm))
             (build_renumber_map (dict_keys cm) (snd (build_redirect_map cm))) n.
Proof.
  intro Hnd.
  destruct (build_final_map_spec (fst (build_redirect_map cm))
              (build_renumber_map (dict_keys cm) (snd (build_redirect_map cm)))
              (dict_keys cm) []) as [fm [Hfm Hget]].
  { intros n Hn. destruct (final_number_defined cm n Hnd Hn) as [v [Hv _]].
    congruence. }
  exists fm. split.
  - rewrite make_plan_eq, Hfm. reflexivity.
  - intros n Hn. rewrite Hget. apply mem_Z_In in Hn. now rewrite Hn.
Qed.

Lemma kept_entries_NoDup cm : NoDup (kept_entries cm).
Proof. apply strictly_sorted_NoDup, sorted_set_sorted. Qed.

(** The new numbers of the kept entries are exactly 1 to K. *)
Lemma renumber_range (cm : chapter_nums) v :
  (exists n, In n (kept_entries cm)
             /\ dict_get n (build_renumber_map (dict_keys cm)
                              (snd (build_redirect_map cm))) = Some v)
  <-> 1 <= v <= Z.of_nat (List.length (kept_entries cm)).
Proof.
  unfold build_renumber_map. fold (kept_entries cm). split.
  - intros [n [_ Hv]]. apply number_from_get in Hv. lia.
  - intro Hv. exists (nth (Z.to_nat (v - 1)) (kept_entries cm) 0). split.
    + apply nth_In. lia.
    + rewrite number_from_nth; [f_equal; lia|apply kept_entries_NoDup|lia].
Qed.

Lemma no_gaps_in_range (l : list Z) (K : nat) :
  (forall v, In v l <-> 1 <= v <= Z.of_nat K) -> numbering_gaps l = [].
Proof.
  intro H. unfold numbering_gaps. destruct l as [|n rest]; [reflexivity|].
  apply filter_nil. intros k Hk. apply in_range_from_one in Hk.
  apply negb_false_iff, mem_Z_In, H.
  destruct (list_max_spec rest n) as [Hin _]. apply H in Hin. lia.
Qed.

(** The final map holds the final numbers of the numbers of the chapter
    map and nothing else. *)
Lemma final_map_exact (cm : chapter_nums) :
  NoDup (dict_keys cm) ->
  exists fm,
    make_plan cm = Some (plan_with cm fm)
    /\ forall n,
         dict_get n fm
         = if mem_Z n (dict_keys cm)
           then final_number (fst (build_redirect_map cm))
                  (build_renumber_map (dict_keys cm)
                     (snd (build_redirect_map cm))) n
           else None.
Proof.
  intro Hnd.
  destruct (build_final_map_spec (fst (build_redirect_map cm))
              (build_renumber_map (dict_keys cm) (snd (build_redirect_map cm)))
              (dict_keys cm) []) as [fm [Hfm Hget]].
  { intros n Hn. destruct (final_number_defined cm n Hnd Hn) as [v [Hv _]].
    congruence. }
  exists fm. split.
  - rewrite make_plan_eq, Hfm. reflexivity.
  - intro n. rewrite Hget. reflexivity.
Qed.

Lemma number_from_values l : forall start v,
  In v (dict_values (number_from start l))
  <-> start <= v < start + Z.of_nat (List.length l).
Proof.
  unfold dict_values.
  induction l as [|x l IH]; intros start v; simpl.
  - split; [tauto|lia].
  - rewrite IH. split.
    + intros [<-|H]; lia.
    + intro H. destruct (Z.eq_dec start v); [now left|right; lia].
Qed.

(** X20. The numbers the plan hands out leave nothing for the audit to
    report: the new numbers of the kept entries are exactly 1 to K, so
    the gap check of the audit finds no gap in them; and the final number
    of every number of the chapter map is one of them, so the check for
    dangling citations finds none among the final numbers of citations
    of numbers of the map. *)
Theorem dedup_numbering_is_gapless (cm : chapter_nums) :
  NoDup (dict_keys cm) ->
  exists plan,
    make_plan cm = Some plan
    /\ (forall v, In v (dict_values (plan_renumber plan))
                  <-> 1 <= v <= Z.of_nat (List.length (kept_entries cm)))
    /\ (forall n c, dict_get n (plan_final plan) = Some c ->
                    In c (dict_values (plan_renumber plan)))
    /\ numbering_gaps (dict_values (plan_renumber plan)) = []
    /\ forall cited final,
         Forall2 (fun n c => dict_get n (plan_final plan) = Some c) cited final ->
         sorted_diff final (dict_values (plan_renumber plan)) = [].
Proof.
  intro Hnd. destruct (final_map_exact cm Hnd) as [fm [Hplan Hget]].
  exists (plan_with cm fm). split; [exact Hplan|].
  cbn [plan_with plan_renumber plan_final].
  assert (Hv : forall v,
             In v (dict_values (build_renumber_map (dict_keys cm)
                                  (snd (build_redirect_map cm))))
             <-> 1 <= v <= Z.of_nat (List.length (kept_entries cm))).
  { intro v. unfold build_renumber_map. fold (kept_entries cm).
    rewrite number_from_values. lia. }
  assert (Hf : forall n c, dict_get n fm = Some c ->
             In c (dict_values (build_renumber_map (dict_keys cm)
                                  (snd (build_redirect_map cm))))).
  { intros n c Hc. rewrite Hget in Hc.
    destruct (mem_Z n (dict_keys cm)) eqn:Hn; [|discriminate].
    apply mem_Z_In in Hn.
    destruct (final_number_defined cm n Hnd Hn) as [w [Hw Hr]].
    rewrite Hw in Hc. inversion Hc; subst. apply Hv. exact Hr. }
  split; [exact Hv|]. split; [exact Hf|]. split.
  - eapply no_gaps_in_range. exact Hv.
  - intros cited final H. apply sorted_diff_nil. intros c Hc.
    induction H as [|n c0 cited final Hn H IH]; [contradiction|].
    destruct Hc as [<-|Hc]; [eapply Hf; exact Hn|now apply IH].
Qed.

Lemma dedup_numbering_is_gapless_witness :
  exists plan,
    make_plan dup_map = Some plan
    /\ (forall v, In v (dict_values (plan_renumber plan))
                  <-> 1 <= v <= Z.of_nat (List.length (kept_entries dup_map)))
    /\ (forall n c, dict_get n (plan_final plan) = Some c ->
                    In c (dict_values (plan_renumber plan)))
    /\ numbering_gaps (dict_values (plan_renumber plan)) = []
    /\ forall cited final,
         Forall2 (fun n c => dict_get n (plan_final plan) = Some c) cited final ->
         sorted_diff final (dict_values (plan_renumber plan)) = [].
Proof.
  apply (dedup_numbering_is_gapless dup_map).
  repeat constructor; simpl; intuition discriminate.
Defined.

Lemma number_from_inj l : forall start a b v,
  NoDup l ->
  dict_get a (number_from start l) = Some v ->
  dict_get b (number_from start l) = Some v -> a = b.
Proof.
  induction l as [|x l IH]; intros start a b v Hnd Ha Hb; [discriminate|].
  inversion Hnd as [|? ? Hx Hnd']; subst. simpl in Ha, Hb.
  destruct (Z.eqb_spec a x) as [->|Hax]; destruct (Z.eqb_spec b x) as [->|Hbx].
  - reflexivity.
  - inversion Ha; subst. apply number_from_get in Hb. lia.
  - inversion Hb; subst. apply number_from_get in Ha. lia.
  - eapply IH; eauto.
Qed.

Lemma number_from_mono l : forall start a b va vb,
  StronglySorted Z.lt l ->
  dict_get a (number_from start l) = Some va ->
  dict_get b (number_from start l) = Some vb ->
  a < b -> va < vb.
Proof.
  induction l as [|x l IH]; intros start a b va vb Hs Ha Hb Hlt; [discriminate|].
  inversion Hs as [|? ? Hs' Hx]; subst. simpl in Ha, Hb.
  destruct (Z.eqb_spec a x) as [->|Hax]; destruct (Z.eqb_spec b x) as [->|Hbx].
  - lia.
  - inversion Ha; subst. apply number_from_get in Hb. lia.
  - apply number_from_get in Ha as [Ha _].
    rewrite Forall_forall in Hx. specialize (Hx a Ha). lia.
  - eapply IH; eauto.
Qed.

(** The final number of a number of the chapter map is the new number of
    the least number of its key. *)
Lemma final_of_key (cm : chapter_nums) fm n k :
  NoDup (dict_keys cm) ->
  (forall n, In n (dict_keys cm) ->
     dict_get n fm
     = final_number (fst (build_redirect_map cm))
         (build_renumber_map (dict_keys cm) (snd (build_redirect_map cm))) n) ->
  dict_get n cm = Some k ->
  dict_get n fm
  = dict_get (lmin (nums_of_key k cm))
      (build_renumber_map (dict_keys cm) (snd (build_redirect_map cm))).
Proof.
  intros Hnd Hget Hk.
  assert (Hn : In n (dict_keys cm)) by (apply dict_get_In; congruence).
  rewrite (Hget n Hn). unfold final_number.
  pose proof (redirect_target cm n k Hnd Hk) as Ht.
  destruct (dict_get n (fst (build_redirect_map cm))); now rewrite Ht.
Qed.

(** X21. The rewrite keeps what every citation cites and the order of
    the entries: two numbers of the chapter map get the same final number
    exactly when they carry the same key, and of two kept numbers the
    smaller gets the smaller new number. *)
Theorem dedup_preserves_keys_and_order (cm : chapter_nums) :
  NoDup (dict_keys cm) ->
  exists plan,
    make_plan cm = Some plan
    /\ (forall n m kn km,
          dict_get n cm = Some kn -> dict_get m cm = Some km ->
          (dict_get n (plan_final plan) = dict_get m (plan_final plan)
           <-> kn = km))
    /\ (forall n m vn vm,
          mem_Z n (plan_removed plan) = false ->
          mem_Z m (plan_removed plan) = false ->
          dict_get n (plan_final plan) = Some vn ->
          dict_get m (plan_final plan) = Some vm ->
          In n (dict_keys cm) -> In m (dict_keys cm) ->
          n < m -> vn < vm).
Proof.
  intro Hnd. destruct (final_map_exists cm Hnd) as [fm [Hplan Hget]].
  exists (plan_with cm fm). split; [exact Hplan|].
  cbn [plan_with plan_final plan_removed]. split.
  - intros n m kn km Hn Hm.
    rewrite (final_of_key cm fm n kn Hnd Hget Hn).
    rewrite (final_of_key cm fm m km Hnd Hget Hm).
    destruct (lmin_kept cm n kn Hnd Hn) as [Hcn Hkn].
    destruct (lmin_kept cm m km Hnd Hm) as [Hcm Hkm].
    split.
    + intro E. unfold build_renumber_map in E.
      destruct (number_from_In _ 1 _ Hkn) as [v Hv].
      rewrite Hv in E. symmetry in E.
      pose proof (number_from_inj _ _ _ _ _
                    (strictly_sorted_NoDup _ (sorted_set_sorted _)) Hv E) as Heq.
      rewrite Heq in Hcn. congruence.
    + intros ->. reflexivity.
  - intros n m vn vm Hrn Hrm Hvn Hvm Hn Hm Hlt.
    rewrite (Hget n Hn) in Hvn. rewrite (Hget m Hm) in Hvm.
    unfold final_number in Hvn, Hvm.
    rewrite (kept_not_redirected cm n Hnd Hrn) in Hvn.
    rewrite (kept_not_redirected cm m Hnd Hrm) in Hvm.
    unfold build_renumber_map in Hvn, Hvm.
    exact (number_from_mono _ _ _ _ _ _ (sorted_set_sorted _) Hvn Hvm Hlt).
Qed.

Lemma dedup_preserves_keys_and_order_witness :
  exists plan,
    make_plan dup_map = Some plan
    /\ (forall n m kn km,
          dict_get n dup_map = Some kn -> dict_get m dup_map = Some km ->
          (dict_get n (plan_final plan) = dict_get m (plan_final plan)
           <-> kn = km))
    /\ (forall n m vn vm,
          mem_Z n (plan_removed plan) = false ->
          mem_Z m (plan_removed plan) = false ->
          dict_get n (plan_final plan) = Some vn ->
          dict_get m (plan_final plan) = Some vm ->
          In n (dict_keys dup_map) -> In m (dict_keys dup_map) ->
          n < m -> vn < vm).
Proof.
  apply (dedup_preserves_keys_and_order dup_map).
  repeat constructor; simpl; intuition discriminate.
Defined.

Lemma insert_uniq_length x l :
  ~ In x l -> List.length (insert_uniq x l) = S (List.length l).
Proof.
  induction l as [|y l IH]; intro H; simpl; [reflexivity|].
  destruct (x <? y); [reflexivity|].
  destruct (Z.eqb_spec x y) as [->|Hne].
  - exfalso. apply H. now left.
  - simpl. rewrite IH; [reflexivity|]. intro Hin. apply H. now right.
Qed.

Lemma sorted_set_length l :
  NoDup l -> List.length (sorted_set l) = List.length l.
Proof.
  induction l as [|x l IH]; intro H; [reflexivity|].
  inversion H as [|? ? Hx Hl]; subst. simpl.
  rewrite insert_uniq_length; [now rewrite IH|].
  now rewrite sorted_set_In.
Qed.

(** Two ascending lists with the same elements are the same list. *)
Lemma sorted_unique : forall l1 l2,
  StronglySorted Z.lt l1 -> StronglySorted Z.lt l2 ->
  (forall x, In x l1 <-> In x l2) -> l1 = l2.
Proof.
  induction l1 as [|a l1 IH]; intros l2 H1 H2 Hin.
  - destruct l2 as [|b l2]; [reflexivity|].
    exfalso. apply (Hin b). now left.
  - destruct l2 as [|b l2]; [exfalso; apply (Hin a); now left|].
    inversion H1 as [|? ? H1' Ha]; subst.
    inversion H2 as [|? ? H2' Hb]; subst.
    rewrite Forall_forall in Ha, Hb.
    assert (a = b).
    { destruct (proj1 (Hin a) (or_introl eq_refl)) as [E|Hab]; [now symmetry|].
      destruct (proj2 (Hin b) (or_introl eq_refl)) as [E|Hba]; [assumption|].
      specialize (Ha b Hba). specialize (Hb a Hab). lia. }
    subst b. f_equal. apply IH; [assumption|assumption|].
    intro x. split; intro Hx.
    + destruct (proj1 (Hin x) (or_intror Hx)) as [E|H]; [|assumption].
      subst x. specialize (Ha a Hx). lia.
    + destruct (proj2 (Hin x) (or_intror Hx)) as [E|H]; [|assumption].
      subst x. specialize (Hb a Hx). lia.
Qed.

Lemma seq_sorted : forall n a,
  StronglySorted Z.lt (map Z.of_nat (seq a n)).
Proof.
  induction n as [|n IH]; intro a; simpl; constructor; [apply IH|].
  apply Forall_forall. intros x Hx.
  apply in_map_iff in Hx as [i [<- Hi]]. apply in_seq in Hi. lia.
Qed.

Lemma number_from_seq : forall n a,
  needs_renumber (number_from (Z.of_nat a) (map Z.of_nat (seq a n))) = false.
Proof.
  unfold needs_renumber.
  induction n as [|n IH]; intro a; simpl; [reflexivity|].
  rewrite Z.eqb_refl. simpl.
  replace (Z.of_nat a + 1) with (Z.of_nat (S a)) by lia. apply IH.
Qed.

Lemma sorted_diff_nothing l : sorted_diff l [] = sorted_set l.
Proof.
  unfold sorted_diff. rewrite filter_all; [reflexivity|]. reflexivity.
Qed.

(** Nothing is removed exactly when no key has two numbers. *)
Lemma nothing_removed_iff (cm : chapter_nums) :
  NoDup (dict_keys cm) ->
  (snd (build_redirect_map cm) = []
   <-> forall n m k, dict_get n cm = Some k -> dict_get m cm = Some k -> n = m).
Proof.
  intro Hnd. split.
  - intros Hrem n m k Hn Hm.
    destruct (Z.lt_trichotomy n m) as [Hlt|[E|Hlt]]; [|assumption|].
    + assert (H : mem_Z m (snd (build_redirect_map cm)) = true).
      { apply (removed_iff_smaller cm m k Hnd Hm). now exists n. }
      rewrite Hrem in H. discriminate H.
    + assert (H : mem_Z n (snd (build_redirect_map cm)) = true).
      { apply (removed_iff_smaller cm n k Hnd Hn). now exists m. }
      rewrite Hrem in H. discriminate H.
  - intro Huniq. apply no_members_nil. intro n.
    destruct (dict_get n cm) as [k|] eqn:Hk.
    + apply not_true_is_false. intro Hrem.
      apply (removed_iff_smaller cm n k Hnd Hk) in Hrem as [m [Hm Hlt]].
      specialize (Huniq n m k Hk Hm). lia.
    + now apply not_in_map_not_removed.
Qed.

(** The numbers need no renumbering exactly when they are 1 to their
    count. *)
Lemma no_renumbering_iff (l : list Z) :
  NoDup l ->
  (needs_renumber (build_renumber_map l []) = false
   <-> forall n, In n l <-> 1 <= n <= Z.of_nat (List.length l)).
Proof.
  intro Hnd. unfold build_renumber_map. rewrite sorted_diff_nothing.
  pose proof (sorted_set_sorted l) as Hs.
  pose proof (sorted_set_length l Hnd) as Hlen.
  split.
  - intros Hno n. rewrite <- (sorted_set_In n l), <- Hlen.
    assert (Hnth : forall i, (i < List.length (sorted_set l))%nat ->
                     nth i (sorted_set l) 0 = 1 + Z.of_nat i).
    { intros i Hi. symmetry.
      apply (needs_renumber_false _ _ _ Hno).
      apply number_from_nth; [now apply strictly_sorted_NoDup|assumption]. }
    split.
    + intro Hin. apply (In_nth _ _ 0) in Hin as [i [Hi E]].
      rewrite (Hnth i Hi) in E. lia.
    + intro Hr. replace n with (nth (Z.to_nat (n - 1)) (sorted_set l) 0).
      * apply nth_In. lia.
      * rewrite Hnth by lia. lia.
  - intro Hrange.
    assert (E : sorted_set l = map Z.of_nat (seq 1 (List.length l))).
    { apply sorted_unique; [assumption|apply seq_sorted|].
      intro x. rewrite sorted_set_In, Hrange. symmetry.
      apply in_range_from_one. }
    rewrite E. apply (number_from_seq (List.length l) 1).
Qed.

(** X22. The script leaves a document untouched exactly when its chapter
    map is clean: no key has two numbers, and the numbers are 1 to their
    count. *)
Theorem dedup_changes_nothing_iff (cm : chapter_nums) (html : string) :
  NoDup (dict_keys cm) ->
  (process_chapter cm html = Some (false, html)
   <-> (forall n m k, dict_get n cm = Some k -> dict_get m cm = Some k -> n = m)
       /\ forall n, In n (dict_keys cm) <-> 1 <= n <= Z.of_nat (List.length cm)).
Proof.
  intro Hnd.
  assert (Hlen : List.length (dict_keys cm) = List.length cm)
    by (unfold dict_keys; apply length_map).
  rewrite <- (nothing_removed_iff cm Hnd), <- Hlen.
  rewrite <- (no_renumbering_iff (dict_keys cm) Hnd).
  rewrite process_chapter_eq.
  assert (Hchanged :
            match make_plan cm with
            | None => None
            | Some plan =>
                match Re.sub_fn cite_attr_re
                        (replace_citation (plan_final plan)) html with
                | None => None
                | Some html1 =>
                    match Re.sub_fn id_attr_re
                            (replace_li_id (plan_removed plan)
                                           (plan_renumber plan)) html1 with
                    | None => None
                    | Some html2 =>
                        Some (true, remove_marked (String.length html2) html2)
                    end
                end
            end <> Some (false, html)).
  { destruct (make_plan cm) as [plan|]; [|discriminate].
    destruct (Re.sub_fn cite_attr_re _ html) as [html1|]; [|discriminate].
    destruct (Re.sub_fn id_attr_re _ html1) as [html2|]; discriminate. }
  destruct (snd (build_redirect_map cm)) as [|r rem].
  - cbn [andb].
    destruct (needs_renumber (build_renumber_map (dict_keys cm) [])).
    + cbn [negb]. split.
      * intro H. contradiction.
      * intros [_ H]. discriminate H.
    + cbn [negb]. split; [auto|reflexivity].
  - cbn [andb]. split.
    + intro H. contradiction.
    + intros [H _]. discriminate H.
Qed.

Lemma dedup_changes_nothing_iff_witness :
  process_chapter [(1, "a2001"); (2, "b2002"); (3, "c2003")] dup_html
  = Some (false, dup_html)
  <-> (forall n m k,
         dict_get n [(1, "a2001"); (2, "b2002"); (3, "c2003")] = Some k ->
         dict_get m [(1, "a2001"); (2, "b2002"); (3, "c2003")] = Some k ->
         n = m)
      /\ forall n,
           In n (dict_keys [(1, "a2001"); (2, "b2002"); (3, "c2003")])
           <-> 1 <= n <= Z.of_nat
                 (List.length [(1, "a2001"); (2, "b2002"); (3, "c2003")]).
Proof.
  apply (dedup_changes_nothing_iff
           [(1, "a2001"); (2, "b2002"); (3, "c2003")] dup_html).
  repeat constructor; simpl; intuition discriminate.
Defined.

(* --------------------------------------------------------------------- *)
(** ** audit_refs.py: what the citation extractor collects                 *)
(* --------------------------------------------------------------------- *)

Lemma fold_set_get {V : Type} (l : list (string * V)) : forall d n v,
  dict_get n (fold_left (fun d kv => dict_set (fst kv) (snd kv) d) l d) = Some v ->
  In (n, v) l \/ dict_get n d = Some v.
Proof.
  induction l as [|[k w] l IH]; intros d n v H; [now right|].
  simpl in H. apply IH in H as [H|H]; [left; now right|].
  rewrite dict_get_set, string_eqb_key in H.
  destruct (String.eqb n k) eqn:E; [|now right].
  apply String.eqb_eq in E. subst k. inversion H; subst. left. now left.
Qed.

Lemma attr_get_valued attrs name :
  (forall n v, In (n, v) attrs -> v <> None) ->
  attr_get name (attrs_dict attrs) <> None.
Proof.
  intro H. unfold attr_get.
  destruct (dict_get name (attrs_dict attrs)) as [v|] eqn:E; [|discriminate].
  unfold attrs_dict in E.
  apply fold_set_get in E as [E|E]; [now apply (H name)|discriminate].
Qed.

Ltac split_matches :=
  repeat match goal with
         | |- context [match ?c with _ => _ end] => destruct c eqn:?
         | H : context [match ?c with _ => _ end] |- _ => destruct c eqn:?
         end.

Ltac open_somes :=
  repeat match goal with
         | H : Some _ = Some _ |- _ => inversion H; clear H; subst
         end.

Lemma length_take n : forall s, (String.length (Py.take n s) <= String.length s)%nat.
Proof.
  induction n as [|n IH]; intros [|c s]; simpl; try lia.
  specialize (IH s). lia.
Qed.

(** A match captures no more than its text. *)
Lemma run_group_length (r : Re.regex) : forall n s g k res,
  (String.length s <= n)%nat -> (String.length (group1 g) <= n)%nat ->
  Re.run r s g k = Some res ->
  exists s' g', (String.length s' <= n)%nat
                /\ (String.length (group1 g') <= n)%nat
                /\ k s' g' = Some res.
Proof.
  induction r as [|p|a IHa b IHb|a IHa b IHb|a IHa|a IHa| |a IHa];
    intros n s g k res Hs Hg H; cbn [Re.run] in H.
  - exists s, g. auto.
  - destruct s as [|c s0]; [discriminate|].
    destruct (p c); [|discriminate]. simpl in Hs.
    exists s0, g. split; [lia|auto].
  - apply (IHa n) in H as [s1 [g1 [Hs1 [Hg1 H]]]]; [|assumption|assumption].
    apply (IHb n) in H as [s2 [g2 [Hs2 [Hg2 H]]]]; [|assumption|assumption].
    exists s2, g2. auto.
  - destruct (Re.run a s g k) eqn:Ha.
    + inversion H; subst. exact (IHa n s g k res Hs Hg Ha).
    + exact (IHb n s g k res Hs Hg H).
  - remember (String.length s) as m eqn:Hm in H at 1. clear Hm.
    revert s g Hs Hg H. induction m as [|m IHm]; intros s g Hs Hg H.
    + exists s, g. auto.
    + match type of H with
      | match ?t with _ => _ end = _ => destruct t eqn:Ha
      end.
      * inversion H; subst.
        apply (IHa n) in Ha as [s1 [g1 [Hs1 [Hg1 Ha]]]]; [|assumption|assumption].
        destruct (String.length s1 <? String.length s)%nat; [|discriminate].
        apply IHm in Ha as [s2 [g2 [Hs2 [Hg2 Ha]]]]; [|assumption|assumption].
        exists s2, g2. auto.
      * exists s, g. auto.
  - apply (IHa n) in H as [s1 [g1 [Hs1 [Hg1 H]]]]; [|assumption|assumption].
    exists s1, (Some (Py.take (String.length s - String.length s1) s)).
    split; [assumption|]. split; [|assumption].
    cbn [group1]. pose proof (length_take (String.length s - String.length s1) s).
    lia.
  - destruct s as [|c [|c' s0]].
    + exists EmptyString, g. auto.
    + destruct (Py.is_char "010" c); [|discriminate].
      exists (String c EmptyString), g. auto.
    + discriminate.
  - remember (String.length s) as m eqn:Hm in H at 1. clear Hm.
    revert s g Hs Hg H. induction m as [|m IHm]; intros s g Hs Hg H.
    + destruct (k s g) eqn:Hk; [|discriminate].
      inversion H; subst. exists s, g. auto.
    + destruct (k s g) eqn:Hk.
      * inversion H; subst. exists s, g. auto.
      * apply (IHa n) in H as [s1 [g1 [Hs1 [Hg1 H]]]]; [|assumption|assumption].
        destruct (String.length s1 <? String.length s)%nat; [|discriminate].
        apply IHm in H as [s2 [g2 [Hs2 [Hg2 H]]]]; [|assumption|assumption].
        exists s2, g2. auto.
Qed.

Lemma rmatch_group_length r s rest g :
  Re.rmatch r s = Some (rest, g) ->
  (String.length (group1 g) <= String.length s)%nat.
Proof.
  unfold Re.rmatch. intro H.
  apply (run_group_length r (String.length s)) in H
    as [s' [g' [_ [Hg H]]]]; [|lia|simpl; lia].
  unfold Re.accept in H. inversion H; subst. exact Hg.
Qed.

(** [int] reads the number of a short attribute value. *)
Lemma int_of_group r s rest g :
  (String.length s <= Py.int_max_str_digits)%nat ->
  Re.rmatch r s = Some (rest, g) ->
  Py.int_of_str (group1 g) = Some (Py.int_of_digits (group1 g) 0).
Proof.
  intros Hs H. apply rmatch_group_length in H. unfold Py.int_of_str.
  destruct (String.length (group1 g) <=? Py.int_max_str_digits)%nat eqn:E;
    [reflexivity|].
  apply Nat.leb_gt in E. lia.
Qed.

Lemma attr_get_short attrs name v :
  (forall n w, In (n, Some w) attrs ->
               (String.length w <= Py.int_max_str_digits)%nat) ->
  attr_get name (attrs_dict attrs) = Some v ->
  (String.length v <= Py.int_max_str_digits)%nat.
Proof.
  intros H. unfold attr_get.
  destruct (dict_get name (attrs_dict attrs)) as [w|] eqn:E.
  - intros ->. unfold attrs_dict in E.
    apply fold_set_get in E as [E|E]; [now apply (H name)|discriminate].
  - intro Hv. inversion Hv; subst. simpl. unfold Py.int_max_str_digits. lia.
Qed.

Lemma track_entry_total tag ad x :
  attr_get "id" ad <> None ->
  (forall v, attr_get "id" ad = Some v ->
             (String.length v <= Py.int_max_str_digits)%nat) ->
  exists x', track_entry tag ad x = Some x'.
Proof.
  intros Hid Hshort. unfold track_entry.
  destruct (attr_get "id" ad) as [ref_id|]; [|contradiction].
  specialize (Hshort ref_id eq_refl).
  destruct (Re.rmatch entry_id_re ref_id) as [[rest g]|] eqn:Em.
  - rewrite (int_of_group _ _ _ _ Hshort Em).
    split_matches; eauto; discriminate.
  - split_matches; eauto; discriminate.
Qed.

Lemma handle_starttag_total line tag attrs x :
  (forall n v, In (n, v) attrs -> v <> None) ->
  (forall n v, In (n, Some v) attrs ->
               (String.length v <= Py.int_max_str_digits)%nat) ->
  exists x', handle_starttag line tag attrs x = Some x'.
Proof.
  intros H Hs. unfold handle_starttag, citation_of.
  pose proof (attr_get_valued attrs "href" H) as Hh.
  pose proof (attr_get_valued attrs "class" H) as Hc.
  pose proof (attr_get_valued attrs "id" H) as Hi.
  pose proof (attr_get_short attrs "id" ) as Hsi.
  pose proof (attr_get_short attrs "href") as Hsh.
  destruct (attr_get "href" (attrs_dict attrs)) as [href|]; [|contradiction].
  destruct (attr_get "class" (attrs_dict attrs)) as [cls|] eqn:Ec;
    [|contradiction].
  assert (Ht : forall x0, exists x', track_entry tag (attrs_dict attrs) x0 = Some x').
  { intro x0. apply track_entry_total; [assumption|]. intros v Hv.
    now apply (Hsi v Hs). }
  destruct (String.eqb tag "a");
    [destruct (Re.rmatch cite_re href) as [[rest g]|] eqn:Em;
     [rewrite (int_of_group _ _ _ _ (Hsh href Hs eq_refl) Em)|]|];
    (destruct (String.eqb tag "section");
     [destruct (Py.contains "references" cls); [eauto|];
      match goal with
      | |- context [if negb ?c then _ else _] => destruct (negb c)
      end; [eauto|apply Ht]
     |match goal with
      | |- context [if negb ?c then _ else _] => destruct (negb c)
      end; [eauto|apply Ht]]).
Qed.

(** X23. The extractor reads every document in which each attribute has
    a value of at most 4300 characters: only an attribute without a
    value, or a number with more digits than the interpreter converts,
    can make it fail. *)
Theorem feed_reads_valued_documents (events : list html_event) :
  (forall e, In e events -> attrs_valued e) ->
  (forall e, In e events -> attrs_short e) ->
  exists p, parse_chapter events = Some p.
Proof.
  intros H Hs. unfold parse_chapter.
  assert (Hf : forall st, exists x,
             fold_left handle_event events (Some st) = Some x).
  { induction events as [|e events IH]; intro st; [now exists st|].
    cbn [fold_left].
    assert (He : exists x', handle_event (Some st) e = Some x').
    { destruct e as [line tag attrs|tag|data]; simpl; eauto.
      apply handle_starttag_total.
      - apply (H (Start_tag line tag attrs)). now left.
      - apply (Hs (Start_tag line tag attrs)). now left. }
    destruct He as [x' ->]. apply IH.
    - intros e' He'. apply H. now right.
    - intros e' He'. apply Hs. now right. }
  destruct (Hf new_extractor) as [x Hx]. unfold feed. rewrite Hx. eauto.
Qed.

Lemma feed_reads_valued_documents_witness :
  exists p,
    parse_chapter
      [Start_tag 3 "a" [("href", Some "#ref-12")];
       Start_tag 9 "section" [("class", Some "references")];
       Start_tag 10 "ol" [];
       Start_tag 11 "li" [("id", Some "ref-12")];
       End_tag "li"] = Some p.
Proof.
  apply feed_reads_valued_documents.
  - intros e He. simpl in He.
    destruct He as [<-|[<-|[<-|[<-|[<-|[]]]]]]; simpl; try exact I;
      intros n v Hin; simpl in Hin; intuition congruence.
  - intros e He. simpl in He.
    destruct He as [<-|[<-|[<-|[<-|[<-|[]]]]]]; simpl; try exact I;
      intros n v Hin; simpl in Hin;
      repeat match goal with
             | H : _ \/ _ |- _ => destruct H
             | H : False |- _ => destruct H
             | H : (_, _) = (_, _) |- _ => inversion H; clear H; subst
             end; apply Nat.leb_le; vm_compute; reflexivity.
Defined.

Lemma track_entry_citations tag ad x x' :
  track_entry tag ad x = Some x' -> x_citations x' = x_citations x.
Proof.
  unfold track_entry. intro H.
  split_matches; try discriminate; open_somes; reflexivity.
Qed.

Lemma handle_starttag_citations line tag attrs x x' :
  handle_starttag line tag attrs x = Some x' ->
  x_citations x'
  = (x_citations x ++ event_citations (Start_tag line tag attrs))%list.
Proof.
  unfold handle_starttag, event_citations. intro H.
  destruct (citation_of line tag (attrs_dict attrs)) as [cs|]; [|discriminate].
  destruct (String.eqb tag "section").
  - destruct (attr_get "class" (attrs_dict attrs)) as [cls|]; [|discriminate].
    destruct (Py.contains "references" cls).
    + inversion H; subst. reflexivity.
    + destruct (x_in_ref_section (add_citations cs x)) eqn:E.
      * cbn [set_section x_in_ref_section negb] in H.
        apply track_entry_citations in H. exact H.
      * rewrite E in H. cbn [negb] in H. inversion H; subst. reflexivity.
  - destruct (negb (x_in_ref_section (add_citations cs x))).
    + inversion H; subst. reflexivity.
    + apply track_entry_citations in H. exact H.
Qed.

Lemma handle_endtag_citations tag x :
  x_citations (handle_endtag tag x) = x_citations x.
Proof.
  unfold handle_endtag, close_entry.
  split_matches; reflexivity.
Qed.

Lemma handle_data_citations data x :
  x_citations (handle_data data x) = x_citations x.
Proof. unfold handle_data. split_matches; reflexivity. Qed.

(** X24. A citation link is counted wherever it stands: the citations of
    a document are those of its start tags, in order, whatever the state
    of the extractor, also inside the reference list. *)
Theorem citations_counted_everywhere (events : list html_event)
    (p : parsed_chapter) :
  parse_chapter events = Some p ->
  citations p = flat_map event_citations events.
Proof.
  unfold parse_chapter, feed.
  assert (H : forall st x,
            fold_left handle_event events (Some st) = Some x ->
            x_citations x
            = (x_citations st ++ flat_map event_citations events)%list).
  { induction events as [|e events IH]; intros st x Hx.
    - simpl in Hx. inversion Hx; subst. simpl. now rewrite app_nil_r.
    - cbn [fold_left] in Hx.
      destruct (handle_event (Some st) e) as [x1|] eqn:E.
      + rewrite (IH x1 x Hx). cbn [flat_map]. rewrite app_assoc. f_equal.
        destruct e as [line tag attrs|tag|data]; simpl in E.
        * now apply handle_starttag_citations.
        * inversion E; subst. rewrite handle_endtag_citations.
          simpl. now rewrite app_nil_r.
        * inversion E; subst. rewrite handle_data_citations.
          simpl. now rewrite app_nil_r.
      + exfalso. clear IH. induction events as [|e' events IH'];
          simpl in Hx; [discriminate|auto]. }
  intro Hp.
  destruct (fold_left handle_event events (Some new_extractor)) as [x|] eqn:E;
    [|discriminate].
  inversion Hp; subst. cbn [citations]. now rewrite (H _ _ E).
Qed.

Lemma citations_counted_everywhere_witness :
  citations
    {| citations := [(3%nat, 12); (12%nat, 7)];
       ref_entries := [12];
       ref_entry_data :=
         [(12, {| ed_authors := EmptyString; ed_title := EmptyString;
                  ed_venue := EmptyString; ed_url := EmptyString |})] |}
  = flat_map event_citations
      [Start_tag 3 "a" [("href", Some "#ref-12")];
       Start_tag 9 "section" [("class", Some "references")];
       Start_tag 10 "ol" [];
       Start_tag 11 "li" [("id", Some "ref-12")];
       Start_tag 12 "a" [("href", Some "#ref-7")];
       End_tag "a";
       End_tag "li"].
Proof.
  apply citations_counted_everywhere. vm_compute. reflexivity.
Defined.

Lemma track_entry_data tag ad x x' :
  data_of_entries x -> track_entry tag ad x = Some x' -> data_of_entries x'.
Proof.
  unfold data_of_entries, track_entry. intros [Hd Hc] H.
  split_matches; try discriminate; open_somes;
    cbn [open_entry set_current set_section x_ref_entry_data x_ref_entries
         x_current_ref] in *;
    (split;
     [intros n Hn; try (apply in_or_app; left); now apply Hd
     |intros n d Hn; open_somes;
      try (apply in_or_app; right; now left);
      try (apply in_or_app; left);
      eauto]).
Qed.

Lemma handle_starttag_data line tag attrs x x' :
  data_of_entries x ->
  handle_starttag line tag attrs x = Some x' -> data_of_entries x'.
Proof.
  unfold handle_starttag. intros Hx H.
  destruct (citation_of line tag (attrs_dict attrs)) as [cs|]; [|discriminate].
  assert (H0 : data_of_entries (add_citations cs x)) by exact Hx.
  destruct (String.eqb tag "section").
  - destruct (attr_get "class" (attrs_dict attrs)) as [cls|]; [|discriminate].
    destruct (Py.contains "references" cls).
    + inversion H; subst. exact Hx.
    + destruct (x_in_ref_section (add_citations cs x)) eqn:E.
      * cbn [set_section x_in_ref_section negb] in H.
        eapply track_entry_data; [|exact H]. exact Hx.
      * rewrite E in H. cbn [negb] in H. inversion H; subst. exact Hx.
  - destruct (negb (x_in_ref_section (add_citations cs x))).
    + inversion H; subst. exact Hx.
    + eapply track_entry_data; [|exact H]. exact Hx.
Qed.

Lemma handle_endtag_data tag x :
  data_of_entries x -> data_of_entries (handle_endtag tag x).
Proof.
  unfold data_of_entries, handle_endtag, close_entry. intros [Hd Hc].
  split_matches;
    cbn [set_current set_section x_ref_entry_data x_ref_entries
         x_current_ref] in *;
    open_somes; try discriminate;
    (split;
     [intros n Hn; try (apply dict_keys_set_In in Hn as [->|Hn]); eauto
     |intros n d Hn; open_somes; try discriminate; eauto]).
Qed.

Lemma handle_data_data data x :
  data_of_entries x -> data_of_entries (handle_data data x).
Proof.
  intro H. unfold handle_data.
  destruct (x_current_span x) as [span|]; [|exact H].
  destruct (x_current_ref x) as [cur|] eqn:E; [|exact H].
  destruct (Py.nonempty span); [|exact H].
  destruct H as [Hd Hc]. split.
  - exact Hd.
  - intros n d Hn. apply (Hc n d). cbn [set_current x_current_ref] in Hn.
    congruence.
Qed.

Lemma handle_starttag_outside line tag attrs x x' :
  opens_references (Start_tag line tag attrs) = false ->
  outside_references x ->
  handle_starttag line tag attrs x = Some x' -> outside_references x'.
Proof.
  unfold opens_references, handle_starttag, outside_references.
  intros Ho [H1 [H2 [H3 H4]]] H.
  destruct (citation_of line tag (attrs_dict attrs)) as [cs|]; [|discriminate].
  cbn [add_citations x_in_ref_section] in H. rewrite H1 in H.
  destruct (String.eqb tag "section").
  - destruct (attr_get "class" (attrs_dict attrs)) as [cls|]; [|discriminate].
    cbn [andb] in Ho. rewrite Ho in H. cbn [x_in_ref_section add_citations] in H.
    rewrite H1 in H. cbn [negb] in H. inversion H; subst. cbn. auto.
  - cbn [negb] in H. inversion H; subst. cbn. auto.
Qed.

Lemma handle_endtag_outside tag x :
  outside_references x -> handle_endtag tag x = x.
Proof.
  unfold outside_references, handle_endtag. intros [H1 _]. now rewrite H1.
Qed.

Lemma handle_data_outside data x :
  outside_references x -> handle_data data x = x.
Proof.
  unfold outside_references, handle_data. intros [_ [H2 _]]. rewrite H2.
  now destruct (x_current_span x).
Qed.

Lemma fold_handle_event_none events :
  fold_left handle_event events None = None.
Proof. induction events as [|e events IH]; [reflexivity|exact IH]. Qed.

Lemma feed_invariant (P : extractor -> Prop) (ok : html_event -> Prop) events :
  (forall x e x', ok e -> P x -> handle_event (Some x) e = Some x' -> P x') ->
  (forall e, In e events -> ok e) ->
  forall st x,
    P st -> fold_left handle_event events (Some st) = Some x -> P x.
Proof.
  intros Hstep. induction events as [|e events IH]; intros Hok st x Hst Hx.
  - simpl in Hx. inversion Hx; subst. exact Hst.
  - cbn [fold_left] in Hx.
    destruct (handle_event (Some st) e) as [x1|] eqn:E.
    + apply (IH (fun e' He' => Hok e' (or_intror He')) x1 x); [|exact Hx].
      eapply Hstep; [apply Hok; now left|exact Hst|exact E].
    + rewrite fold_handle_event_none in Hx. discriminate Hx.
Qed.

(** X25. Entry data belong to recorded entries, and entries are recorded
    in a references section only: every number with entry data is in the
    list of entries, and a document without a start tag that opens a
    references section has no entry at all. *)
Theorem entries_only_in_references_section (events : list html_event)
    (p : parsed_chapter) :
  parse_chapter events = Some p ->
  (forall n, In n (dict_keys (ref_entry_data p)) -> In n (ref_entries p))
  /\ ((forall e, In e events -> opens_references e = false) ->
      ref_entries p = [] /\ ref_entry_data p = []).
Proof.
  unfold parse_chapter, feed. intro Hp.
  destruct (fold_left handle_event events (Some new_extractor)) as [x|] eqn:E;
    [|discriminate].
  inversion Hp; subst. cbn [ref_entries ref_entry_data]. split.
  - assert (H : data_of_entries x).
    { apply (feed_invariant data_of_entries (fun _ => True) events) with
        (st := new_extractor); [|auto| |exact E].
      - intros x0 e x' _ Hx0 He.
        destruct e as [line tag attrs|tag|data]; simpl in He.
        + eapply handle_starttag_data; eauto.
        + inversion He; subst. now apply handle_endtag_data.
        + inversion He; subst. now apply handle_data_data.
      - split; [intros n []|intros n d Hn; discriminate Hn]. }
    exact (proj1 H).
  - intro Hno.
    assert (H : outside_references x).
    { apply (feed_invariant outside_references
               (fun e => opens_references e = false) events) with
        (st := new_extractor); [|exact Hno| |exact E].
      - intros x0 e x' He Hx0 Hstep.
        destruct e as [line tag attrs|tag|data]; simpl in Hstep.
        + eapply handle_starttag_outside; eauto.
        + inversion Hstep; subst. now rewrite handle_endtag_outside.
        + inversion Hstep; subst. now rewrite handle_data_outside.
      - repeat split. }
    destruct H as [_ [_ [H3 H4]]]. auto.
Qed.

Lemma entries_only_in_references_section_witness :
  (forall n, In n (dict_keys ([] : dict Z entry_data)) -> In n [])
  /\ ((forall e,
         In e [Start_tag 3 "a" [("href", Some "#ref-12")];
               Start_tag 10 "ol" [];
               Start_tag 11 "li" [("id", Some "ref-12")];
               End_tag "li"] ->
         opens_references e = false) ->
      ([] : list Z) = [] /\ ([] : dict Z entry_data) = []).
Proof.
  apply (entries_only_in_references_section
           [Start_tag 3 "a" [("href", Some "#ref-12")];
            Start_tag 10 "ol" [];
            Start_tag 11 "li" [("id", Some "ref-12")];
            End_tag "li"]
           {| citations := [(3%nat, 12)]; ref_entries := [];
              ref_entry_data := [] |}).
  vm_compute. reflexivity.
Defined.

(* --------------------------------------------------------------------- *)
(** ** The matcher: methods and thresholds                                 *)
(* --------------------------------------------------------------------- *)

Lemma match_fuzzy_some ratio idx ref k m :
  match_fuzzy ratio idx ref = Some (k, m) ->
  exists key q, k = Some key /\ m = M_title_fuzzy q /\ (65 # 100 <= q)%Q.
Proof.
  unfold match_fuzzy.
  destruct (Qle_bool (65 # 100) (fst (fuzzy_best ratio idx ref))) eqn:Hq;
    [|discriminate].
  intro H. inversion H; subst. clear H. apply Qle_bool_iff in Hq.
  pose proof (best_step_fold
                (fun p => (triple_score ratio p, triple_key p))
                (fuzzy_pairs idx ref) 0%Q None) as Hbest.
  cbv beta in Hbest. rewrite <- fuzzy_best_pairs in Hbest.
  destruct Hbest as [[Hr _]|[pre [p [post [_ [Hr _]]]]]].
  - rewrite Hr in Hq. cbn [fst] in Hq. exfalso.
    apply (Qlt_not_le 0 (65 # 100)); [reflexivity|exact Hq].
  - rewrite Hr in *. cbn [fst snd] in *. eauto.
Qed.

Lemma match_author_year_some ratio bib ref k m :
  match_author_year ratio bib ref = Some (k, m) ->
  exists q, m = M_author_year q /\ (55 # 100 <= q)%Q /\ key_truthy k = true.
Proof.
  unfold match_author_year.
  match goal with
  | |- context [if ?a && ?b then _ else _] =>
      destruct a eqn:Hk; [destruct b eqn:Hq|]; cbn [andb]; try discriminate
  end.
  intro H. inversion H; subst. clear H. apply Qle_bool_iff in Hq. eauto.
Qed.

Lemma match_url_stages_method idx ref k m :
  match_url_stages idx ref = Some (k, m) ->
  m = M_url \/ m = M_arxiv \/ m = M_url_partial.
Proof.
  unfold match_url_stages. intro H.
  repeat match type of H with
         | context [match ?c with _ => _ end] => destruct c
         end; inversion H; auto.
Qed.

(** The four ways a reference leaves the matcher. *)
Lemma match_ref_cases ratio bib idx ref :
  (exists k m, match_url_stages idx ref = Some (k, m)
               /\ match_ref ratio bib idx ref = (Some k, Some m))
  \/ (exists key q, match_ref ratio bib idx ref
                    = (Some key, Some (M_title_fuzzy q))
                    /\ (65 # 100 <= q)%Q)
  \/ (exists k q, match_ref ratio bib idx ref = (k, Some (M_author_year q))
                  /\ (55 # 100 <= q)%Q /\ key_truthy k = true
                  /\ year_truthy (ref_year ref) = true)
  \/ match_ref ratio bib idx ref = (None, None).
Proof.
  unfold match_ref. cbv zeta.
  match goal with
  | |- context [if negb (key_truthy (fst ?r)) && _ then _ else _] =>
      set (r2 := r)
  end.
  assert (H2 : (exists k m, match_url_stages idx ref = Some (k, m)
                            /\ r2 = (Some k, Some m))
               \/ (exists key q, r2 = (Some key, Some (M_title_fuzzy q))
                                 /\ (65 # 100 <= q)%Q)
               \/ r2 = (None, None)).
  { subst r2.
    match goal with
    | |- context [if negb (key_truthy (fst ?r)) then _ else _] => set (r1 := r)
    end.
    assert (H1 : (exists k m, match_url_stages idx ref = Some (k, m)
                              /\ r1 = (Some k, Some m))
                 \/ r1 = (None, None)).
    { subst r1. destruct (match_url_stages idx ref) as [[k m]|]; eauto. }
    destruct (negb (key_truthy (fst r1))).
    - destruct (match_fuzzy ratio idx ref) as [[k m]|] eqn:Hf.
      + destruct (match_fuzzy_some _ _ _ _ _ Hf) as [key [q [-> [-> Hq]]]].
        right. left. eauto.
      + destruct H1 as [H1|H1]; auto.
    - destruct H1 as [H1|H1]; auto. }
  clearbody r2.
  destruct (negb (key_truthy (fst r2)) && year_truthy (ref_year ref)) eqn:Hc.
  - apply andb_true_iff in Hc as [_ Hy].
    destruct (match_author_year ratio bib ref) as [[k m]|] eqn:Ha.
    + destruct (match_author_year_some _ _ _ _ _ Ha) as [q [-> [Hq Hk]]].
      right. right. left. exists k, q. auto.
    + destruct H2 as [H2|[H2|H2]]; auto.
  - destruct H2 as [H2|[H2|H2]]; auto.
Qed.

(** X26. What the matcher reports: a reference has a key exactly when it
    has a method; a fuzzy title match has a score of at least 0.65; an
    author-year match has a score of at least 0.55, a non-empty key and a
    reference with a year; and any other method comes from the URL
    stages, together with its key. *)
Theorem match_ref_methods (ratio : string -> string -> Q)
    (bib : dict string bib_entry) (idx : indices) (ref : html_ref) :
  (fst (match_ref ratio bib idx ref) = None
   <-> snd (match_ref ratio bib idx ref) = None)
  /\ (forall q, snd (match_ref ratio bib idx ref) = Some (M_title_fuzzy q) ->
        (65 # 100 <= q)%Q)
  /\ (forall q, snd (match_ref ratio bib idx ref) = Some (M_author_year q) ->
        (55 # 100 <= q)%Q
        /\ key_truthy (fst (match_ref ratio bib idx ref)) = true
        /\ year_truthy (ref_year ref) = true)
  /\ (forall m, snd (match_ref ratio bib idx ref) = Some m ->
        (forall q, m <> M_title_fuzzy q) -> (forall q, m <> M_author_year q) ->
        exists k, match_url_stages idx ref = Some (k, m)
                  /\ fst (match_ref ratio bib idx ref) = Some k).
Proof.
  destruct (match_ref_cases ratio bib idx ref)
    as [[k [m [Hu ->]]]|[[key [q [-> Hq]]]|[[k [q [-> [Hq [Hk Hy]]]]]| ->]]];
    cbn [fst snd].
  - pose proof (match_url_stages_method _ _ _ _ Hu) as Hm.
    split; [split; discriminate|]. split; [|split].
    + intros q H. inversion H; subst. destruct Hm as [Hm|[Hm|Hm]]; discriminate.
    + intros q H. inversion H; subst. destruct Hm as [Hm|[Hm|Hm]]; discriminate.
    + intros m0 H _ _. inversion H; subst. eauto.
  - split; [split; discriminate|]. split; [|split].
    + intros q0 H. inversion H; subst. exact Hq.
    + intros q0 H. discriminate H.
    + intros m H Hn _. inversion H; subst. now contradiction (Hn q).
  - split; [split; [intros ->; discriminate Hk|discriminate]|].
    split; [|split].
    + intros q0 H. discriminate H.
    + intros q0 H. inversion H; subst. auto.
    + intros m H _ Hn. inversion H; subst. now contradiction (Hn q).
  - split; [split; reflexivity|]. split; [|split]; intros ? H; discriminate H.
Qed.

(* --------------------------------------------------------------------- *)
(** ** _clean_latex and the records of the references store                *)
(* --------------------------------------------------------------------- *)

Lemma take_all q n : forall s,
  all_chars q s = true -> all_chars q (Py.take n s) = true.
Proof.
  induction n as [|n IH]; intros [|c s] H; try reflexivity.
  simpl in *. apply andb_true_iff in H as [Hc Hs]. now rewrite Hc, IH.
Qed.

(** A match of a text hands on a part of the text and a group that is a
    part of the text or the group it started with. *)
Lemma run_chars (q : ascii -> bool) (r : Re.regex) : forall s g k res,
  all_chars q s = true -> all_chars q (group1 g) = true ->
  Re.run r s g k = Some res ->
  exists s' g', all_chars q s' = true /\ all_chars q (group1 g') = true
                /\ k s' g' = Some res.
Proof.
  induction r as [|p|a IHa b IHb|a IHa b IHb|a IHa|a IHa| |a IHa];
    intros s g k res Hs Hg H; cbn [Re.run] in H.
  - exists s, g. split; [assumption|split; assumption].
  - destruct s as [|c s0]; [discriminate|].
    destruct (p c); [|discriminate]. simpl in Hs.
    apply andb_true_iff in Hs as [_ Hs]. exists s0, g. split; [assumption|split; assumption].
  - apply IHa in H as [s1 [g1 [Hs1 [Hg1 H]]]]; [|assumption|assumption].
    apply IHb in H as [s2 [g2 [Hs2 [Hg2 H]]]]; [|assumption|assumption].
    exists s2, g2. split; [assumption|split; assumption].
  - destruct (Re.run a s g k) eqn:Ha.
    + inversion H; subst. exact (IHa s g k res Hs Hg Ha).
    + exact (IHb s g k res Hs Hg H).
  - remember (String.length s) as n eqn:Hn in H at 1. clear Hn.
    revert s g Hs Hg H. induction n as [|n IHn]; intros s g Hs Hg H.
    + exists s, g. split; [assumption|split; assumption].
    + match type of H with
      | match ?t with _ => _ end = _ => destruct t eqn:Ha
      end.
      * inversion H; subst.
        apply IHa in Ha as [s1 [g1 [Hs1 [Hg1 Ha]]]]; [|assumption|assumption].
        destruct (String.length s1 <? String.length s)%nat; [|discriminate].
        apply IHn in Ha as [s2 [g2 [Hs2 [Hg2 Ha]]]]; [|assumption|assumption].
        exists s2, g2. split; [assumption|split; assumption].
      * exists s, g. split; [assumption|split; assumption].
  - apply IHa in H as [s1 [g1 [Hs1 [Hg1 H]]]]; [|assumption|assumption].
    exists s1, (Some (Py.take (String.length s - String.length s1) s)).
    split; [assumption|]. split; [|assumption].
    cbn [group1]. now apply take_all.
  - destruct s as [|c [|c' s0]].
    + exists EmptyString, g. split; [assumption|split; assumption].
    + destruct (Py.is_char "010" c); [|discriminate].
      exists (String c EmptyString), g. split; [assumption|split; assumption].
    + discriminate.
  - remember (String.length s) as n eqn:Hn in H at 1. clear Hn.
    revert s g Hs Hg H. induction n as [|n IHn]; intros s g Hs Hg H.
    + destruct (k s g) eqn:Hk; [|discriminate].
      inversion H; subst. exists s, g. split; [assumption|split; assumption].
    + destruct (k s g) eqn:Hk.
      * inversion H; subst. exists s, g.
        split; [assumption|split; assumption].
      * apply IHa in H as [s1 [g1 [Hs1 [Hg1 H]]]]; [|assumption|assumption].
        destruct (String.length s1 <? String.length s)%nat; [|discriminate].
        apply IHn in H as [s2 [g2 [Hs2 [Hg2 H]]]]; [|assumption|assumption].
        exists s2, g2. split; [assumption|split; assumption].
Qed.

Lemma rmatch_chars q r s rest g :
  all_chars q s = true -> Re.rmatch r s = Some (rest, g) ->
  all_chars q rest = true /\ all_chars q (group1 g) = true.
Proof.
  unfold Re.rmatch. intros Hs H.
  apply (run_chars q) in H as [s' [g' [Hs' [Hg' H]]]];
    [|assumption|reflexivity].
  unfold Re.accept in H. inversion H; subst. auto.
Qed.

(** [re.sub] with the empty text or the group as the replacement brings
    in no character that the text does not have. *)
Lemma sub_chars q r (repl : option string -> string) :
  (forall g, all_chars q (group1 g) = true -> all_chars q (repl g) = true) ->
  forall s, all_chars q s = true -> all_chars q (Re.sub r repl s) = true.
Proof.
  intros Hrepl s. unfold Re.sub. generalize (S (String.length s)) as n.
  intro n. revert s. induction n as [|n IH]; intros s Hs; [exact Hs|].
  cbn [Re.sub_loop].
  assert (Htail : match s with
                  | EmptyString => EmptyString
                  | String c s' => String c (Re.sub_loop n r repl s')
                  end = EmptyString
                  \/ exists c s', s = String c s'
                       /\ q c = true /\ all_chars q s' = true).
  { destruct s as [|c s']; [now left|]. right. simpl in Hs.
    apply andb_true_iff in Hs as [Hc Hs]. eauto. }
  assert (Hkeep : all_chars q
                    match s with
                    | EmptyString => EmptyString
                    | String c s' => String c (Re.sub_loop n r repl s')
                    end = true).
  { destruct s as [|c s']; [reflexivity|]. simpl in Hs.
    apply andb_true_iff in Hs as [Hc Hs]. cbn [all_chars].
    now rewrite Hc, IH. }
  destruct (Re.rmatch r s) as [[rest g]|] eqn:Em; [|exact Hkeep].
  destruct (String.length rest <? String.length s)%nat; [|exact Hkeep].
  destruct (rmatch_chars q r s rest g Hs Em) as [Hrest Hg].
  rewrite all_chars_app, (Hrepl g Hg), (IH rest Hrest). reflexivity.
Qed.

(** X27. A cleaned title contains no brace and has no white space at
    either end. *)
Theorem clean_latex_has_no_braces (s : string) :
  all_chars is_no_brace (_clean_latex s) = true
  /\ Py.strip (_clean_latex s) = _clean_latex s.
Proof.
  unfold _clean_latex. split; [|apply strip_idem].
  apply strip_all. unfold Re.remove.
  do 6 (apply sub_chars; [auto|]).
  change (all_chars is_no_brace (Re.remove (Re.Chr (Py.char_in "{}")) s) = true).
  rewrite remove_chr. apply keep_chars_all.
Qed.

Lemma search_rmatch r : forall s pre rest g,
  Re.search r s = Some (pre, rest, g) ->
  exists s', Re.rmatch r s' = Some (rest, g).
Proof.
  induction s as [|c s IH]; intros pre rest g H; simpl in H.
  - destruct (Re.rmatch r EmptyString) as [[rest0 g0]|] eqn:Hm; [|discriminate].
    inversion H; subst. eauto.
  - destruct (Re.rmatch r (String c s)) as [[rest0 g0]|] eqn:Hm.
    + inversion H; subst. eauto.
    + destruct (Re.search r s) as [[[pre1 rest1] g1]|] eqn:Es; [|discriminate].
      inversion H; subst. eapply IH. reflexivity.
Qed.

Lemma digit_value c :
  Py.is_digit c = true -> (0 <= Z.of_nat (Py.code c - 48) <= 9)%Z.
Proof.
  unfold Py.is_digit, Py.in_range. intro H.
  apply andb_true_iff in H as [H1 H2].
  apply Nat.leb_le in H1, H2. lia.
Qed.

(** The group of four digits is a number of at most four digits. *)
Lemma four_digits_value s rest g :
  Re.rmatch (Re.Grp (Re.Rep 4 Re.digit)) s = Some (rest, g) ->
  (0 <= Py.int_of_digits (group1 g) 0 <= 9999)%Z.
Proof.
  unfold Re.rmatch, Re.digit. cbn [Re.Rep Re.run].
  destruct s as [|a [|b [|c [|d s]]]]; try discriminate;
    try (destruct (Py.is_digit a); discriminate);
    try (destruct (Py.is_digit a); [destruct (Py.is_digit b)|]; discriminate);
    try (destruct (Py.is_digit a);
         [destruct (Py.is_digit b); [destruct (Py.is_digit c)|]|];
         discriminate).
  destruct (Py.is_digit a) eqn:Ha; [|discriminate].
  destruct (Py.is_digit b) eqn:Hb; [|discriminate].
  destruct (Py.is_digit c) eqn:Hc; [|discriminate].
  destruct (Py.is_digit d) eqn:Hd; [|discriminate].
  unfold Re.accept. intro H.
  change (String a (String b (String c (String d s))))
    with (String a (String b (String c (String d EmptyString))) ++ s) in H.
  rewrite take_app in H by (rewrite str_length_app; lia).
  inversion H; subst. clear H.
  cbn [group1 Py.int_of_digits].
  apply digit_value in Ha, Hb, Hc, Hd. lia.
Qed.

Lemma record_year_value entry : year_value (Some (record_year entry)).
Proof.
  unfold record_year, year_value.
  destruct (dict_get "year" entry) as [y|]; [|now left].
  destruct y as [|c y]; [right; now left|]. cbn [Py.is_empty].
  destruct (Re.search (Re.Grp (Re.Rep 4 Re.digit)) (String c y))
    as [[[pre rest] g]|] eqn:Es; [|now left].
  right. right. exists (Py.int_of_digits (group1 g) 0). split; [reflexivity|].
  apply search_rmatch in Es as [s' Hm]. eapply four_digits_value. exact Hm.
Qed.

Lemma json_str_or_null_value s : null_or_text (Some (json_str_or_null s)).
Proof.
  unfold json_str_or_null, null_or_text.
  destruct s as [|c s]; [now left|]. right. exists (String c s).
  split; [reflexivity|discriminate].
Qed.

Lemma json_of_opt_str_value o : null_or_string (Some (json_of_opt_str o)).
Proof. unfold null_or_string. destruct o; simpl; eauto. Qed.

Lemma classify_bib_type_cases entry :
  In (classify_bib_type entry) type_vocabulary.
Proof.
  unfold classify_bib_type, type_vocabulary.
  repeat match goal with
         | |- context [if ?c then _ else _] => destruct c
         end; simpl; tauto.
Qed.

Lemma author_keys_chars entry :
  Forall (fun a => all_chars is_key_char a = true) (author_keys_of entry).
Proof.
  unfold author_keys_of. apply Forall_forall. intros a Ha.
  apply in_map_iff in Ha as [fl [<- _]]. unfold make_author_key.
  destruct (Py.nonempty (normalize_name (fst fl)));
    [rewrite !all_chars_app, !normalize_name_chars; reflexivity
    |apply normalize_name_chars].
Qed.

Lemma clean_latex_no_brace s : all_chars is_no_brace (_clean_latex s) = true.
Proof.
  unfold _clean_latex. apply strip_all. unfold Re.remove.
  do 6 (apply sub_chars; [auto|]).
  change (all_chars is_no_brace (Re.remove (Re.Chr (Py.char_in "{}")) s) = true).
  rewrite remove_chr. apply keep_chars_all.
Qed.

(** The fields of a record the builder writes. *)
Lemma built_record_schema c existing k entry :
  (exists t, dict_get "title" (built_record c existing (k, entry)) = Some (JStr t)
             /\ all_chars is_no_brace t = true)
  /\ (exists l, dict_get "authors" (built_record c existing (k, entry))
                = Some (JArr (map JStr l))
                /\ Forall (fun a => all_chars is_key_char a = true) l)
  /\ year_value (dict_get "year" (built_record c existing (k, entry)))
  /\ null_or_string (dict_get "venue" (built_record c existing (k, entry)))
  /\ null_or_string (dict_get "venueShort" (built_record c existing (k, entry)))
  /\ null_or_text (dict_get "url" (built_record c existing (k, entry)))
  /\ null_or_text (dict_get "doi" (built_record c existing (k, entry)))
  /\ (exists t, dict_get "type" (built_record c existing (k, entry))
                = Some (JStr t)
                /\ In t type_vocabulary)
  /\ dict_get "screenshot" (built_record c existing (k, entry)) <> None.
Proof.
  unfold built_record. cbn [fst snd].
  assert (Hget : forall f v,
             In (f, v) (core_fields (html_urls c) k entry) ->
             dict_get f (merge_record (core_fields (html_urls c) k entry)
                           (prior_record k existing)) = Some v).
  { apply merge_get_core.
    - rewrite core_fields_keys. apply authoritative_fields_distinct.
    - rewrite core_fields_keys. apply screenshot_not_authoritative. }
  split.
  { eexists. split; [apply Hget; unfold core_fields; simpl; tauto|].
    apply clean_latex_no_brace. }
  split.
  { exists (author_keys_of entry).
    split; [apply Hget; unfold core_fields; simpl; tauto|].
    apply author_keys_chars. }
  split.
  { erewrite Hget; [apply record_year_value|].
    unfold core_fields. simpl. tauto. }
  split.
  { erewrite Hget; [apply json_of_opt_str_value|].
    unfold core_fields. simpl. tauto. }
  split.
  { erewrite Hget; [apply json_of_opt_str_value|].
    unfold core_fields. simpl. tauto. }
  split.
  { erewrite Hget; [apply json_str_or_null_value|].
    unfold core_fields. simpl. tauto. }
  split.
  { erewrite Hget; [apply json_str_or_null_value|].
    unfold core_fields. simpl. tauto. }
  split.
  { eexists. split; [apply Hget; unfold core_fields; simpl; tauto|].
    apply classify_bib_type_cases. }
  rewrite merge_get_screenshot.
  - destruct (dict_get "screenshot" (prior_record k existing)); discriminate.
  - rewrite core_fields_keys. apply screenshot_not_authoritative.
Qed.

(** X28. Every record of the references store has the nine fields of the
    schema: a title without braces, a list of author keys, a year that is
    null, empty or a number of at most four digits, a venue and a short
    venue that are null or text, a URL and a DOI that are null or
    non-empty, a type of the fixed vocabulary, and a screenshot field. *)
Theorem reference_records_follow_schema :
  forall (ratio : string -> string -> Q) (bib_text : string)
         (chapters : list (string * list html_ref))
         (existing_refs existing_authors : dict string record),
  exists cm refs authors,
    build_databases ratio bib_text chapters existing_refs existing_authors
    = Some (cm, refs, authors)
    /\ forall k r, dict_get k refs = Some r ->
         (exists t, dict_get "title" r = Some (JStr t)
                    /\ all_chars is_no_brace t = true)
         /\ (exists l, dict_get "authors" r = Some (JArr (map JStr l))
                       /\ Forall (fun a => all_chars is_key_char a = true) l)
         /\ year_value (dict_get "year" r)
         /\ null_or_string (dict_get "venue" r)
         /\ null_or_string (dict_get "venueShort" r)
         /\ null_or_text (dict_get "url" r)
         /\ null_or_text (dict_get "doi" r)
         /\ (exists t, dict_get "type" r = Some (JStr t) /\ In t type_vocabulary)
         /\ dict_get "screenshot" r <> None.
Proof.
  intros ratio bib_text chapters existing_refs existing_authors.
  destruct (collect_total ratio (parse_bibtex bib_text) chapters)
    as [c [Hc [Hnd _]]].
  exists (chapter_map c), (build_references c existing_refs),
         (build_authors c existing_authors).
  split; [now apply build_databases_eq|].
  intros k r Hk.
  rewrite build_references_map in Hk by assumption.
  rewrite (dict_get_map (built_record c existing_refs)) in Hk.
  destruct (dict_get k (all_matches c)) as [entry|]; [|discriminate].
  inversion Hk; subst r. apply built_record_schema.
Qed.

(* --------------------------------------------------------------------- *)
(** ** The chapter map of the builder                                      *)
(* --------------------------------------------------------------------- *)

Lemma collect_refs_map ratio (bib : dict string bib_entry) slug refs :
  forall cur c cur' c',
    fold_left (collect_match bib slug) (match_refs_to_bib ratio refs bib)
              (Some (cur, c)) = Some (cur', c') ->
    (forall num, In num (dict_keys cur')
                 <-> In num (dict_keys cur)
                     \/ exists ref, In ref refs
                                    /\ num = Py.str_of_Z (ref_num ref))
    /\ (forall num key, dict_get num cur' = Some key ->
          dict_get num cur = Some key
          \/ exists ref, In ref refs /\ num = Py.str_of_Z (ref_num ref)
                         /\ key = ref_key ratio bib slug ref).
Proof.
  unfold match_refs_to_bib.
  induction refs as [|ref refs IH]; intros cur c cur' c' H;
    cbn [map fold_left] in H.
  - inversion H; subst. split.
    + intro num. split; [auto|]. intros [Hn|[ref [[] _]]]. exact Hn.
    + auto.
  - set (r := match_ref ratio bib (build_indices bib) ref) in *.
    destruct (collect_match_step bib slug cur c ref (fst r) (snd r))
      as [entry [urls Hstep]].
    { intros k Hk. eapply match_ref_key. exact Hk. }
    rewrite Hstep in H.
    change (assigned_key slug (ref, fst r, snd r))
      with (ref_key ratio bib slug ref) in *.
    apply IH in H as [Hkeys Hget]. split.
    + intro num. rewrite Hkeys, dict_keys_set_In. split.
      * intros [[->|Hn]|[ref' [Hin Hn]]].
        -- right. exists ref. split; [now left|reflexivity].
        -- now left.
        -- right. exists ref'. split; [now right|assumption].
      * intros [Hn|[ref' [[->|Hin] Hn]]].
        -- left. now right.
        -- left. now left.
        -- right. exists ref'. split; assumption.
    + intros num key Hk. apply Hget in Hk as [Hk|[ref' [Hin [Hn Hk]]]].
      * rewrite dict_get_set, string_eqb_key in Hk.
        destruct (String.eqb num (Py.str_of_Z (ref_num ref))) eqn:E.
        -- apply String.eqb_eq in E. inversion Hk; subst. right.
           exists ref. split; [now left|split; reflexivity].
        -- now left.
      * right. exists ref'. split; [now right|split; assumption].
Qed.

Lemma collect_maps ratio (bib : dict string bib_entry) chapters :
  forall c0 c,
    NoDup (map fst chapters) ->
    fold_left (collect_chapter ratio bib) chapters (Some c0) = Some c ->
    (forall slug, ~ In slug (map fst chapters) ->
       dict_get slug (chapter_map c) = dict_get slug (chapter_map c0))
    /\ (forall slug refs, In (slug, refs) chapters ->
          exists cmap,
            dict_get slug (chapter_map c) = Some cmap
            /\ (forall num, In num (dict_keys cmap)
                            <-> exists ref, In ref refs
                                  /\ num = Py.str_of_Z (ref_num ref))
            /\ (forall num key, dict_get num cmap = Some key ->
                  exists ref, In ref refs /\ num = Py.str_of_Z (ref_num ref)
                              /\ key = ref_key ratio bib slug ref)).
Proof.
  induction chapters as [|[slug refs] chapters IH]; intros c0 c Hnd H;
    cbn [fold_left] in H.
  - inversion H; subst. split; [reflexivity|]. intros slug refs [].
  - cbn [map fst] in Hnd. inversion Hnd as [|? ? Hslug Hnd']; subst.
    destruct (collect_refs_fold ratio bib slug refs [] c0)
      as [cur' [c' [Hfold [Hcm _]]]].
    rewrite collect_chapter_eq, Hfold in H.
    destruct (collect_refs_map ratio bib slug refs [] c0 cur' c' Hfold)
      as [Hkeys Hget].
    apply IH in H as [Hout Hin]; [|assumption].
    cbn [chapter_map] in Hout. split.
    + intros s Hs. cbn [map fst] in Hs.
      rewrite Hout by (intro Hc; apply Hs; now right).
      rewrite dict_get_set_neq; [now rewrite Hcm|].
      intro E. apply Hs. now left.
    + intros s rs [E|Hch].
      * injection E as <- <-. exists cur'.
        rewrite (Hout slug Hslug), dict_get_set_eq.
        split; [reflexivity|]. split.
        -- intro num. rewrite Hkeys. split; [|auto]. intros [[]|Hn]. exact Hn.
        -- intros num key Hk. apply Hget in Hk as [Hk|Hk]; [discriminate|].
           exact Hk.
      * now apply Hin.
Qed.

(** X29. When no document occurs twice, the chapter map has an entry for
    every document; its numbers are exactly the numbers of the reference
    entries of the document, and each is mapped to the key of a reference
    entry with that number. *)
Theorem chapter_map_covers_documents
    (ratio : string -> string -> Q) (bib_text : string)
    (chapters : list (string * list html_ref))
    (existing_refs existing_authors : dict string record) :
  NoDup (map fst chapters) ->
  exists cm refs authors,
    build_databases ratio bib_text chapters existing_refs existing_authors
    = Some (cm, refs, authors)
    /\ forall slug rs, In (slug, rs) chapters ->
         exists cmap,
           dict_get slug cm = Some cmap
           /\ (forall num, In num (dict_keys cmap)
                           <-> exists ref, In ref rs
                                 /\ num = Py.str_of_Z (ref_num ref))
           /\ (forall num key, dict_get num cmap = Some key ->
                 exists ref, In ref rs /\ num = Py.str_of_Z (ref_num ref)
                   /\ key = ref_key ratio (parse_bibtex bib_text) slug ref).
Proof.
  intro Hnd.
  destruct (collect_total ratio (parse_bibtex bib_text) chapters)
    as [c [Hc _]].
  exists (chapter_map c), (build_references c existing_refs),
         (build_authors c existing_authors).
  split; [now apply build_databases_eq|].
  unfold collect in Hc.
  exact (proj2 (collect_maps ratio (parse_bibtex bib_text) chapters
                  empty_collected c Hnd Hc)).
Qed.

Lemma chapter_map_covers_documents_witness :
  exists cm refs authors,
    build_databases no_similarity anon_bib_text [("index", [anon_ref])] [] []
    = Some (cm, refs, authors)
    /\ forall slug rs, In (slug, rs) [("index", [anon_ref])] ->
         exists cmap,
           dict_get slug cm = Some cmap
           /\ (forall num, In num (dict_keys cmap)
                           <-> exists ref, In ref rs
                                 /\ num = Py.str_of_Z (ref_num ref))
           /\ (forall num key, dict_get num cmap = Some key ->
                 exists ref, In ref rs /\ num = Py.str_of_Z (ref_num ref)
                   /\ key = ref_key no_similarity (parse_bibtex anon_bib_text)
                              slug ref).
Proof.
  apply (chapter_map_covers_documents no_similarity anon_bib_text
           [("index", [anon_ref])] [] []).
  repeat constructor. simpl. tauto.
Defined.

(* ===================================================================== *)
(** * Part IV: the markup after dedup_refs.py                             *)
(* ===================================================================== *)

(* --------------------------------------------------------------------- *)
(** ** Texts and their first occurrences                                   *)
(* --------------------------------------------------------------------- *)







(* --------------------------------------------------------------------- *)
(** ** The matcher on literals, runs and the lazy star                     *)
(* --------------------------------------------------------------------- *)












(* --------------------------------------------------------------------- *)
(** ** The loop that removes the marked entries                            *)
(* --------------------------------------------------------------------- *)











(* --------------------------------------------------------------------- *)
(** ** The rewrite of the markup                                           *)
(* --------------------------------------------------------------------- *)




